(** * mcp_python_toolbox: a shallow embedding of the core components

    The development follows the Python sources under
    [src/mcp_python_toolbox]:

    - [core/file_operations.py]  (module [FileOperations])
    - [core/code_executor.py]    (module [CodeExecutor])
    - [core/project_manager.py]  (module [ProjectManager])
    - [core/code_analyzer.py]    (module [CodeAnalyzer])
    - [server.py]                (module [PythonToolboxServer])

    Modelling conventions.

    - File-system names, command lines and messages are byte strings
      ([string]); text whose characters matter one by one (the code handed
      to the executor, the linter's report) is a list of Unicode code
      points ([pystr]).
    - The file system is a finite map from resolved absolute paths
      (component lists) to nodes.  Symbolic links and permissions are not
      represented: a node is what [stat] reports after following links, so
      [Path.resolve] is the lexical elimination of [..] that POSIX
      [realpath] performs in a link-free tree.
    - Stateful code is written in a state-and-exception monad over the
      world (file system and the log of spawned child processes).
    - Library code that is not part of the repository (the child process,
      the temp-file facility, [toml], [packaging], [black], [autopep8],
      [pylint]) is a field of a host record or a section variable. *)

From Stdlib Require Import ZArith NArith Ascii String.
From stdpp Require Import gmap strings list pretty.

Local Open Scope string_scope.
Local Open Scope list_scope.

(** ** Python sequences: [split], [join], [startswith] *)

Section Sequences.
Context {A : Type} `{EqDecision A}.

(** [s.split(sep)] for a one-element separator: never the empty list. *)
Fixpoint split (sep : A) (l : list A) : list (list A) :=
  match l with
  | [] => [[]]
  | c :: r =>
      if decide (c = sep) then [] :: split sep r
      else match split sep r with
           | [] => [[c]]
           | w :: ws => (c :: w) :: ws
           end
  end.

(** [sep.join(ws)]. *)
Fixpoint join (sep : A) (ws : list (list A)) : list A :=
  match ws with
  | [] => []
  | [w] => w
  | w :: ws' => w ++ sep :: join sep ws'
  end.

(** [s.startswith(t)]. *)
Fixpoint startswith (s t : list A) : bool :=
  match t, s with
  | [], _ => true
  | _ :: _, [] => false
  | b :: t', a :: s' => if decide (a = b) then startswith s' t' else false
  end.

End Sequences.

(** Byte strings as lists of characters, to share the sequence operations. *)
Definition chars (s : string) : list ascii := list_ascii_of_string s.
Definition unchars (l : list ascii) : string := string_of_list_ascii l.

Definition str_split (sep : ascii) (s : string) : list string :=
  unchars <$> split sep (chars s).
Definition str_join (sep : ascii) (ws : list string) : string :=
  unchars (join sep (chars <$> ws)).
Definition str_startswith (s t : string) : bool :=
  startswith (chars s) (chars t).

(** ** pathlib on a POSIX host *)

Module PurePath.

(** A parsed path: its anchor (the empty string for a relative path, [/],
    or [//] when the text starts with exactly two slashes) and its
    components. Parsing drops empty and [.] components and keeps [..]. *)
Record Path := mkPath { anchor : string; parts : list string }.

Definition absolute (p : Path) : bool := negb (bool_decide (anchor p = "")).

Definition keep_part (c : string) : bool :=
  negb (bool_decide (c = "")) && negb (bool_decide (c = ".")).

(** [Path(s)]. *)
Definition of_str (s : string) : Path :=
  {| anchor := if str_startswith s "//" && negb (str_startswith s "///")
               then "//"
               else if str_startswith s "/" then "/" else "";
     parts := List.filter keep_part (str_split "/"%char s) |}.

(** [a / b]: an absolute right operand replaces the left one. *)
Definition truediv (a b : Path) : Path :=
  if absolute b then b
  else {| anchor := anchor a; parts := parts a ++ parts b |}.

(** [str(p)]. *)
Definition str (p : Path) : string :=
  if absolute p then anchor p +:+ str_join "/"%char (parts p)
  else match parts p with
       | [] => "."
       | _ => str_join "/"%char (parts p)
       end.

(** Lexical elimination of [..]; [acc] is the resolved prefix, reversed.
    [..] at the root stays at the root. *)
Fixpoint normalize (acc rest : list string) : list string :=
  match rest with
  | [] => rev acc
  | c :: r =>
      if bool_decide (c = "..") then normalize (tail acc) r
      else normalize (c :: acc) r
  end.

(** [p.resolve()] for a process whose current directory is [cwd]
    (a resolved absolute path). The result is anchored at [/]. *)
Definition resolve (cwd : list string) (p : Path) : Path :=
  {| anchor := "/";
     parts := normalize (if absolute p then [] else rev cwd) (parts p) |}.

End PurePath.

Import PurePath.

(** A resolved absolute path, as its components. *)
Abbreviation rpath := (list string).

Definition abs_path (p : rpath) : Path := {| anchor := "/"; parts := p |}.
Definition rpath_str (p : rpath) : string := str (abs_path p).

(** ** The world *)

(** Text as Unicode code points. *)
Abbreviation pystr := (list N).

Inductive node : Type :=
  | File (content : pystr)
  | Dir
  | Special.

Abbreviation filesystem := (gmap rpath node).

(** [p.exists()] and [p.is_file()] on a resolved path. *)
Definition exists_ (f : filesystem) (p : rpath) : bool :=
  match f !! p with
  | Some _ => true
  | None => false
  end.

Definition is_file (f : filesystem) (p : rpath) : bool :=
  match f !! p with
  | Some (File _) => true
  | _ => false
  end.

(** The world a call runs in: the file system and the log of the child
    processes requested so far, each with its command line and working
    directory ([None]: the server's own). *)
Record spawn := mkSpawn { argv : list string; cwd : option string }.

Record world := mkWorld { fs : filesystem; spawned : list spawn }.

(** Library calls that can raise an exception of their own. *)
Inductive callee : Type :=
  | Tempfile | Subprocess | OsUnlink | OsRemove | Open | Toml | Packaging
  | Black.

(** Exceptions. [ValueError] and [FileNotFoundError] are the exceptions
    the repository's own [raise] statements build, with their message;
    [TypeError], [KeyError], [UnicodeEncodeError] and [CalledProcessError]
    are raised by the interpreter, by a text-mode [write] and by
    [subprocess.run(check=True)]; [Library who detail] is any other
    exception raised inside the library call [who] ([detail]: the errno of
    an [OSError], or a code for another error). An [OSError] with errno
    [ENOENT] has the Python class [FileNotFoundError] too; it is told from
    the repository's own by its constructor here, by its message there. *)
Inductive exn : Type :=
  | ValueError (msg : string)
  | FileNotFoundError (msg : string)
  | TypeError
  | KeyError (key : string)
  | UnicodeEncodeError
  | CalledProcessError (returncode : Z) (cmd : list string)
  | Library (who : callee) (detail : N).

Definition ENOENT : N := 2.
Definition EISDIR : N := 21.

(** ** State and exceptions *)

Definition M (A : Type) : Type := world -> world * (exn + A).

Definition ret {A} (a : A) : M A := fun w => (w, inr a).
Definition raise {A} (e : exn) : M A := fun w => (w, inl e).
Definition bind {A B} (c : M A) (k : A -> M B) : M B :=
  fun w => match c w with
           | (w', inl e) => (w', inl e)
           | (w', inr a) => k a w'
           end.
Definition lift {A} (r : exn + A) : M A := fun w => (w, r).
Definition get_fs : M filesystem := fun w => (w, inr (fs w)).
Definition put_fs (f : filesystem) : M unit :=
  fun w => (mkWorld f (spawned w), inr tt).

(** [try: body finally: fin]. The finaliser always runs; an exception it
    raises replaces the outcome of the body. *)
Definition try_finally {A} (body : M A) (fin : M unit) : M A :=
  fun w => match body w with
           | (w1, r) => match fin w1 with
                        | (w2, inl e) => (w2, inl e)
                        | (w2, inr _) => (w2, r)
                        end
           end.

Declare Scope py_scope.
Delimit Scope py_scope with py.
Notation "x <- c ;; k" := (bind c (fun x => k))
  (at level 100, c at next level, right associativity) : py_scope.
Notation "c ;;; k" := (bind c (fun _ => k))
  (at level 100, right associativity) : py_scope.
Local Open Scope py_scope.

(** [os.remove(p)] and [os.unlink(p)] (the same call): a regular file is
    removed, anything else is an [OSError]. *)
Definition os_unlink (who : callee) (p : rpath) : M unit :=
  f <- get_fs ;;
  match f !! p with
  | Some (File _) => put_fs (delete p f)
  | Some _ => raise (Library who EISDIR)
  | None => raise (Library who ENOENT)
  end.

(** ** The host *)

(** What [subprocess.run] returns when the child was spawned and ended. *)
Record completed := mkCompleted
  { c_stdout : pystr; c_stderr : pystr; returncode : Z }.

(** The parts of the platform the code calls into.

    - [os_name]: [os.name];
    - [tmp_name f]: the name [tempfile.NamedTemporaryFile] creates in file
      system [f], or the errno it fails with;
    - [encodable c]: whether the text encoding of a file opened in mode
      ['w'] can encode code point [c];
    - [child args cwd f]: the run of a child process: the file system it
      leaves, and either the details of the exception [subprocess.run]
      raises (spawn failure, undecodable output) or the completed
      process. *)
Record host := mkHost
  { os_name : string;
    tmp_name : filesystem -> N + rpath;
    encodable : N -> bool;
    child : list string -> option string -> filesystem ->
            filesystem * (N + completed) }.

(** [subprocess.run(args, cwd=cwd, check=check, ...)]. *)
Definition subprocess_run (h : host) (args : list string)
    (dir : option string) (check : bool) : M completed :=
  fun w =>
    let '(f', r) := child h args dir (fs w) in
    let w' := mkWorld f' (spawned w ++ [mkSpawn args dir]) in
    match r with
    | inl d => (w', inl (Library Subprocess d))
    | inr c =>
        if check && negb (returncode c =? 0)%Z
        then (w', inl (CalledProcessError (returncode c) args))
        else (w', inr c)
    end.

(** Python truthiness of an [Optional[str]] argument. *)
Definition truthy (o : option string) : option string :=
  match o with
  | Some s => if bool_decide (s = "") then None else Some s
  | None => None
  end.

(** ** core/file_operations.py *)

Module FileOperations.
Section WithRoot.
(** [self.workspace_root], resolved by [__init__], and the current
    directory of the server process. *)
Variables (workspace_root process_cwd : rpath).

Definition _validate_path (path : string) : exn + rpath :=
  let resolved_path :=
    resolve process_cwd (truediv (abs_path workspace_root) (of_str path)) in
  if negb (str_startswith (str resolved_path) (rpath_str workspace_root))
  then inl (ValueError ("Path " +:+ path +:+ " is outside workspace root"))
  else inr (parts resolved_path).

Definition delete_file (path : string) : M unit :=
  file_path <- lift (_validate_path path) ;;
  f <- get_fs ;;
  if is_file f file_path then os_unlink OsRemove file_path
  else raise (FileNotFoundError ("File not found: " +:+ path)).

End WithRoot.
End FileOperations.

(** ** core/code_executor.py *)

Module CodeExecutor.

(** The dictionary [execute_code] returns. *)
Record result := mkResult
  { stdout : pystr; stderr : pystr; exit_code : Z }.

Section WithHost.
Variables (h : host) (workspace_root : rpath).

Definition venv_path : rpath := workspace_root ++ [".venv"].

Definition _get_python_path : M rpath :=
  let python_path :=
    if bool_decide (os_name h = "nt")
    then venv_path ++ ["Scripts"; "python.exe"]
    else venv_path ++ ["bin"; "python"] in
  f <- get_fs ;;
  if negb (exists_ f python_path)
  then raise (FileNotFoundError
                ("Python executable not found in virtual environment: "
                 +:+ rpath_str python_path))
  else ret python_path.

(** The [with tempfile.NamedTemporaryFile(mode='w', suffix='.py',
    delete=False)] block: the file is created empty, the code is written
    to it, and the block yields its name. A code point the encoding
    rejects makes [write] raise; the file, created with [delete=False],
    stays. *)
Definition stage (code : pystr) : M rpath :=
  f <- get_fs ;;
  match tmp_name h f with
  | inl errno => raise (Library Tempfile errno)
  | inr temp_file_path =>
      put_fs (<[temp_file_path := File []]> f) ;;;
      if forallb (encodable h) code
      then put_fs (<[temp_file_path := File code]> f) ;;; ret temp_file_path
      else raise UnicodeEncodeError
  end.

Definition execute_code (code : pystr) (working_dir : option string)
    : M result :=
  temp_file_path <- stage code ;;
  try_finally
    (python_path <- _get_python_path ;;
     let work_dir :=
       match truthy working_dir with
       | Some d => of_str d
       | None => abs_path workspace_root
       end in
     r <- subprocess_run h
            [rpath_str python_path; rpath_str temp_file_path]
            (Some (str work_dir)) false ;;
     ret {| stdout := c_stdout r;
            stderr := c_stderr r;
            exit_code := returncode r |})
    (os_unlink OsUnlink temp_file_path).

End WithHost.
End CodeExecutor.

(** ** server.py *)

Module PythonToolboxServer.

(** The tools [setup] registers: only [execute_python]; the other
    handlers are defined and not bound. *)
Definition registered_tools : list string := ["execute_python"].

Definition execute_python (h : host) (workspace_root : rpath)
    (code : pystr) : M CodeExecutor.result :=
  CodeExecutor.execute_code h workspace_root code None.

End PythonToolboxServer.

(** ** core/project_manager.py *)

(** A parsed TOML value, as [toml.load] returns it. *)
#[warnings="-register-all"]
Inductive toml : Type :=
  | TStr (s : string)
  | TInt (z : Z)
  | TBool (b : bool)
  | TArr (items : list toml)
  | TTable (entries : list (string * toml)).

(** Python dictionaries with string keys, in insertion order. *)
Fixpoint dict_get {V} (k : string) (d : list (string * V)) : option V :=
  match d with
  | [] => None
  | (k', v) :: r => if bool_decide (k = k') then Some v else dict_get k r
  end.

Fixpoint dict_set {V} (k : string) (v : V) (d : list (string * V))
    : list (string * V) :=
  match d with
  | [] => [(k, v)]
  | (k', v') :: r =>
      if bool_decide (k = k') then (k, v) :: r else (k', v') :: dict_set k v r
  end.

(** [t in s] on two strings. *)
Fixpoint infix_of {A} `{EqDecision A} (t s : list A) : bool :=
  startswith s t ||
  match s with
  | [] => false
  | _ :: s' => infix_of t s'
  end.

Definition is_tstr (key : string) (v : toml) : bool :=
  match v with
  | TStr s => bool_decide (s = key)
  | _ => false
  end.

(** [key in v]: a key test on a table, a substring test on a string,
    a membership test on an array, a [TypeError] on a scalar. *)
Definition py_in (key : string) (v : toml) : exn + bool :=
  match v with
  | TTable d => inr (bool_decide (is_Some (dict_get key d)))
  | TStr s => inr (infix_of (chars key) (chars s))
  | TArr l => inr (existsb (is_tstr key) l)
  | TInt _ | TBool _ => inl TypeError
  end.

(** [v[key]] with a string key. *)
Definition subscript (v : toml) (key : string) : exn + toml :=
  match v with
  | TTable d => match dict_get key d with
                | Some x => inr x
                | None => inl (KeyError key)
                end
  | _ => inl TypeError
  end.

(** The command line [prefix + deps]: [deps] must be a list, and
    [subprocess.run] accepts only strings in it. *)
Definition as_arguments (deps : toml) : exn + list string :=
  match deps with
  | TArr l =>
      match mapM (fun v => match v with TStr s => Some s | _ => None end) l with
      | Some args => inr args
      | None => inl TypeError
      end
  | _ => inl TypeError
  end.

(** [open(p).read()]. *)
Definition read_text (p : rpath) : M pystr :=
  f <- get_fs ;;
  match f !! p with
  | Some (File c) => ret c
  | Some _ => raise (Library Open EISDIR)
  | None => raise (Library Open ENOENT)
  end.

Module ProjectManager.
Section WithHost.
(** [toml_load text]: the document [toml.load] parses from [text], or the
    code of the error it raises. *)
Variables (h : host) (toml_load : pystr -> N + list (string * toml))
          (workspace_root : rpath).

Definition venv_path : rpath := workspace_root ++ [".venv"].

Definition _get_python_path : M rpath :=
  let python_path :=
    if bool_decide (os_name h = "nt")
    then venv_path ++ ["Scripts"; "python.exe"]
    else venv_path ++ ["bin"; "python"] in
  f <- get_fs ;;
  if negb (exists_ f python_path)
  then raise (FileNotFoundError
                ("Python executable not found in virtual environment: "
                 +:+ rpath_str python_path))
  else ret python_path.

Definition _install_from_pyproject (python_path pyproject_path : rpath)
    : M unit :=
  text <- read_text pyproject_path ;;
  pyproject <- lift (match toml_load text with
                     | inl d => inl (Library Toml d)
                     | inr doc => inr doc
                     end) ;;
  match dict_get "project" pyproject with
  | None => ret tt
  | Some project =>
      has_deps <- lift (py_in "dependencies" project) ;;
      if has_deps : bool then
        deps <- lift (subscript project "dependencies") ;;
        extra <- lift (as_arguments deps) ;;
        subprocess_run h
          ([rpath_str python_path; "-m"; "pip"; "install"] ++ extra)
          None true ;;;
        ret tt
      else ret tt
  end.

Definition install_dependencies (requirements_file : option string)
    : M unit :=
  python_path <- _get_python_path ;;
  let pip_install_r (req_path : Path) : M unit :=
    subprocess_run h
      [rpath_str python_path; "-m"; "pip"; "install"; "-r"; str req_path]
      None true ;;;
    ret tt in
  match truthy requirements_file with
  | Some rf => pip_install_r (of_str rf)
  | None =>
      let req_path := workspace_root ++ ["requirements.txt"] in
      let pyproject_path := workspace_root ++ ["pyproject.toml"] in
      f <- get_fs ;;
      if negb (exists_ f req_path) && exists_ f pyproject_path then
        _install_from_pyproject python_path pyproject_path
      else if negb (exists_ f req_path) then
        raise (FileNotFoundError "No requirements.txt or pyproject.toml found")
      else pip_install_r (abs_path req_path)
  end.

End WithHost.

(** An installed distribution: [metadata['Name']], [version], [requires]. *)
Record distribution := mkDist
  { d_name : string; d_version : string; d_requires : option (list string) }.

(** An entry of the list [check_dependency_conflicts] returns. *)
Record conflict := mkConflict
  { package : string; requires : string; installed : string }.

Section WithPackaging.
(** The [packaging] library: specifier sets and versions, the
    [Requirement] parser (its [name], [specifier] and [str]),
    [version.parse], [str] of a version and [SpecifierSet.contains]. A
    parser returns [None] where the library raises. *)
Variables (specifier pversion : Type).

Record requirement := mkRequirement
  { r_name : string; r_specifier : specifier; r_str : string }.

Variables (Requirement : string -> option requirement)
          (version_parse : string -> option pversion)
          (version_str : pversion -> string)
          (contains : specifier -> pversion -> bool).

(** [{dist.metadata['Name']: dist for dist in distributions()}]. *)
Definition installed_dict (dists : list distribution)
    : list (string * distribution) :=
  fold_left (fun d dist => dict_set (d_name dist) dist d) dists [].

(** The body of the inner loop, for one requirement string. *)
Definition check_requirement (inst : list (string * distribution))
    (pkg_name req_str : string) : exn + list conflict :=
  match Requirement req_str with
  | None => inl (Library Packaging 0)
  | Some req =>
      match dict_get (r_name req) inst with
      | None => inr []
      | Some target =>
          match version_parse (d_version target) with
          | None => inl (Library Packaging 1)
          | Some req_version =>
              if negb (contains (r_specifier req) req_version)
              then inr [ {| package := pkg_name;
                            requires := r_str req;
                            installed := version_str req_version |} ]
              else inr []
          end
      end
  end.

(** A loop that extends a list of conflicts, stopping at the first
    exception. *)
Fixpoint collect {X} (body : X -> exn + list conflict) (xs : list X)
    : exn + list conflict :=
  match xs with
  | [] => inr []
  | x :: r =>
      match body x with
      | inl e => inl e
      | inr cs => match collect body r with
                  | inl e => inl e
                  | inr cs' => inr (cs ++ cs')
                  end
      end
  end.

Definition check_dependency_conflicts (dists : list distribution)
    : exn + list conflict :=
  let inst := installed_dict dists in
  collect (fun '(pkg_name, dist) =>
             collect (check_requirement inst pkg_name)
                     (default [] (d_requires dist)))
          inst.

End WithPackaging.
End ProjectManager.

(** ** core/code_analyzer.py *)

Definition COLON : N := 58.

(** [str.isspace] on one code point. *)
Definition is_space (c : N) : bool :=
  ((9 <=? c) && (c <=? 13) || (28 <=? c) && (c <=? 32)
   || (c =? 0x85) || (c =? 0xA0) || (c =? 0x1680)
   || (0x2000 <=? c) && (c <=? 0x200A)
   || (c =? 0x2028) || (c =? 0x2029) || (c =? 0x202F)
   || (c =? 0x205F) || (c =? 0x3000))%N.

(** The line boundaries of [str.splitlines]. *)
Definition is_linebreak (c : N) : bool :=
  ((10 <=? c) && (c <=? 13) || (28 <=? c) && (c <=? 30)
   || (c =? 0x85) || (c =? 0x2028) || (c =? 0x2029))%N.

Fixpoint lstrip (s : pystr) : pystr :=
  match s with
  | c :: r => if is_space c then lstrip r else s
  | [] => []
  end.

(** [s.strip()]. *)
Definition strip (s : pystr) : pystr := rev (lstrip (rev (lstrip s))).

(** [s.splitlines()]; [cur] is the current line, reversed. A carriage
    return followed by a line feed is one boundary. *)
Fixpoint splitlines_from (cur s : pystr) : list pystr :=
  match s with
  | [] => match cur with
          | [] => []
          | _ => [rev cur]
          end
  | c :: r =>
      if is_linebreak c then
        rev cur ::
        match r with
        | c' :: r' =>
            if ((c =? 13) && (c' =? 10))%N then splitlines_from [] r'
            else splitlines_from [] r
        | [] => []
        end
      else splitlines_from (c :: cur) r
  end.

Definition splitlines (s : pystr) : list pystr := splitlines_from [] s.

Module CodeAnalyzer.

(** An entry of the list [lint_code] returns. *)
Record issue := mkIssue
  { path : pystr; line : pystr; type : pystr; message : pystr }.

(** What [black.format_str] does with a piece of code: it returns the
    formatted text, or raises [black.InvalidInput], another [ValueError],
    or some other exception. *)
Inductive black_outcome : Type :=
  | Formatted (text : pystr)
  | InvalidInput
  | OtherValueError
  | BlackFailure (detail : N).

Section WithTools.
(** The external tools: [black.format_str(code, mode=FileMode())],
    [autopep8.fix_code] and the text report [pylint] writes for a path. *)
Variables (black_format_str : pystr -> black_outcome)
          (autopep8_fix_code : pystr -> pystr)
          (pylint_report : string -> pystr).

Definition format_code (code : pystr) (style : string) : exn + pystr :=
  if bool_decide (style = "black") then
    match black_format_str code with
    | Formatted formatted => inr formatted
    | InvalidInput | OtherValueError => inr code
    | BlackFailure d => inl (Library Black d)
    end
  else if bool_decide (style = "pep8") then inr (autopep8_fix_code code)
  else inl (ValueError ("Unsupported style: " +:+ style)).

(** The body of the loop over the report's lines. *)
Definition parse_line (l : pystr) : list issue :=
  if bool_decide (COLON ∈ l) then
    let parts := split COLON l in
    if bool_decide (3 <= length parts) then
      [ {| path := nth 0 parts [];
           line := nth 1 parts [];
           type := nth 2 parts [];
           message := strip (join COLON (drop 3 parts)) |} ]
    else []
  else [].

Definition lint_code (file_path : string) : list issue :=
  let pylint_output := pylint_report (str (of_str file_path)) in
  concat (parse_line <$> splitlines pylint_output).

End WithTools.
End CodeAnalyzer.

(** ** Vocabulary of the properties *)

(** A resolved path lies inside the root when the root's components are a
    prefix of its components. *)
Definition inside (root p : rpath) : bool := startswith p root.

(** Where [_get_python_path] looks, by platform. *)
Definition python_location (h : host) (root : rpath) : rpath :=
  if bool_decide (os_name h = "nt")
  then CodeExecutor.venv_path root ++ ["Scripts"; "python.exe"]
  else CodeExecutor.venv_path root ++ ["bin"; "python"].

(** The working directory and the command line of the child. *)
Definition effective_cwd (root : rpath) (wd : option string) : string :=
  str match truthy wd with
      | Some d => of_str d
      | None => abs_path root
      end.

Definition child_command (h : host) (root p : rpath) : list string :=
  [rpath_str (python_location h root); rpath_str p].

(** The text after the [n]-th colon of a line, if it has that many. *)
Fixpoint after_colons (n : nat) (l : pystr) : option pystr :=
  match n with
  | O => Some l
  | S n' =>
      match l with
      | [] => None
      | c :: r => if bool_decide (c = COLON) then after_colons n' r
                  else after_colons n r
      end
  end.

(** Formatting the outcome of a previous call, if it returned. *)
Definition format_again (black : pystr -> CodeAnalyzer.black_outcome)
    (autopep8 : pystr -> pystr) (r : exn + pystr) (style : string)
    : exn + pystr :=
  match r with
  | inl e => inl e
  | inr code => CodeAnalyzer.format_code black autopep8 code style
  end.

(** [python -m pip install args], with [check=True]. *)
Definition pip_install (h : host) (python : rpath) (args : list string)
    : M unit :=
  subprocess_run h ([rpath_str python; "-m"; "pip"; "install"] ++ args)
    None true ;;;
  ret tt.

(** The metadata the conflict check reads is well formed: every declared
    requirement string parses, and so does the version of every installed
    distribution a requirement names. *)
Definition metadata_well_formed {specifier pversion : Type}
    (Requirement : string -> option (ProjectManager.requirement specifier))
    (version_parse : string -> option pversion)
    (dists : list ProjectManager.distribution) : Prop :=
  forall pkg_name dist req_str,
    (pkg_name, dist) ∈ ProjectManager.installed_dict dists ->
    req_str ∈ default [] (ProjectManager.d_requires dist) ->
    exists req,
      Requirement req_str = Some req
      /\ forall target,
          dict_get (ProjectManager.r_name specifier req)
            (ProjectManager.installed_dict dists) = Some target ->
          is_Some (version_parse (ProjectManager.d_version target)).



(** ** Sample hosts and worlds

    Concrete platforms on which the model is run. *)

(** ASCII text as code points. *)
Definition u (s : string) : pystr := N_of_ascii <$> chars s.

(** UTF-8 encodes every scalar value and no surrogate. *)
Definition utf8_encodable (c : N) : bool :=
  (negb ((0xD800 <=? c) && (c <=? 0xDFFF)) && (c <=? 0x10FFFF))%N.

Definition sample_tmp : rpath := ["tmp"; "tmpk3v9x1.py"].

(** A child that prints nothing, touches nothing and exits with [rc]. *)
Definition exit_child (rc : Z) (args : list string) (dir : option string)
    (f : filesystem) : filesystem * (N + completed) :=
  (f, inr (mkCompleted [] [] rc)).


Definition posix_host (rc : Z) : host :=
  mkHost "posix" (fun _ => inr sample_tmp) utf8_encodable (exit_child rc).


(** A workspace [/ws] without and with a virtual environment. *)
Definition bare_world : world :=
  mkWorld (<[ ["ws"] := Dir ]> (<[ ["tmp"] := Dir ]> ∅)) [].

Definition venv_world : world :=
  mkWorld (<[ ["ws"; ".venv"; "bin"; "python"] := File [] ]> (fs bare_world))
          [].

(** A workspace with a directory [src] and a file [notes.txt]. *)
Definition tree_world : world :=
  mkWorld (<[ ["ws"; "src"] := Dir ]>
             (<[ ["ws"; "notes.txt"] := File (u "todo") ]> (fs bare_world)))
          [].

(** A workspace with a virtual environment and a [requirements.txt], and
    one with a virtual environment and an empty [pyproject.toml]. *)
Definition requirements_world : world :=
  mkWorld (<[ ["ws"; "requirements.txt"] := File (u "requests") ]>
             (fs venv_world))
          [].

Definition manifest_world : world :=
  mkWorld (<[ ["ws"; "pyproject.toml"] := File [] ]> (fs venv_world)) [].

(** A TOML loader that knows one document: the empty text, which is the
    empty table. *)
Definition toml_of_empty (text : pystr) : N + list (string * toml) :=
  match text with
  | [] => inr []
  | _ => inl 0%N
  end.

(** A formatter that rejects text holding a NUL and ends every other text
    with a line feed. *)
Definition ends_with_newline (code : pystr) : bool :=
  match rev code with
  | c :: _ => (c =? 10)%N
  | [] => true
  end.

Definition toy_black (code : pystr) : CodeAnalyzer.black_outcome :=
  if existsb (N.eqb 0) code then CodeAnalyzer.InvalidInput
  else if ends_with_newline code then CodeAnalyzer.Formatted code
  else CodeAnalyzer.Formatted (code ++ [10%N]).

(** A stand-in for [packaging], for requirement strings of the forms
    [NAME] and [NAME OP VERSION] with release-only versions (dotted
    numbers, compared with missing components read as zero). *)
Module MiniPackaging.

Inductive cmp_op : Type := OpGe | OpLe | OpEq | OpNe | OpGt | OpLt.

Definition op_str (o : cmp_op) : string :=
  match o with
  | OpGe => ">=" | OpLe => "<=" | OpEq => "==" | OpNe => "!="
  | OpGt => ">" | OpLt => "<"
  end.

Definition digit (c : ascii) : option N :=
  let n := N_of_ascii c in
  if ((48 <=? n) && (n <=? 57))%N then Some (n - 48)%N else None.

Definition number (s : string) : option N :=
  match chars s with
  | [] => None
  | cs => foldl (fun acc c =>
                   match acc, digit c with
                   | Some a, Some d => Some (10 * a + d)%N
                   | _, _ => None
                   end) (Some 0%N) cs
  end.

Definition version_parse (s : string) : option (list N) :=
  mapM number (str_split "."%char s).

Definition version_str (v : list N) : string :=
  str_join "."%char (pretty <$> v).

Fixpoint lex (a b : list N) : comparison :=
  match a, b with
  | x :: a', y :: b' =>
      match (x ?= y)%N with
      | Eq => lex a' b'
      | c => c
      end
  | _, _ => Eq
  end.

Definition pad (n : nat) (v : list N) : list N :=
  v ++ replicate (n - length v) 0%N.

Definition release_compare (a b : list N) : comparison :=
  let n := max (length a) (length b) in lex (pad n a) (pad n b).

Definition specifier : Type := option (cmp_op * list N).

Definition contains (s : specifier) (v : list N) : bool :=
  match s with
  | None => true
  | Some (o, bound) =>
      match o, release_compare v bound with
      | OpGe, Lt | OpLe, Gt | OpEq, Lt | OpEq, Gt | OpNe, Eq
      | OpGt, Eq | OpGt, Lt | OpLt, Eq | OpLt, Gt => false
      | _, _ => true
      end
  end.

Definition is_name_char (c : ascii) : bool :=
  let n := N_of_ascii c in
  ((48 <=? n) && (n <=? 57) || (65 <=? n) && (n <=? 90)
   || (97 <=? n) && (n <=? 122) || (n =? 45) || (n =? 46) || (n =? 95))%N.

Fixpoint span (keep : ascii -> bool) (l : list ascii)
    : list ascii * list ascii :=
  match l with
  | c :: r => if keep c then let '(a, b) := span keep r in (c :: a, b)
              else ([], l)
  | [] => ([], [])
  end.

Definition parse_op (l : list ascii) : option (cmp_op * list ascii) :=
  match l with
  | ">" :: "=" :: r => Some (OpGe, r)
  | "<" :: "=" :: r => Some (OpLe, r)
  | "=" :: "=" :: r => Some (OpEq, r)
  | "!" :: "=" :: r => Some (OpNe, r)
  | ">" :: r => Some (OpGt, r)
  | "<" :: r => Some (OpLt, r)
  | _ => None
  end%char.

Definition Requirement (s : string)
    : option (ProjectManager.requirement specifier) :=
  let '(name, rest) := span is_name_char (chars s) in
  let rest := List.filter (fun c => negb (bool_decide (c = " "%char))) rest in
  match name, rest with
  | [], _ => None
  | _, [] => Some (ProjectManager.mkRequirement specifier
                     (unchars name) None (unchars name))
  | _, _ =>
      match parse_op rest with
      | None => None
      | Some (o, vtext) =>
          match version_parse (unchars vtext) with
          | None => None
          | Some v => Some (ProjectManager.mkRequirement specifier
                              (unchars name) (Some (o, v))
                              (unchars name +:+ op_str o +:+ unchars vtext))
          end
      end
  end.

(** [check_dependency_conflicts] over this stand-in. *)
Definition check_dependency_conflicts
    : list ProjectManager.distribution -> exn + list ProjectManager.conflict :=
  ProjectManager.check_dependency_conflicts specifier (list N)
    Requirement version_parse version_str contains.

End MiniPackaging.

(** The installed set of the specification's example: [A] at 1.0, and [B]
    which requires [A>=2.0]. *)
Definition example_distributions : list ProjectManager.distribution :=
  [ ProjectManager.mkDist "A" "1.0" None;
    ProjectManager.mkDist "B" "0.3" (Some ["A>=2.0"]) ].


(* ================================================================== *)
(** * The other operations *)
(* ================================================================== *)

(** ** Text files *)

Definition LF : N := 10.
Definition CR : N := 13.

(** What a text-mode reader (universal newlines) makes of the text of a
    file: a carriage return, alone or followed by a line feed, is read as
    one line feed. *)
Fixpoint universal_newlines (s : pystr) : pystr :=
  match s with
  | [] => []
  | c :: r =>
      if (c =? CR)%N then
        LF :: match r with
              | c' :: r' => if (c' =? LF)%N then universal_newlines r'
                            else universal_newlines r
              | [] => []
              end
      else c :: universal_newlines r
  end.

(** The detail of the [UnicodeDecodeError] that reading a file which is
    not UTF-8 text raises (no errno is 0). *)
Definition UNDECODABLE : N := 0.

(** The lines of a text that was read, each with its line feed; [cur] is
    the current line, reversed. *)
Fixpoint lines_from (cur s : pystr) : list pystr :=
  match s with
  | [] => match cur with
          | [] => []
          | _ => [rev cur]
          end
  | c :: r =>
      if (c =? LF)%N then rev (c :: cur) :: lines_from [] r
      else lines_from (c :: cur) r
  end.

(** [f.readlines()] on a file opened in mode ['r']. *)
Definition readlines (content : pystr) : list pystr :=
  lines_from [] (universal_newlines content).

(** A slice bound: a negative index counts from the end, and the result
    is clamped to the list. *)
Definition slice_bound (n : nat) (i : Z) : nat :=
  Z.to_nat (Z.max 0 (Z.min (if (i <? 0)%Z then i + Z.of_nat n else i)
                           (Z.of_nat n))).

(** [l[start:stop]]. *)
Definition py_slice {A} (l : list A) (start stop : Z) : list A :=
  let a := slice_bound (length l) start in
  let b := slice_bound (length l) stop in
  take (b - a) (drop a l).

(** ** Directories *)

Definition EEXIST : N := 17.
Definition ENOTDIR : N := 20.

(** The node at a path; the root directory [/] always exists. *)
Definition node_at (f : filesystem) (p : rpath) : option node :=
  match p with
  | [] => Some Dir
  | _ => f !! p
  end.

Definition is_dir (f : filesystem) (p : rpath) : bool :=
  match node_at f p with
  | Some Dir => true
  | _ => false
  end.

(** [p.parent]. *)
Definition parent (p : rpath) : rpath := removelast p.

(** [os.mkdir(p)]: the parent is looked up first, then the name. *)
Definition os_mkdir (p : rpath) (f : filesystem) : N + filesystem :=
  match p with
  | [] => inl EEXIST
  | _ =>
      match node_at f (parent p) with
      | None => inl ENOENT
      | Some Dir =>
          match f !! p with
          | Some _ => inl EEXIST
          | None => inr (<[p := Dir]> f)
          end
      | Some _ => inl ENOTDIR
      end
  end.

(** The last step of [os.makedirs(p, exist_ok=True)]: [mkdir], whose
    failure is ignored when [p] is a directory. *)
Definition mkdir_exist_ok (p : rpath) (f : filesystem)
    : filesystem * option N :=
  match os_mkdir p f with
  | inr f' => (f', None)
  | inl errno => if is_dir f p then (f, None) else (f, Some errno)
  end.

(** [os.makedirs(p, exist_ok=True)], on the components of [p] in reverse:
    the missing ancestors are made first (a [FileExistsError] from there
    is passed over), then the directory itself. The result is the file
    system left behind and the errno of the [OSError] raised, if any. *)
Fixpoint makedirs_rev (rp : list string) (f : filesystem)
    : filesystem * option N :=
  match rp with
  | [] => mkdir_exist_ok [] f
  | _ :: rhead =>
      if negb (bool_decide (is_Some (node_at f (rev rhead)))) then
        match makedirs_rev rhead f with
        | (f1, None) => mkdir_exist_ok (rev rp) f1
        | (f1, Some errno) =>
            if (errno =? EEXIST)%N then mkdir_exist_ok (rev rp) f1
            else (f1, Some errno)
        end
      else mkdir_exist_ok (rev rp) f
  end.

Definition makedirs (p : rpath) (f : filesystem) : filesystem * option N :=
  makedirs_rev (rev p) f.

(** Exceptions of the operations below: those of [exn], the
    [NotADirectoryError] that [list_directory] builds, and the [OSError]
    of [os.makedirs] and of [stat]. *)
Inductive fexn : Type :=
  | Exn (e : exn)
  | NotADirectoryError (msg : string)
  | MakedirsError (errno : N)
  | StatError (errno : N).

(** ** core/file_operations.py: the other methods *)

Module FileOps.

(** [FileOperations(workspace_root)]: the root the object keeps, for a
    process whose current directory is [process_cwd]. *)
Definition __init__ (process_cwd : rpath) (workspace_root : string)
    : M rpath :=
  let root := resolve process_cwd (of_str workspace_root) in
  f <- get_fs ;;
  if negb (bool_decide (is_Some (node_at f (parts root))))
  then raise (ValueError ("Workspace root does not exist: " +:+ str root))
  else ret (parts root).

Section WithRoot.
(** [open_other mode p content f]: what [open(p, mode, encoding='utf-8')]
    followed by [write(content)] does for a mode other than ['w'] and
    ['a'], or on a special file. *)
Variables (workspace_root process_cwd : rpath)
          (open_other : string -> rpath -> pystr -> filesystem ->
                        filesystem * (exn + unit)).

(** The file is opened with [encoding='utf-8'], and [f.read()] and
    [f.readlines()] both decode all of it. A file is stored as the text
    its bytes stand for; a code point that UTF-8 cannot encode (a lone
    surrogate, as in the [surrogateescape] convention) stands for bytes
    that do not decode, and reading such a file raises
    [UnicodeDecodeError]. *)
Definition read_file (path : string) (start_line end_line : option Z)
    : M pystr :=
  file_path <- lift (FileOperations._validate_path workspace_root
                       process_cwd path) ;;
  f <- get_fs ;;
  if negb (is_file f file_path)
  then raise (FileNotFoundError ("File not found: " +:+ path))
  else
    content <- read_text file_path ;;
    if negb (forallb utf8_encodable content)
    then raise (Library Open UNDECODABLE)
    else
      match start_line, end_line with
      | None, None => ret (universal_newlines content)
      | _, _ =>
          let lines := readlines content in
          let start_idx :=
            match start_line with
            | Some s => if (s =? 0)%Z then 0%Z else (s - 1)%Z
            | None => 0%Z
            end in
          let end_idx :=
            match end_line with
            | Some e => if (e =? 0)%Z then Z.of_nat (length lines) else e
            | None => Z.of_nat (length lines)
            end in
          ret (concat (py_slice lines start_idx end_idx))
      end.

(** [with open(file_path, mode, encoding='utf-8') as f: f.write(content)]:
    mode ['w'] creates or empties the file, mode ['a'] creates or keeps
    it, and then the text is written if UTF-8 can encode it. *)
Definition open_and_write (file_path : rpath) (content : pystr)
    (mode : string) (f : filesystem) : filesystem * (exn + unit) :=
  match node_at f file_path with
  | Some Dir => (f, inl (Library Open EISDIR))
  | Some Special => open_other mode file_path content f
  | existing =>
      let old := match existing with
                 | Some (File c) => c
                 | _ => []
                 end in
      if bool_decide (mode = "w") then
        if forallb utf8_encodable content
        then (<[file_path := File content]> f, inr tt)
        else (<[file_path := File []]> f, inl UnicodeEncodeError)
      else if bool_decide (mode = "a") then
        if forallb utf8_encodable content
        then (<[file_path := File (old ++ content)]> f, inr tt)
        else (<[file_path := File old]> f, inl UnicodeEncodeError)
      else open_other mode file_path content f
  end.

Definition write_file (path : string) (content : pystr) (mode : string)
    (w : world) : world * (fexn + unit) :=
  match FileOperations._validate_path workspace_root process_cwd path with
  | inl e => (w, inl (Exn e))
  | inr file_path =>
      match makedirs (parent file_path) (fs w) with
      | (f1, Some errno) =>
          (mkWorld f1 (spawned w), inl (MakedirsError errno))
      | (f1, None) =>
          match open_and_write file_path content mode f1 with
          | (f2, inl e) => (mkWorld f2 (spawned w), inl (Exn e))
          | (f2, inr _) => (mkWorld f2 (spawned w), inr tt)
          end
      end
  end.

Definition create_directory (path : string) (w : world)
    : world * (fexn + unit) :=
  match FileOperations._validate_path workspace_root process_cwd path with
  | inl e => (w, inl (Exn e))
  | inr dir_path =>
      match makedirs dir_path (fs w) with
      | (f1, Some errno) =>
          (mkWorld f1 (spawned w), inl (MakedirsError errno))
      | (f1, None) => (mkWorld f1 (spawned w), inr tt)
      end
  end.

End WithRoot.

(** An entry of the list [list_directory] returns; [mtime] is the type of
    time stamps. *)
Record entry (mtime : Type) := mkEntry
  { e_name : string; e_type : string; e_size : N; e_modified : mtime;
    e_path : string }.
Arguments mkEntry {mtime}.

Section Listing.
(** [os_listdir f p]: the names [p.iterdir()] yields in file system [f],
    in its order; [os_stat f p]: the size and the modification time
    [p.stat()] reports, or the errno it fails with; [not_relative p q]:
    the message of the [ValueError] of [p.relative_to(q)]. *)
Variables (workspace_root process_cwd : rpath) (mtime : Type)
          (os_listdir : filesystem -> rpath -> list string)
          (os_stat : filesystem -> rpath -> N + (N * mtime))
          (not_relative : rpath -> rpath -> string).

(** [p.relative_to(other)] on two resolved absolute paths. *)
Definition relative_to (p other : rpath) : exn + Path :=
  if startswith p other
  then inr {| anchor := ""; parts := drop (length other) p |}
  else inl (ValueError (not_relative p other)).

(** The body of the loop, for the entry named [item_name]. *)
Definition describe (f : filesystem) (dir_path : rpath)
    (item_name : string) : fexn + entry mtime :=
  let item := dir_path ++ [item_name] in
  match os_stat f item with
  | inl errno => inl (StatError errno)
  | inr (st_size, st_mtime) =>
      match relative_to item workspace_root with
      | inl e => inl (Exn e)
      | inr relative =>
          inr {| e_name := item_name;
                 e_type := if is_file f item then "file" else "directory";
                 e_size := st_size;
                 e_modified := st_mtime;
                 e_path := str relative |}
      end
  end.

(** The loop: the entries in the order of the listing, up to the first
    exception. *)
Fixpoint describe_all (f : filesystem) (dir_path : rpath)
    (names : list string) : fexn + list (entry mtime) :=
  match names with
  | [] => inr []
  | item_name :: rest =>
      match describe f dir_path item_name with
      | inl e => inl e
      | inr x =>
          match describe_all f dir_path rest with
          | inl e => inl e
          | inr xs => inr (x :: xs)
          end
      end
  end.

Definition list_directory (path : string) (w : world)
    : world * (fexn + list (entry mtime)) :=
  match FileOperations._validate_path workspace_root process_cwd path with
  | inl e => (w, inl (Exn e))
  | inr dir_path =>
      if negb (is_dir (fs w) dir_path)
      then (w, inl (NotADirectoryError ("Not a directory: " +:+ path)))
      else (w, describe_all (fs w) dir_path (os_listdir (fs w) dir_path))
  end.

End Listing.
End FileOps.

(** ** core/project_manager.py: the other methods *)

Module ProjectOps.

(** An entry of the list [get_installed_packages] returns. *)
Record package := mkPackage { name : string; version : string }.

(** [get_installed_packages], on the list [distributions()] yields. *)
Definition get_installed_packages
    (dists : list ProjectManager.distribution) : list package :=
  (fun dist => {| name := ProjectManager.d_name dist;
                  version := ProjectManager.d_version dist |}) <$> dists.

Section WithHost.
Variables (h : host) (workspace_root : rpath).

Definition update_package (package_name : string)
    (version : option string) : M unit :=
  python_path <- ProjectManager._get_python_path h workspace_root ;;
  let cmd := [rpath_str python_path; "-m"; "pip"; "install"; "--upgrade"] in
  let cmd := match truthy version with
             | Some v => cmd ++ [package_name +:+ "==" +:+ v]
             | None => cmd ++ [package_name]
             end in
  subprocess_run h cmd None true ;;;
  ret tt.

End WithHost.
End ProjectOps.

(** The argument [update_package] hands to [pip install --upgrade]. *)
Definition upgrade_target (package_name : string) (version : option string)
    : string :=
  match truthy version with
  | Some v => package_name +:+ "==" +:+ v
  | None => package_name
  end.

(** ** core/code_analyzer.py: the syntax tree *)

Module AnalyzerOps.

(** Expressions, as far as the analyzer tells them apart: names,
    attribute accesses, calls, and every other expression. *)
#[warnings="-register-all"]
Inductive expr : Type :=
  | Name (id : string)
  | Attribute (value : expr) (attr : string)
  | Call (func : expr) (args : list expr)
  | OtherExpr (tag : N).

(** [ast.alias]: one name of an import statement. *)
Record alias := mkAlias { a_name : string; asname : option string }.

(** The nodes that are or hold statements. [args] lists [arg.arg] for
    [arg] in [node.args.args]. [OtherNode] is any other node (a module, a
    conditional, a loop, an [async def], an exception handler, ...) with
    those of its children that are or hold statements, in the order of
    its fields. Expressions hold no statement and match no branch of the
    analyzer; the tree leaves them out as nodes. *)
#[warnings="-register-all"]
Inductive ast_node : Type :=
  | Import (names : list alias)
  | ImportFrom (module : option string) (names : list alias)
  | FunctionDef (name : string) (args : list string) (body : list ast_node)
                (decorator_list : list expr)
  | ClassDef (name : string) (bases : list expr) (body : list ast_node)
  | Assign (targets : list expr)
  | OtherNode (tag : N) (children : list ast_node).

(** [ast.iter_child_nodes]. *)
Definition iter_child_nodes (n : ast_node) : list ast_node :=
  match n with
  | FunctionDef _ _ body _ => body
  | ClassDef _ _ body => body
  | OtherNode _ children => children
  | _ => []
  end.

(** [ast.walk]: a queue that starts with the tree; the node at its front
    is yielded and its children join the end. [fuel] bounds the number of
    nodes yielded. *)
Fixpoint walk_from (fuel : nat) (todo : list ast_node) : list ast_node :=
  match fuel, todo with
  | S fuel', n :: rest => n :: walk_from fuel' (rest ++ iter_child_nodes n)
  | _, _ => []
  end.

(** The number of nodes of a tree. *)
Fixpoint size (n : ast_node) : nat :=
  S (match n with
     | FunctionDef _ _ body _ => foldr (fun x acc => size x + acc) 0 body
     | ClassDef _ _ body => foldr (fun x acc => size x + acc) 0 body
     | OtherNode _ children => foldr (fun x acc => size x + acc) 0 children
     | _ => 0
     end).

Definition walk (tree : ast_node) : list ast_node :=
  walk_from (size tree) [tree].

(** The entries of the four lists of a [CodeAnalysis]. *)
Record import_entry := mkImport
  { i_name : string; i_alias : option string }.
Record function_entry := mkFunction
  { f_name : string; f_args : list string; f_decorators : list string;
    f_docstring : option pystr }.
Record class_entry := mkClass
  { c_name : string; c_bases : list string; c_methods : list string;
    c_docstring : option pystr }.
Record analysis := mkAnalysis
  { imports : list import_entry;
    functions : list function_entry;
    classes : list class_entry;
    global_variables : list string }.

Definition is_name (e : expr) : bool :=
  match e with
  | Name _ => true
  | _ => false
  end.

Section WithAst.
(** [expr_str e]: [str(e)], the default text of a node object;
    [get_docstring n]: [ast.get_docstring(n)]. *)
Variables (expr_str : expr -> string)
          (get_docstring : ast_node -> option pystr).

Fixpoint _get_decorator_name (node : expr) : string :=
  match node with
  | Name id => id
  | Call func _ =>
      match func with
      | Name id => id
      | Attribute value attr => _get_decorator_name value +:+ "." +:+ attr
      | _ => expr_str node
      end
  | Attribute value attr => _get_decorator_name value +:+ "." +:+ attr
  | _ => expr_str node
  end.

Fixpoint _get_base_name (node : expr) : string :=
  match node with
  | Name id => id
  | Attribute value attr => _get_base_name value +:+ "." +:+ attr
  | _ => expr_str node
  end.

(** The body of the loop over the nodes. *)
Definition visit (a : analysis) (n : ast_node) : analysis :=
  match n with
  | Import names =>
      mkAnalysis
        (imports a ++ ((fun al => mkImport (a_name al) (asname al)) <$> names))
        (functions a) (classes a) (global_variables a)
  | ImportFrom module names =>
      mkAnalysis
        (imports a
         ++ ((fun al => mkImport (default "None" module +:+ "." +:+ a_name al)
                          (asname al)) <$> names))
        (functions a) (classes a) (global_variables a)
  | FunctionDef name args _ decorator_list =>
      mkAnalysis (imports a)
        (functions a
         ++ [mkFunction name args (_get_decorator_name <$> decorator_list)
               (get_docstring n)])
        (classes a) (global_variables a)
  | ClassDef name bases body =>
      mkAnalysis (imports a) (functions a)
        (classes a
         ++ [mkClass name (_get_base_name <$> bases)
               (omap (fun m => match m with
                               | FunctionDef mname _ _ _ => Some mname
                               | _ => None
                               end) body)
               (get_docstring n)])
        (global_variables a)
  | Assign targets =>
      if forallb is_name targets then
        mkAnalysis (imports a) (functions a) (classes a)
          (global_variables a
           ++ omap (fun t => match t with
                             | Name id => Some id
                             | _ => None
                             end) targets)
      else a
  | OtherNode _ _ => a
  end.

Definition _analyze_ast (tree : ast_node) : analysis :=
  fold_left visit (walk tree) (mkAnalysis [] [] [] []).

End WithAst.
End AnalyzerOps.

(** A component of a resolved path: not empty, not [.] or [..], and
    without a slash. *)
Definition clean_part (c : string) : bool :=
  negb (bool_decide (c = "")) && negb (bool_decide (c = "."))
  && negb (bool_decide (c = ".."))
  && negb (bool_decide ("/"%char ∈ chars c)).

(** A file system is a tree when every entry lies in a directory. *)
Definition is_tree (f : filesystem) : Prop :=
  forall p x, f !! p = Some x -> p <> [] /\ is_dir f (parent p) = true.

(** ** More sample worlds *)

(** A workspace with a three-line file [log.txt], whose first line ends
    with a carriage return and a line feed, and whose last line has no
    line end. *)
Definition log_text : pystr := u "ab" ++ [CR; LF] ++ u "cd" ++ [LF] ++ u "ef".

Definition log_world : world :=
  mkWorld (<[ ["ws"; "log.txt"] := File log_text ]> (fs tree_world)) [].

(** The sample tree after [create_directory("a/b")]. *)
Definition made_world : world :=
  mkWorld (<[ ["ws"; "a"; "b"] := Dir ]>
             (<[ ["ws"; "a"] := Dir ]> (fs tree_world)))
          [].

(** A mode other than ['w'] and ['a'] is not used by the samples. *)
Definition no_other_mode (mode : string) (p : rpath) (content : pystr)
    (f : filesystem) : filesystem * (exn + unit) :=
  (f, inl (ValueError "mode")).

(** The sample tree after [write_file("out/new.txt", "hi")], and after
    ["!"] was appended to that file. *)
Definition written_world : world :=
  mkWorld (<[ ["ws"; "out"; "new.txt"] := File (u "hi") ]>
             (<[ ["ws"; "out"] := Dir ]> (fs tree_world)))
          [].

Definition appended_world : world :=
  mkWorld (<[ ["ws"; "out"; "new.txt"] := File (u "hi!") ]>
             (<[ ["ws"; "out"] := Dir ]> (fs tree_world)))
          [].

(** The number of colons of a line. *)
Definition colons (l : pystr) : nat := length (filter (fun c => c = COLON) l).

(** The dotted name [id.a1.a2...] as an expression. *)
Definition dotted (id : string) (attrs : list string) : AnalyzerOps.expr :=
  fold_left AnalyzerOps.Attribute attrs (AnalyzerOps.Name id).

(** An expression without the argument lists of its calls. *)
Fixpoint erase_calls (e : AnalyzerOps.expr) : AnalyzerOps.expr :=
  match e with
  | AnalyzerOps.Attribute value attr =>
      AnalyzerOps.Attribute (erase_calls value) attr
  | AnalyzerOps.Call func _ => erase_calls func
  | _ => e
  end.

(** A decorator made of names, attribute accesses and calls of names and
    of attributes. *)
Fixpoint named_decorator (e : AnalyzerOps.expr) : bool :=
  match e with
  | AnalyzerOps.Name _ => true
  | AnalyzerOps.Attribute value _ => named_decorator value
  | AnalyzerOps.Call func _ =>
      match func with
      | AnalyzerOps.Name _ => true
      | AnalyzerOps.Attribute value _ => named_decorator value
      | _ => false
      end
  | AnalyzerOps.OtherExpr _ => false
  end.

(** The number of nodes of the trees of a list. *)
Definition sizes (l : list AnalyzerOps.ast_node) : nat :=
  foldr (fun x acc => AnalyzerOps.size x + acc) 0 l.

(** All nodes of a tree, parents before children. *)
Fixpoint all_nodes (n : AnalyzerOps.ast_node) : list AnalyzerOps.ast_node :=
  n :: match n with
       | AnalyzerOps.FunctionDef _ _ body _ => flat_map all_nodes body
       | AnalyzerOps.ClassDef _ _ body => flat_map all_nodes body
       | AnalyzerOps.OtherNode _ children => flat_map all_nodes children
       | _ => []
       end.

(** What one node adds to each list of the analysis. *)
Definition imports_of (n : AnalyzerOps.ast_node)
    : list AnalyzerOps.import_entry :=
  match n with
  | AnalyzerOps.Import names =>
      (fun al => AnalyzerOps.mkImport (AnalyzerOps.a_name al)
                   (AnalyzerOps.asname al)) <$> names
  | AnalyzerOps.ImportFrom module names =>
      (fun al => AnalyzerOps.mkImport
                   (default "None" module +:+ "." +:+ AnalyzerOps.a_name al)
                   (AnalyzerOps.asname al)) <$> names
  | _ => []
  end.

Definition functions_of (expr_str : AnalyzerOps.expr -> string)
    (get_docstring : AnalyzerOps.ast_node -> option pystr)
    (n : AnalyzerOps.ast_node) : list AnalyzerOps.function_entry :=
  match n with
  | AnalyzerOps.FunctionDef name args _ decorator_list =>
      [AnalyzerOps.mkFunction name args
         (AnalyzerOps._get_decorator_name expr_str <$> decorator_list)
         (get_docstring n)]
  | _ => []
  end.

Definition method_names (body : list AnalyzerOps.ast_node) : list string :=
  omap (fun m => match m with
                 | AnalyzerOps.FunctionDef mname _ _ _ => Some mname
                 | _ => None
                 end) body.

Definition classes_of (expr_str : AnalyzerOps.expr -> string)
    (get_docstring : AnalyzerOps.ast_node -> option pystr)
    (n : AnalyzerOps.ast_node) : list AnalyzerOps.class_entry :=
  match n with
  | AnalyzerOps.ClassDef name bases body =>
      [AnalyzerOps.mkClass name (AnalyzerOps._get_base_name expr_str <$> bases)
         (method_names body) (get_docstring n)]
  | _ => []
  end.

Definition variables_of (n : AnalyzerOps.ast_node) : list string :=
  match n with
  | AnalyzerOps.Assign targets =>
      if forallb AnalyzerOps.is_name targets
      then omap (fun t => match t with
                          | AnalyzerOps.Name id => Some id
                          | _ => None
                          end) targets
      else []
  | _ => []
  end.

(** A listing in a fixed order, sizes in characters and one time stamp,
    for the sample tree. *)
Definition sample_listdir (f : filesystem) (p : rpath) : list string :=
  if bool_decide (p = ["ws"]) then ["notes.txt"; "src"]
  else if bool_decide (p = ["ws2"]) then ["secret"]
  else [].

Definition sample_stat (f : filesystem) (p : rpath) : N + (N * N) :=
  match f !! p with
  | Some (File c) => inr (N.of_nat (length c), 1700000000%N)
  | Some _ => inr (4096%N, 1700000000%N)
  | None => inl ENOENT
  end.

Definition sample_not_relative (p other : rpath) : string :=
  rpath_str p +:+ " is not in the subpath of " +:+ rpath_str other.

(** The sample tree with a sibling directory [/ws2] of the root, which
    holds a file. *)
Definition sibling_world : world :=
  mkWorld (<[ ["ws2"; "secret"] := File (u "key") ]>
             (<[ ["ws2"] := Dir ]> (fs tree_world)))
          [].

(* ================================================================== *)
(** * Properties *)
(* ================================================================== *)

(** Closed decidable goals are settled by running their decision
    procedure. *)
Ltac by_computation :=
  match goal with
  | |- ?P => apply (bool_decide_unpack P); vm_compute; exact I
  end.

(** ** Sequence lemmas *)

Section SequenceFacts.
Context {A : Type} `{EqDecision A}.

Lemma startswith_refl (s : list A) : startswith s s = true.
Proof.
  induction s as [|a s IH]; [reflexivity|].
  simpl. destruct (decide (a = a)); [exact IH | congruence].
Qed.

Lemma startswith_app_same (a s t : list A) :
  startswith (a ++ s) (a ++ t) = startswith s t.
Proof.
  induction a as [|x a IH]; [reflexivity|].
  simpl. destruct (decide (x = x)); [exact IH | congruence].
Qed.

Lemma startswith_app (a s : list A) : startswith (a ++ s) a = true.
Proof.
  rewrite <- (app_nil_r a) at 2. rewrite startswith_app_same.
  destruct s; reflexivity.
Qed.

Lemma startswith_join (sep : A) (ps rs : list (list A)) :
  startswith ps rs = true -> startswith (join sep ps) (join sep rs) = true.
Proof.
  revert ps. induction rs as [|r rs IH]; intros ps Hpre.
  - destruct (join sep ps); reflexivity.
  - destruct ps as [|p ps]; [discriminate|].
    simpl in Hpre. destruct (decide (p = r)) as [->|]; [|discriminate].
    destruct rs as [|r' rs].
    + destruct ps; [apply startswith_refl | apply startswith_app].
    + destruct ps as [|p' ps]; [discriminate|].
      change (join sep (r :: p' :: ps))
        with (r ++ [sep] ++ join sep (p' :: ps)).
      change (join sep (r :: r' :: rs))
        with (r ++ [sep] ++ join sep (r' :: rs)).
      rewrite startswith_app_same.
      rewrite (startswith_app_same [sep]).
      apply IH. exact Hpre.
Qed.

Lemma startswith_fmap {B} `{EqDecision B} (f : A -> B) (ps rs : list A) :
  startswith ps rs = true -> startswith (f <$> ps) (f <$> rs) = true.
Proof.
  revert ps. induction rs as [|r rs IH]; intros [|p ps] Hpre;
    try reflexivity; try discriminate.
  simpl in *. destruct (decide (p = r)) as [->|]; [|discriminate].
  destruct (decide (f r = f r)); [auto | congruence].
Qed.

End SequenceFacts.

Lemma chars_unchars (l : list ascii) : chars (unchars l) = l.
Proof. apply list_ascii_of_string_of_list_ascii. Qed.

(** ** FileOperations *)

Lemma rpath_str_chars (p : rpath) :
  chars (rpath_str p) = "/"%char :: join "/"%char (chars <$> p).
Proof.
  unfold rpath_str, str, abs_path. simpl.
  unfold str_join. f_equal. apply chars_unchars.
Qed.

(** Every input that resolves inside the root is accepted, and the
    resolved path is what is returned. *)
Lemma validate_path_inside (root pcwd : rpath) (path : string) :
  let resolved :=
    parts (resolve pcwd (truediv (abs_path root) (of_str path))) in
  inside root resolved = true ->
  FileOperations._validate_path root pcwd path = inr resolved.
Proof.
  intros resolved Hin. unfold FileOperations._validate_path.
  fold resolved.
  assert (str_startswith
            (str (resolve pcwd (truediv (abs_path root) (of_str path))))
            (rpath_str root) = true) as ->; [|reflexivity].
  unfold str_startswith.
  change (str (resolve pcwd (truediv (abs_path root) (of_str path))))
    with (rpath_str resolved).
  rewrite !rpath_str_chars. simpl.
  apply startswith_join, startswith_fmap. exact Hin.
Qed.

(** Every rejected input resolves outside the root. *)
Lemma validate_path_rejected_outside (root pcwd : rpath) (path : string) e :
  FileOperations._validate_path root pcwd path = inl e ->
  inside root (parts (resolve pcwd (truediv (abs_path root) (of_str path))))
  = false.
Proof.
  intros Hrej.
  destruct (inside root _) eqn:Hin; [|reflexivity].
  apply (validate_path_inside root pcwd path) in Hin. congruence.
Qed.

(** C1 (evaluated on the code). With the workspace root [/ws], the input
    [../ws2/secret] resolves to [/ws2/secret], which is outside the root
    (a sibling directory whose name extends the root's name), and
    [_validate_path] returns it instead of raising [ValueError]: the test
    is a prefix test on the two path strings, not on their components.
    The absolute input [/ws2/secret] is accepted in the same way. *)
Theorem validate_path_accepts_sibling_directory (pcwd : rpath) :
  FileOperations._validate_path ["ws"] pcwd "../ws2/secret"
    = inr ["ws2"; "secret"]
  /\ FileOperations._validate_path ["ws"] pcwd "/ws2/secret"
    = inr ["ws2"; "secret"]
  /\ inside ["ws"] ["ws2"; "secret"] = false.
Proof. repeat split; reflexivity. Qed.

(** [delete_file], run: validation, then the test on the node. *)
Lemma delete_file_run (root pcwd : rpath) (path : string) (w : world) :
  FileOperations.delete_file root pcwd path w
  = match FileOperations._validate_path root pcwd path with
    | inl e => (w, inl e)
    | inr rp =>
        if is_file (fs w) rp
        then (mkWorld (delete rp (fs w)) (spawned w), inr tt)
        else (w, inl (FileNotFoundError ("File not found: " +:+ path)))
    end.
Proof.
  unfold FileOperations.delete_file, os_unlink, bind, lift, get_fs, raise,
    put_fs, is_file.
  destruct (FileOperations._validate_path root pcwd path) as [e|rp];
    [reflexivity|].
  simpl. destruct (fs w !! rp) as [[c| |]|] eqn:Hnode; simpl;
    rewrite ?Hnode; reflexivity.
Qed.

(** C10. [delete_file] removes a regular file and nothing else. If the
    validated path is not a regular file (a directory, a special file, or
    nothing at all), the call raises [FileNotFoundError] and the world is
    unchanged; if the call returns, the validated path was a regular file
    and the new file system is the old one without that one entry; every
    raised error leaves the world as it was. *)
Theorem delete_file_only_regular_files
    (root pcwd : rpath) (path : string) (w : world) :
  (forall rp,
      FileOperations._validate_path root pcwd path = inr rp ->
      is_file (fs w) rp = false ->
      FileOperations.delete_file root pcwd path w
      = (w, inl (FileNotFoundError ("File not found: " +:+ path))))
  /\ (forall w',
      FileOperations.delete_file root pcwd path w = (w', inr tt) ->
      exists rp,
        FileOperations._validate_path root pcwd path = inr rp
        /\ is_file (fs w) rp = true
        /\ fs w' = delete rp (fs w)
        /\ (forall q, q <> rp -> fs w' !! q = fs w !! q)
        /\ spawned w' = spawned w)
  /\ (forall w' e,
      FileOperations.delete_file root pcwd path w = (w', inl e) -> w' = w).
Proof.
  rewrite delete_file_run.
  destruct (FileOperations._validate_path root pcwd path) as [e0|rp0].
  - repeat split; intros; try discriminate; congruence.
  - destruct (is_file (fs w) rp0) eqn:Hfile; split; [|split| |split].
    + intros rp [= <-] Hnot. congruence.
    + intros w' [= <-]. exists rp0. simpl. repeat split; try assumption.
      intros q Hq. by rewrite lookup_delete_ne.
    + intros w' e. discriminate.
    + intros rp [= <-] _. reflexivity.
    + intros w'. discriminate.
    + intros w' e [= <- _]. reflexivity.
Qed.

(** In the sample tree, deleting the directory [src] or a missing file
    raises and changes nothing. *)
Lemma delete_file_only_regular_files_witness :
  FileOperations.delete_file ["ws"] [] "src" tree_world
  = (tree_world, inl (FileNotFoundError "File not found: src"))
  /\ FileOperations.delete_file ["ws"] [] "missing.txt" tree_world
     = (tree_world, inl (FileNotFoundError "File not found: missing.txt")).
Proof.
  split.
  - destruct (delete_file_only_regular_files ["ws"] [] "src" tree_world)
      as (Hnot_file & _ & _).
    apply (Hnot_file ["ws"; "src"]); vm_compute; reflexivity.
  - destruct (delete_file_only_regular_files ["ws"] [] "missing.txt"
                tree_world) as (Hnot_file & _ & _).
    apply (Hnot_file ["ws"; "missing.txt"]); vm_compute; reflexivity.
Defined.

(** Deleting a regular file removes that entry and no other. *)
Example delete_file_notes :
  fs (fst (FileOperations.delete_file ["ws"] [] "notes.txt" tree_world))
  = delete ["ws"; "notes.txt"] (fs tree_world)
  /\ snd (FileOperations.delete_file ["ws"] [] "notes.txt" tree_world)
     = inr tt.
Proof. split; vm_compute; reflexivity. Qed.

(** ** CodeExecutor *)

(** The world after [try: body finally: fin] is the one the finaliser
    leaves. *)
Lemma try_finally_world {A} (body : M A) (fin : M unit) (w : world) :
  fst (try_finally body fin w) = fst (fin (fst (body w))).
Proof.
  unfold try_finally. destruct (body w) as [w1 r]. simpl.
  destruct (fin w1) as [w2 [e|x]]; reflexivity.
Qed.

Section ExecutorFacts.
Variables (h : host) (root : rpath).

Lemma stage_ok (code : pystr) (w : world) (p : rpath) :
  tmp_name h (fs w) = inr p ->
  forallb (encodable h) code = true ->
  CodeExecutor.stage h code w
  = (mkWorld (<[p := File code]> (fs w)) (spawned w), inr p).
Proof.
  intros Htmp Henc. unfold CodeExecutor.stage, bind, get_fs, put_fs, ret.
  rewrite Htmp. simpl. rewrite Henc. reflexivity.
Qed.

Lemma stage_unencodable (code : pystr) (w : world) (p : rpath) :
  tmp_name h (fs w) = inr p ->
  forallb (encodable h) code = false ->
  CodeExecutor.stage h code w
  = (mkWorld (<[p := File []]> (fs w)) (spawned w), inl UnicodeEncodeError).
Proof.
  intros Htmp Henc. unfold CodeExecutor.stage, bind, get_fs, put_fs, raise.
  rewrite Htmp. simpl. rewrite Henc. reflexivity.
Qed.

(** When the code cannot be written, the call ends before the [try]
    block is entered: the staged file stays and nothing is spawned. *)
Lemma execute_code_failed_write (code : pystr) (wd : option string)
    (w : world) (p : rpath) :
  tmp_name h (fs w) = inr p ->
  forallb (encodable h) code = false ->
  CodeExecutor.execute_code h root code wd w
  = (mkWorld (<[p := File []]> (fs w)) (spawned w), inl UnicodeEncodeError).
Proof.
  intros Htmp Henc. unfold CodeExecutor.execute_code, bind.
  rewrite (stage_unencodable code w p Htmp Henc). reflexivity.
Qed.

(** The finaliser leaves no regular file at the path it is given. *)
Lemma os_unlink_no_file (who : callee) (p : rpath) (w : world) :
  is_file (fs (fst (os_unlink who p w))) p = false.
Proof.
  unfold os_unlink, bind, get_fs, put_fs, raise, is_file.
  destruct (fs w !! p) as [[c| |]|] eqn:Hnode; simpl; rewrite ?Hnode;
    try reflexivity.
  by rewrite lookup_delete_eq.
Qed.

(** Once the code is staged, no exit path of the [try] block leaves the
    staged file behind: missing interpreter, spawn failure, completed
    child. *)
Lemma execute_code_cleanup_after_staging (code : pystr)
    (wd : option string) (w w1 : world) (p : rpath) :
  CodeExecutor.stage h code w = (w1, inr p) ->
  is_file (fs (fst (CodeExecutor.execute_code h root code wd w))) p = false.
Proof.
  intros Hst. unfold CodeExecutor.execute_code, bind. rewrite Hst.
  rewrite try_finally_world. apply os_unlink_no_file.
Qed.

End ExecutorFacts.

(** C2 (evaluated on the code). On a POSIX host whose temp files are
    UTF-8 text, with the interpreter in place, [execute_code] on the
    one-character string holding the lone surrogate U+D800 raises
    [UnicodeEncodeError] out of the [with] block, before the
    [try]/[finally] that owns the clean-up is entered: when the call
    returns, the staged file is still on disk (empty). *)
Theorem execute_code_surrogate_leaves_staged_file :
  snd (CodeExecutor.execute_code (posix_host 0) ["ws"] [0xD800%N] None
         venv_world)
    = inl UnicodeEncodeError
  /\ fs (fst (CodeExecutor.execute_code (posix_host 0) ["ws"] [0xD800%N] None
                venv_world)) !! sample_tmp
    = Some (File [])
  /\ fs venv_world !! sample_tmp = None.
Proof.
  rewrite (execute_code_failed_write (posix_host 0) ["ws"] [0xD800%N] None
             venv_world sample_tmp) by reflexivity.
  simpl. split; [reflexivity|]. split; [apply lookup_insert_eq|].
  vm_compute. reflexivity.
Qed.

(** C3 (counterexample). In a workspace with no virtual environment,
    [execute_code] on the lone surrogate U+D800 raises
    [UnicodeEncodeError], not the interpreter-not-found error: the code is
    staged before the interpreter is looked up. *)
Lemma execute_code_missing_interpreter_unstaged_code :
  exists_ (fs bare_world) (python_location (posix_host 0) ["ws"]) = false
  /\ snd (CodeExecutor.execute_code (posix_host 0) ["ws"] [0xD800%N] None
            bare_world)
     = inl UnicodeEncodeError.
Proof.
  split; [vm_compute; reflexivity|].
  rewrite (execute_code_failed_write (posix_host 0) ["ws"] [0xD800%N] None
             bare_world sample_tmp) by reflexivity.
  reflexivity.
Qed.

(** C3 (amended). For every code input that is staged (the temp file is
    created and the code written to it): if, at the look-up, nothing
    exists at [<root>/.venv/bin/python] ([<root>/.venv/Scripts/python.exe]
    when [os.name] is [nt]), [execute_code] raises [FileNotFoundError]
    naming that path and no child process is requested; if something
    exists there, no [FileNotFoundError] built by [_get_python_path] is
    raised. *)
Theorem execute_code_interpreter_lookup
    (h : host) (root : rpath) (code : pystr) (wd : option string)
    (w : world) (p : rpath) :
  tmp_name h (fs w) = inr p ->
  forallb (encodable h) code = true ->
  (python_location h root
   = root ++ [".venv"]
          ++ (if bool_decide (os_name h = "nt")
              then ["Scripts"; "python.exe"] else ["bin"; "python"]))
  /\ (exists_ (<[p := File code]> (fs w)) (python_location h root) = false ->
      snd (CodeExecutor.execute_code h root code wd w)
      = inl (FileNotFoundError
               ("Python executable not found in virtual environment: "
                +:+ rpath_str (python_location h root)))
      /\ spawned (fst (CodeExecutor.execute_code h root code wd w))
         = spawned w)
  /\ (exists_ (<[p := File code]> (fs w)) (python_location h root) = true ->
      forall msg,
        snd (CodeExecutor.execute_code h root code wd w)
        <> inl (FileNotFoundError msg)).
Proof.
  intros Htmp Henc. split; [|split].
  - unfold python_location, CodeExecutor.venv_path.
    destruct (bool_decide (os_name h = "nt")); by rewrite <- app_assoc.
  - intros Hex. unfold CodeExecutor.execute_code, bind.
    rewrite (stage_ok h code w p Htmp Henc).
    unfold try_finally, CodeExecutor._get_python_path, os_unlink, bind,
      get_fs, put_fs, raise. simpl.
    fold (CodeExecutor.venv_path root). fold (python_location h root).
    rewrite Hex. simpl. rewrite lookup_insert_eq. simpl. split; reflexivity.
  - intros Hex msg. unfold CodeExecutor.execute_code, bind.
    rewrite (stage_ok h code w p Htmp Henc).
    unfold try_finally, CodeExecutor._get_python_path, subprocess_run,
      os_unlink, bind, get_fs, put_fs, raise, ret. simpl.
    fold (CodeExecutor.venv_path root). fold (python_location h root).
    rewrite Hex. simpl.
    destruct (child h _ _ _) as [f2 [d|c]]; simpl;
      destruct (f2 !! p) as [[?| |]|]; simpl; discriminate.
Qed.

(** The look-up on the sample host, without and with a virtual
    environment. *)
Lemma execute_code_interpreter_lookup_witness :
  snd (CodeExecutor.execute_code (posix_host 0) ["ws"] (u "print(1)") None
         bare_world)
  = inl (FileNotFoundError
           "Python executable not found in virtual environment: /ws/.venv/bin/python")
  /\ forall msg,
      snd (CodeExecutor.execute_code (posix_host 0) ["ws"] (u "print(1)") None
             venv_world)
      <> inl (FileNotFoundError msg).
Proof.
  split.
  - destruct (execute_code_interpreter_lookup (posix_host 0) ["ws"]
                (u "print(1)") None bare_world sample_tmp)
      as (_ & Hmissing & _); [reflexivity | reflexivity |].
    apply Hmissing. vm_compute. reflexivity.
  - destruct (execute_code_interpreter_lookup (posix_host 0) ["ws"]
                (u "print(1)") None venv_world sample_tmp)
      as (_ & _ & Hpresent); [reflexivity | reflexivity |].
    apply Hpresent. vm_compute. reflexivity.
Defined.






(** ** The tool surface *)

(** Whatever the arguments, [execute_code] requests at most one child,
    in the effective working directory. *)
Lemma execute_code_spawn_log
    (h : host) (root : rpath) (code : pystr) (wd : option string)
    (w : world) :
  let w' := fst (CodeExecutor.execute_code h root code wd w) in
  spawned w' = spawned w
  \/ exists args,
      spawned w' = spawned w ++ [mkSpawn args (Some (effective_cwd root wd))].
Proof.
  unfold CodeExecutor.execute_code, CodeExecutor.stage,
    CodeExecutor._get_python_path, try_finally, subprocess_run, os_unlink,
    bind, get_fs, put_fs, raise, ret. simpl.
  destruct (tmp_name h (fs w)) as [errno|p]; simpl; [by left|].
  destruct (forallb (encodable h) code); simpl; [|by left].
  destruct (exists_ _ _); simpl.
  - destruct (child h _ _ _) as [f2 [d|c]]; simpl;
      destruct (f2 !! p) as [[?| |]|]; simpl; right; eauto.
  - rewrite lookup_insert_eq. simpl. by left.
Qed.

(** C9. The [execute_python] tool passes no working directory to
    [execute_code], and it is the only tool [setup] registers. Whatever
    the code, when the code is staged and the interpreter is found the
    tool requests exactly one child, the interpreter on the staged file,
    with the workspace root as its working directory; when the code
    cannot be staged or the interpreter is missing it requests none. So
    every child the tool runs, runs in the workspace root. *)
Theorem execute_python_runs_in_workspace_root
    (h : host) (root : rpath) (code : pystr) (w : world) :
  PythonToolboxServer.registered_tools = ["execute_python"]
  /\ PythonToolboxServer.execute_python h root code w
     = CodeExecutor.execute_code h root code None w
  /\ (spawned (fst (PythonToolboxServer.execute_python h root code w))
      = spawned w
      \/ exists args,
          spawned (fst (PythonToolboxServer.execute_python h root code w))
          = spawned w ++ [mkSpawn args (Some (rpath_str root))])
  /\ (forall p,
        tmp_name h (fs w) = inr p ->
        forallb (encodable h) code = true ->
        exists_ (<[p := File code]> (fs w)) (python_location h root) = true ->
        spawned (fst (PythonToolboxServer.execute_python h root code w))
        = spawned w ++ [mkSpawn [rpath_str (python_location h root);
                                 rpath_str p]
                                (Some (rpath_str root))])
  /\ (forall p,
        tmp_name h (fs w) = inr p ->
        forallb (encodable h) code = true ->
        exists_ (<[p := File code]> (fs w)) (python_location h root) = false ->
        spawned (fst (PythonToolboxServer.execute_python h root code w))
        = spawned w)
  /\ (forallb (encodable h) code = false
      \/ (exists errno, tmp_name h (fs w) = inl errno) ->
      spawned (fst (PythonToolboxServer.execute_python h root code w))
      = spawned w).
Proof.
  split; [reflexivity|]. split; [reflexivity|].
  split; [exact (execute_code_spawn_log h root code None w)|].
  unfold PythonToolboxServer.execute_python, CodeExecutor.execute_code,
    CodeExecutor.stage, CodeExecutor._get_python_path, try_finally,
    subprocess_run, os_unlink, bind, get_fs, put_fs, raise, ret. simpl.
  fold (CodeExecutor.venv_path root). fold (python_location h root).
  repeat split.
  - intros p -> -> Hex. simpl. rewrite Hex. simpl.
    destruct (child h _ _ _) as [f2 [d|c]]; simpl;
      destruct (f2 !! p) as [[?| |]|]; reflexivity.
  - intros p -> -> Hex. simpl. rewrite Hex. simpl.
    rewrite lookup_insert_eq. reflexivity.
  - intros [Henc | [errno ->]]; [|reflexivity].
    destruct (tmp_name h (fs w)) as [errno|p]; simpl; [reflexivity|].
    rewrite Henc. reflexivity.
Qed.

(** On the sample host, in the workspace [/ws] with a virtual
    environment: one child, the interpreter of the environment on the
    staged file, in [/ws]. *)
Lemma execute_python_runs_in_workspace_root_witness :
  spawned (fst (PythonToolboxServer.execute_python (posix_host 0) ["ws"]
                  (u "print(1)") venv_world))
  = [mkSpawn ["/ws/.venv/bin/python"; "/tmp/tmpk3v9x1.py"] (Some "/ws")].
Proof.
  assert (exists_ (<[sample_tmp := File (u "print(1)")]> (fs venv_world))
                  (python_location (posix_host 0) ["ws"]) = true) as Hpython
    by (vm_compute; reflexivity).
  destruct (execute_python_runs_in_workspace_root (posix_host 0) ["ws"]
              (u "print(1)") venv_world) as (_ & _ & _ & Hruns & _).
  exact (Hruns sample_tmp eq_refl eq_refl Hpython).
Defined.

(** ** CodeAnalyzer: the lint report *)

Section SplitFacts.
Context {A : Type} `{EqDecision A}.

Lemma split_not_nil (sep : A) (l : list A) : split sep l <> [].
Proof.
  destruct l as [|c r]; simpl; [discriminate|].
  destruct (decide (c = sep)); [discriminate|].
  destruct (split sep r); discriminate.
Qed.

(** A field that holds no separator is split off whole. *)
Lemma split_field (sep : A) (f rest : list A) :
  sep ∉ f -> split sep (f ++ sep :: rest) = f :: split sep rest.
Proof.
  induction f as [|c f IH]; intros Hf; simpl.
  - destruct (decide (sep = sep)); [reflexivity | congruence].
  - apply not_elem_of_cons in Hf as [Hc Hf].
    destruct (decide (c = sep)); [congruence|].
    rewrite (IH Hf). reflexivity.
Qed.

Lemma split_last_field (sep : A) (f : list A) :
  sep ∉ f -> split sep f = [f].
Proof.
  induction f as [|c f IH]; intros Hf; simpl; [reflexivity|].
  apply not_elem_of_cons in Hf as [Hc Hf].
  destruct (decide (c = sep)); [congruence|].
  rewrite (IH Hf). reflexivity.
Qed.

(** Joining what was split gives the text back: separators inside it are
    kept. *)
Lemma join_split (sep : A) (l : list A) : join sep (split sep l) = l.
Proof.
  induction l as [|c r IH]; [reflexivity|]. simpl.
  destruct (decide (c = sep)) as [->|].
  - pose proof (split_not_nil sep r) as Hne.
    destruct (split sep r) as [|w ws]; [congruence|].
    change (join sep ([] :: w :: ws)) with (sep :: join sep (w :: ws)).
    by rewrite IH.
  - pose proof (split_not_nil sep r) as Hne.
    destruct (split sep r) as [|w ws]; [congruence|].
    destruct ws as [|w' ws]; simpl in *; by rewrite <- IH.
Qed.

End SplitFacts.

(** C7 (counterexample). For the report line
    [m.py:1:0: C0114: Missing docstring] the text after the third colon
    starts with a blank; the message [parse_line] produces does not: it is
    that text stripped of the white space around it. *)
Lemma parse_line_strips_message :
  after_colons 3 (u "m.py:1:0: C0114: Missing docstring")
    = Some (u " C0114: Missing docstring")
  /\ CodeAnalyzer.message <$>
       CodeAnalyzer.parse_line (u "m.py:1:0: C0114: Missing docstring")
     = [u "C0114: Missing docstring"].
Proof. split; vm_compute; reflexivity. Qed.

(** C7 (amended). [lint_code] reads the report line by line. A line
    [path:line:category:rest], whose first three fields hold no colon,
    gives one issue with these three fields and, as message, [rest] with
    its colons kept and the white space at its two ends stripped; a line
    of exactly three fields gives an issue with the empty message; a line
    with no colon gives no issue. *)
Theorem lint_code_report_format
    (pylint_report : string -> pystr) (file_path : string) :
  CodeAnalyzer.lint_code pylint_report file_path
    = concat (CodeAnalyzer.parse_line
                <$> splitlines (pylint_report (str (of_str file_path))))
  /\ (forall f0 f1 f2 rest : pystr,
        COLON ∉ f0 -> COLON ∉ f1 -> COLON ∉ f2 ->
        CodeAnalyzer.parse_line
          (f0 ++ COLON :: f1 ++ COLON :: f2 ++ COLON :: rest)
        = [ {| CodeAnalyzer.path := f0;
               CodeAnalyzer.line := f1;
               CodeAnalyzer.type := f2;
               CodeAnalyzer.message := strip rest |} ])
  /\ (forall f0 f1 f2 : pystr,
        COLON ∉ f0 -> COLON ∉ f1 -> COLON ∉ f2 ->
        CodeAnalyzer.parse_line (f0 ++ COLON :: f1 ++ COLON :: f2)
        = [ {| CodeAnalyzer.path := f0;
               CodeAnalyzer.line := f1;
               CodeAnalyzer.type := f2;
               CodeAnalyzer.message := [] |} ])
  /\ (forall l : pystr, COLON ∉ l -> CodeAnalyzer.parse_line l = []).
Proof.
  split; [reflexivity|]. split; [|split].
  - intros f0 f1 f2 rest H0 H1 H2. unfold CodeAnalyzer.parse_line.
    rewrite bool_decide_true by set_solver.
    rewrite !split_field by assumption.
    pose proof (split_not_nil COLON rest) as Hne.
    rewrite bool_decide_true by (simpl; lia).
    cbn [nth skipn]. rewrite drop_0. by rewrite join_split.
  - intros f0 f1 f2 H0 H1 H2. unfold CodeAnalyzer.parse_line.
    rewrite bool_decide_true by set_solver.
    rewrite !split_field by assumption.
    rewrite (split_last_field COLON f2) by assumption.
    reflexivity.
  - intros l Hl. unfold CodeAnalyzer.parse_line.
    by rewrite bool_decide_false.
Qed.

(** A message line and a header line of a pylint report. *)
Lemma lint_code_report_format_witness :
  CodeAnalyzer.parse_line (u "m.py:1:0: C0114: Missing docstring")
  = [ {| CodeAnalyzer.path := u "m.py";
         CodeAnalyzer.line := u "1";
         CodeAnalyzer.type := u "0";
         CodeAnalyzer.message := u "C0114: Missing docstring" |} ]
  /\ CodeAnalyzer.parse_line (u "************* Module m") = [].
Proof.
  destruct (lint_code_report_format (fun _ => []) "m.py")
    as (_ & Hfields & _ & Hnone).
  split.
  - apply (Hfields (u "m.py") (u "1") (u "0")
                   (u " C0114: Missing docstring")); by_computation.
  - apply Hnone. by_computation.
Defined.

(** ** CodeAnalyzer: formatting *)

(** What [format_code] adds to [black], which is not part of the
    repository and is a parameter here. If [black] is stable on its own
    output, formatting with the style [black] twice is formatting once;
    without that, [format_code] returns what [black] returns and is no
    more stable than [black] is. Code that [black] rejects with
    [InvalidInput] or another [ValueError] is returned unchanged; and
    every style other than [black] and [pep8] raises [ValueError]. *)
Theorem format_code_black_idempotent
    (black : pystr -> CodeAnalyzer.black_outcome)
    (autopep8 : pystr -> pystr) :
  (forall code text,
      black code = CodeAnalyzer.Formatted text ->
      black text = CodeAnalyzer.Formatted text) ->
  (forall code,
      format_again black autopep8
        (CodeAnalyzer.format_code black autopep8 code "black") "black"
      = CodeAnalyzer.format_code black autopep8 code "black")
  /\ (forall code,
        black code = CodeAnalyzer.InvalidInput
        \/ black code = CodeAnalyzer.OtherValueError ->
        CodeAnalyzer.format_code black autopep8 code "black" = inr code)
  /\ (forall code style,
        style <> "black" -> style <> "pep8" ->
        CodeAnalyzer.format_code black autopep8 code style
        = inl (ValueError ("Unsupported style: " +:+ style))).
Proof.
  intros Hstable. split; [|split].
  - intros code. unfold format_again, CodeAnalyzer.format_code. simpl.
    destruct (black code) as [text| | |d] eqn:Hfirst; try reflexivity.
    + by rewrite (Hstable code text Hfirst).
    + by rewrite Hfirst.
    + by rewrite Hfirst.
  - intros code [Hrej|Hrej]; unfold CodeAnalyzer.format_code; simpl;
      by rewrite Hrej.
  - intros code style Hblack Hpep. unfold CodeAnalyzer.format_code.
    by rewrite !bool_decide_false.
Qed.

Lemma ends_with_newline_snoc (code : pystr) :
  ends_with_newline (code ++ [10%N]) = true.
Proof. unfold ends_with_newline. by rewrite rev_unit. Qed.

Lemma toy_black_stable (code text : pystr) :
  toy_black code = CodeAnalyzer.Formatted text ->
  toy_black text = CodeAnalyzer.Formatted text.
Proof.
  unfold toy_black.
  destruct (existsb (N.eqb 0) code) eqn:Hnul; [discriminate|].
  destruct (ends_with_newline code) eqn:Hend; intros [= <-].
  - by rewrite Hnul, Hend.
  - rewrite existsb_app, Hnul, ends_with_newline_snoc. reflexivity.
Qed.

(** The sample formatter: formatting twice, rejected code, and an
    unknown style. *)
Lemma format_code_black_idempotent_witness :
  format_again toy_black id
    (CodeAnalyzer.format_code toy_black id (u "x = 1") "black") "black"
  = inr (u "x = 1" ++ [10%N])
  /\ CodeAnalyzer.format_code toy_black id [0%N] "black" = inr [0%N]
  /\ CodeAnalyzer.format_code toy_black id (u "x = 1") "yapf"
     = inl (ValueError "Unsupported style: yapf").
Proof.
  destruct (format_code_black_idempotent toy_black id toy_black_stable)
    as (Htwice & Hrejected & Hstyle).
  split; [|split].
  - rewrite Htwice. reflexivity.
  - apply Hrejected. left. reflexivity.
  - apply Hstyle; discriminate.
Defined.

(** ** ProjectManager: dependency sources *)

Lemma as_arguments_strings (deps : list string) :
  as_arguments (TArr (TStr <$> deps)) = inr deps.
Proof.
  unfold as_arguments.
  assert (mapM (fun v => match v with TStr s => Some s | _ => None end)
               (TStr <$> deps) = Some deps) as ->; [|reflexivity].
  apply mapM_Some.
  induction deps as [|d deps IH]; constructor; [reflexivity | exact IH].
Qed.

(** C5 (counterexample). In a workspace with a virtual environment, no
    [requirements.txt] and a [pyproject.toml] that declares no
    [project.dependencies], [install_dependencies()] returns normally and
    requests no installation: no dependency source exists and no error is
    raised. *)
Lemma install_dependencies_silent_without_source :
  exists_ (fs manifest_world) ["ws"; "requirements.txt"] = false
  /\ toml_of_empty [] = inr []
  /\ ProjectManager.install_dependencies (posix_host 0) toml_of_empty ["ws"]
       None manifest_world
     = (manifest_world, inr tt).
Proof. repeat split; vm_compute; reflexivity. Qed.

(** C5 (amended). With the interpreter of the virtual environment in
    place, [install_dependencies] takes its dependencies from, in this
    order: the requirements file passed to it (a non-empty string), which
    it hands to [pip install -r]; else [requirements.txt] in the workspace
    root, if it exists; else [pyproject.toml] in the workspace root, if it
    exists: the strings of its [project.dependencies] list are handed to
    [pip install], and when the manifest has no [project] table or that
    table has no [dependencies] key the call returns without installing
    anything; it raises [FileNotFoundError] when neither of the two files
    exists. *)
Theorem install_dependencies_resolution_order
    (h : host) (toml_load : pystr -> N + list (string * toml))
    (root : rpath) (requirements_file : option string) (w : world) :
  exists_ (fs w) (python_location h root) = true ->
  (forall file,
      truthy requirements_file = Some file ->
      ProjectManager.install_dependencies h toml_load root requirements_file w
      = pip_install h (python_location h root) ["-r"; str (of_str file)] w)
  /\ (truthy requirements_file = None ->
      exists_ (fs w) (root ++ ["requirements.txt"]) = true ->
      ProjectManager.install_dependencies h toml_load root requirements_file w
      = pip_install h (python_location h root)
          ["-r"; rpath_str (root ++ ["requirements.txt"])] w)
  /\ (forall text doc,
      truthy requirements_file = None ->
      exists_ (fs w) (root ++ ["requirements.txt"]) = false ->
      fs w !! (root ++ ["pyproject.toml"]) = Some (File text) ->
      toml_load text = inr doc ->
      (forall project deps,
          dict_get "project" doc = Some (TTable project) ->
          dict_get "dependencies" project = Some (TArr (TStr <$> deps)) ->
          ProjectManager.install_dependencies h toml_load root
            requirements_file w
          = pip_install h (python_location h root) deps w)
      /\ (dict_get "project" doc = None
          \/ (exists project,
                 dict_get "project" doc = Some (TTable project)
                 /\ dict_get "dependencies" project = None) ->
          ProjectManager.install_dependencies h toml_load root
            requirements_file w
          = (w, inr tt)))
  /\ (truthy requirements_file = None ->
      exists_ (fs w) (root ++ ["requirements.txt"]) = false ->
      exists_ (fs w) (root ++ ["pyproject.toml"]) = false ->
      ProjectManager.install_dependencies h toml_load root requirements_file w
      = (w, inl (FileNotFoundError
                   "No requirements.txt or pyproject.toml found"))).
Proof.
  intros Hpython.
  assert (forall k : rpath -> M unit,
             bind (ProjectManager._get_python_path h root) k w
             = k (python_location h root) w) as Hfound.
  { intros k. unfold ProjectManager._get_python_path, bind, get_fs, ret.
    simpl. fold (ProjectManager.venv_path root).
    change (if bool_decide (os_name h = "nt")
            then ProjectManager.venv_path root ++ ["Scripts"; "python.exe"]
            else ProjectManager.venv_path root ++ ["bin"; "python"])
      with (python_location h root).
    by rewrite Hpython. }
  unfold ProjectManager.install_dependencies. rewrite Hfound.
  split; [|split; [|split]].
  - intros file ->. reflexivity.
  - intros -> Hreq. unfold bind at 1, get_fs. simpl. rewrite Hreq.
    reflexivity.
  - intros text doc -> Hreq Hmanifest Hload.
    assert (exists_ (fs w) (root ++ ["pyproject.toml"]) = true) as Hex
      by (unfold exists_; by rewrite Hmanifest).
    split; [intros project deps Hproject Hdeps | intros Hnodeps];
      unfold bind at 1, get_fs; simpl; rewrite Hreq, Hex;
      unfold ProjectManager._install_from_pyproject, read_text, bind, get_fs,
        lift, ret;
      cbn -[dict_get as_arguments]; rewrite Hmanifest, Hload.
    + rewrite Hproject. cbn -[dict_get as_arguments]. rewrite Hdeps.
      cbn -[dict_get as_arguments]. rewrite as_arguments_strings.
      reflexivity.
    + destruct Hnodeps as [Hnone | (project & Hproject & Hdeps)].
      * by rewrite Hnone.
      * rewrite Hproject. cbn -[dict_get as_arguments]. by rewrite Hdeps.
  - intros -> Hreq Hmanifest. unfold bind at 1, get_fs. simpl.
    rewrite Hreq, Hmanifest. reflexivity.
Qed.

(** With [requirements.txt] the file is installed; with neither file
    the call raises. *)
Lemma install_dependencies_resolution_order_witness :
  spawned (fst (ProjectManager.install_dependencies (posix_host 0)
                  toml_of_empty ["ws"] None requirements_world))
  = [mkSpawn ["/ws/.venv/bin/python"; "-m"; "pip"; "install"; "-r";
              "/ws/requirements.txt"] None]
  /\ snd (ProjectManager.install_dependencies (posix_host 0) toml_of_empty
            ["ws"] None venv_world)
     = inl (FileNotFoundError "No requirements.txt or pyproject.toml found").
Proof.
  assert (exists_ (fs requirements_world) (python_location (posix_host 0)
                                             ["ws"]) = true) as Hpy1
    by (vm_compute; reflexivity).
  assert (exists_ (fs venv_world) (python_location (posix_host 0) ["ws"])
          = true) as Hpy2
    by (vm_compute; reflexivity).
  split.
  - destruct (install_dependencies_resolution_order (posix_host 0)
                toml_of_empty ["ws"] None requirements_world Hpy1)
      as (_ & Hreq & _).
    rewrite Hreq; [reflexivity | reflexivity | vm_compute; reflexivity].
  - destruct (install_dependencies_resolution_order (posix_host 0)
                toml_of_empty ["ws"] None venv_world Hpy2)
      as (_ & _ & _ & Hnone).
    rewrite Hnone; [reflexivity | reflexivity | | ]; vm_compute; reflexivity.
Defined.

(** ** ProjectManager: dependency conflicts *)

Section ConflictFacts.
Variables (specifier pversion : Type)
          (Requirement : string -> option (ProjectManager.requirement specifier))
          (version_parse : string -> option pversion)
          (version_str : pversion -> string)
          (contains : specifier -> pversion -> bool).

Local Abbreviation check_requirement :=
  (ProjectManager.check_requirement specifier pversion Requirement
     version_parse version_str contains).
Local Abbreviation check_dependency_conflicts :=
  (ProjectManager.check_dependency_conflicts specifier pversion Requirement
     version_parse version_str contains).

(** What a loop that ran to its end has collected. *)
Lemma collect_elem {X} (body : X -> exn + list ProjectManager.conflict)
    (xs : list X) (cs : list ProjectManager.conflict) :
  ProjectManager.collect body xs = inr cs ->
  forall c, c ∈ cs <-> exists x cs', x ∈ xs /\ body x = inr cs' /\ c ∈ cs'.
Proof.
  revert cs. induction xs as [|x xs IH]; simpl; intros cs Hrun c.
  - injection Hrun as <-. split.
    + intros Hc. by apply elem_of_nil in Hc.
    + intros (x & cs' & Hx & _). by apply elem_of_nil in Hx.
  - destruct (body x) as [e|cs1] eqn:Hx; [discriminate|].
    destruct (ProjectManager.collect body xs) as [e|cs2] eqn:Hxs;
      [discriminate|].
    injection Hrun as <-. rewrite elem_of_app, (IH cs2 eq_refl c). split.
    + intros [Hc | (y & cs' & Hy & Hbody & Hc)].
      * exists x, cs1. repeat split; [left | assumption..].
      * exists y, cs'. repeat split; [by right | assumption..].
    + intros (y & cs' & Hy & Hbody & Hc).
      apply elem_of_cons in Hy as [-> | Hy].
      * left. congruence.
      * right. eauto.
Qed.

(** A loop whose body raises on one of its items raises. *)
Lemma collect_raises {X} (body : X -> exn + list ProjectManager.conflict)
    (xs : list X) (x : X) (e : exn) :
  x ∈ xs -> body x = inl e -> exists e', ProjectManager.collect body xs = inl e'.
Proof.
  induction xs as [|y xs IH]; intros Hx Hbody.
  - by apply elem_of_nil in Hx.
  - simpl. apply elem_of_cons in Hx as [<- | Hx].
    + rewrite Hbody. eauto.
    + destruct (body y); [eauto|].
      destruct (IH Hx Hbody) as [e' ->]. eauto.
Qed.

(** One requirement string gives at most one conflict: the requirement
    names an installed distribution and its specifier does not contain
    that distribution's version. *)
Lemma check_requirement_elem (inst : list (string * ProjectManager.distribution))
    (pkg_name req_str : string) (cs : list ProjectManager.conflict) :
  check_requirement inst pkg_name req_str = inr cs ->
  forall c,
    c ∈ cs <->
    exists req target v,
      Requirement req_str = Some req
      /\ dict_get (ProjectManager.r_name specifier req) inst = Some target
      /\ version_parse (ProjectManager.d_version target) = Some v
      /\ contains (ProjectManager.r_specifier specifier req) v = false
      /\ c = ProjectManager.mkConflict pkg_name
               (ProjectManager.r_str specifier req) (version_str v).
Proof.
  unfold ProjectManager.check_requirement. intros Hrun c.
  destruct (Requirement req_str) as [req|] eqn:Hreq; [|discriminate].
  destruct (dict_get _ inst) as [target|] eqn:Htarget.
  - destruct (version_parse _) as [v|] eqn:Hv; [|discriminate].
    destruct (contains _ v) eqn:Hc; simpl in Hrun; injection Hrun as <-.
    + split; [intros Hin; by apply elem_of_nil in Hin|].
      intros (req' & target' & v' & [= <-] & Ht & Hv' & Hc' & _).
      congruence.
    + rewrite list_elem_of_singleton. split.
      * intros ->. exists req, target, v. by repeat split.
      * intros (req' & target' & v' & [= <-] & Ht & Hv' & _ & ->).
        congruence.
  - injection Hrun as <-.
    split; [intros Hin; by apply elem_of_nil in Hin|].
    intros (req' & target' & v' & [= <-] & Ht & _). congruence.
Qed.

(** When [check_dependency_conflicts] returns, the entries of its result
    are the flagged triples and nothing else. *)
Lemma check_dependency_conflicts_elem
    (dists : list ProjectManager.distribution)
    (cs : list ProjectManager.conflict) :
  check_dependency_conflicts dists = inr cs ->
  forall c,
    c ∈ cs <->
    exists pkg_name dist req_str req target v,
      (pkg_name, dist) ∈ ProjectManager.installed_dict dists
      /\ req_str ∈ default [] (ProjectManager.d_requires dist)
      /\ Requirement req_str = Some req
      /\ dict_get (ProjectManager.r_name specifier req)
           (ProjectManager.installed_dict dists) = Some target
      /\ version_parse (ProjectManager.d_version target) = Some v
      /\ contains (ProjectManager.r_specifier specifier req) v = false
      /\ c = ProjectManager.mkConflict pkg_name
               (ProjectManager.r_str specifier req) (version_str v).
Proof.
  unfold ProjectManager.check_dependency_conflicts. intros Hrun c.
  rewrite (collect_elem _ _ _ Hrun c). split.
  - intros ([pkg_name dist] & cs1 & Hdist & Hinner & Hc).
    rewrite (collect_elem _ _ _ Hinner c) in Hc.
    destruct Hc as (req_str & cs2 & Hreq_str & Hone & Hc).
    rewrite (check_requirement_elem _ _ _ _ Hone c) in Hc.
    destruct Hc as (req & target & v & Hc).
    exists pkg_name, dist, req_str, req, target, v. tauto.
  - intros (pkg_name & dist & req_str & req & target & v
            & Hdist & Hreq_str & Hreq & Htarget & Hv & Hout & ->).
    pose proof (collect_elem _ _ _ Hrun) as Houter.
    destruct (ProjectManager.collect
                (check_requirement (ProjectManager.installed_dict dists)
                   pkg_name)
                (default [] (ProjectManager.d_requires dist)))
      as [e|cs1] eqn:Hinner.
    + destruct (collect_raises
                  (fun '(pkg_name, dist) =>
                     ProjectManager.collect
                       (check_requirement
                          (ProjectManager.installed_dict dists) pkg_name)
                       (default [] (ProjectManager.d_requires dist)))
                  (ProjectManager.installed_dict dists)
                  (pkg_name, dist) e Hdist Hinner)
        as [e' Hraised].
      congruence.
    + exists (pkg_name, dist), cs1. repeat split; [assumption..|].
      rewrite (collect_elem _ _ _ Hinner). 
      destruct (check_requirement (ProjectManager.installed_dict dists)
                  pkg_name req_str) as [e|cs2] eqn:Hone.
      * exfalso. unfold ProjectManager.check_requirement in Hone.
        rewrite Hreq, Htarget, Hv, Hout in Hone. discriminate.
      * exists req_str, cs2. repeat split; [assumption..|].
        rewrite (check_requirement_elem _ _ _ _ Hone).
        exists req, target, v. by repeat split.
Qed.

(** A loop whose body returns on every item returns. *)
Lemma collect_returns {X} (body : X -> exn + list ProjectManager.conflict)
    (xs : list X) :
  (forall x, x ∈ xs -> exists cs, body x = inr cs) ->
  exists cs, ProjectManager.collect body xs = inr cs.
Proof.
  induction xs as [|x xs IH]; intros Hbody; simpl; [eauto|].
  destruct (Hbody x) as [cs1 ->]; [left|].
  destruct IH as [cs2 ->]; [|eauto].
  intros y Hy. apply Hbody. by right.
Qed.

End ConflictFacts.

(** When no two distributions share a name, the dictionary of installed
    distributions lists them as they come. *)
Lemma dict_set_fresh {V} (k : string) (v : V) (d : list (string * V)) :
  k ∉ d.*1 -> dict_set k v d = d ++ [(k, v)].
Proof.
  induction d as [|[k' v'] d IH]; intros Hk; [reflexivity|].
  simpl in *. apply not_elem_of_cons in Hk as [Hne Hk].
  rewrite bool_decide_false by assumption. by rewrite IH.
Qed.

Lemma installed_dict_distinct (dists : list ProjectManager.distribution) :
  NoDup (ProjectManager.d_name <$> dists) ->
  ProjectManager.installed_dict dists
  = (fun d => (ProjectManager.d_name d, d)) <$> dists.
Proof.
  unfold ProjectManager.installed_dict.
  enough (forall acc : list (string * ProjectManager.distribution),
             NoDup (acc.*1 ++ (ProjectManager.d_name <$> dists)) ->
             fold_left (fun d dist =>
                          dict_set (ProjectManager.d_name dist) dist d)
                       dists acc
             = acc ++ ((fun d => (ProjectManager.d_name d, d)) <$> dists))
    as Hgen by (intros Hnd; exact (Hgen [] Hnd)).
  induction dists as [|d dists IH]; intros acc Hnd; simpl.
  - by rewrite app_nil_r.
  - apply NoDup_app in Hnd as (Hacc & Hdisj & Hrest).
    apply NoDup_cons in Hrest as [Hd Hrest].
    rewrite dict_set_fresh.
    + rewrite IH; [by rewrite <- app_assoc|].
      rewrite fmap_app. simpl. rewrite <- app_assoc. simpl.
      apply NoDup_app. repeat split; [assumption| |by apply NoDup_cons].
      intros k Hk. apply Hdisj in Hk. exact Hk.
    + intros Hin. apply (Hdisj _ Hin). left.
Qed.

(* ================================================================== *)
(** * Properties of the other operations *)
(* ================================================================== *)

(** ** Splitting and joining *)

Section SeparatorFacts.
Context {A : Type} `{EqDecision A}.

Lemma startswith_prefix (s t : list A) :
  startswith s t = true <-> exists k, s = t ++ k.
Proof.
  revert s. induction t as [|b t IH]; intros s; simpl.
  - split; [intros _; by exists s | intros _; by destruct s].
  - destruct s as [|a s].
    + split; [discriminate | intros [k Hk]; discriminate].
    + simpl. destruct (decide (a = b)) as [->|Hne].
      * rewrite IH. split; intros [k Hk]; exists k; congruence.
      * split; [discriminate | intros [k Hk]; congruence].
Qed.

(** The pieces of a split hold no separator. *)
Lemma split_pieces (sep : A) (l : list A) :
  Forall (fun w => sep ∉ w) (split sep l).
Proof.
  induction l as [|c r IH]; simpl.
  - repeat constructor. apply not_elem_of_nil.
  - destruct (decide (c = sep)) as [->|Hne].
    + constructor; [apply not_elem_of_nil | exact IH].
    + pose proof (split_not_nil sep r) as Hnil.
      destruct (split sep r) as [|w ws]; [congruence|].
      apply Forall_cons in IH as [Hw Hws].
      constructor; [|exact Hws].
      apply not_elem_of_cons. split; [congruence | exact Hw].
Qed.

(** Splitting what was joined gives the pieces back. *)
Lemma split_join (sep : A) (ws : list (list A)) :
  ws <> [] -> Forall (fun w => sep ∉ w) ws ->
  split sep (join sep ws) = ws.
Proof.
  induction ws as [|w ws IH]; intros Hne Hws; [congruence|].
  apply Forall_cons in Hws as [Hw Hws].
  destruct ws as [|w' ws].
  - simpl. by apply split_last_field.
  - change (join sep (w :: w' :: ws)) with (w ++ sep :: join sep (w' :: ws)).
    rewrite split_field by assumption.
    rewrite IH; [reflexivity | discriminate | assumption].
Qed.

(** Two texts that agree up to their first separator. *)
Lemma first_separator (sep : A) (a b x y : list A) :
  sep ∉ a -> sep ∉ b -> a ++ sep :: x = b ++ sep :: y -> a = b /\ x = y.
Proof.
  revert b. induction a as [|c a IH]; intros b Ha Hb Heq.
  - destruct b as [|d b]; simpl in Heq.
    + split; congruence.
    + injection Heq as <- _. exfalso. apply Hb. left.
  - destruct b as [|d b]; simpl in Heq.
    + injection Heq as -> _. exfalso. apply Ha. left.
    + injection Heq as <- Heq.
      apply not_elem_of_cons in Ha as [_ Ha].
      apply not_elem_of_cons in Hb as [_ Hb].
      destruct (IH b Ha Hb Heq) as [-> ->]. split; reflexivity.
Qed.

(** A text without separator that starts [b ++ sep :: y] starts [b]. *)
Lemma before_separator (sep : A) (a k b y : list A) :
  sep ∉ a -> a ++ k = b ++ sep :: y -> exists ext, b = a ++ ext.
Proof.
  revert b. induction a as [|c a IH]; intros b Ha Heq; [eauto|].
  destruct b as [|d b]; simpl in Heq.
  - injection Heq as -> _. exfalso. apply Ha. left.
  - injection Heq as <- Heq.
    apply not_elem_of_cons in Ha as [_ Ha].
    destruct (IH b Ha Heq) as [ext ->]. eauto.
Qed.

End SeparatorFacts.

(** One text is a prefix of another, both joined from pieces without
    separator: piece by piece, or up to a last piece that is extended. *)
Lemma startswith_join_pieces {A} `{EqDecision A} (sep : A)
    (ps rs : list (list A)) :
  Forall (fun w => sep ∉ w) ps ->
  Forall (fun w => (sep ∉ w) /\ w <> []) rs ->
  startswith (join sep ps) (join sep rs) = true ->
  startswith ps rs = true
  \/ exists pre r ext rest,
      rs = pre ++ [r] /\ ps = pre ++ [r ++ ext] ++ rest /\ ext <> [].
Proof.
  revert ps. induction rs as [|r rs IH]; intros ps Hps Hrs Hpre;
    [left; by destruct ps|].
  apply Forall_cons in Hrs as [[Hr Hrne] Hrs].
  apply startswith_prefix in Hpre as [k Hk].
  destruct ps as [|p ps].
  - exfalso. simpl in Hk. destruct rs; simpl in Hk;
      destruct r; simpl in Hk; congruence.
  - apply Forall_cons in Hps as [Hp Hps].
    destruct rs as [|r' rs].
    + (* the last piece of the root *)
      simpl in Hk.
      assert (exists ext, p = r ++ ext) as [ext ->].
      { destruct ps as [|p' ps].
        - simpl in Hk. eauto.
        - change (join sep (p :: p' :: ps))
            with (p ++ sep :: join sep (p' :: ps)) in Hk.
          symmetry in Hk. by eapply before_separator. }
      destruct ext as [|x ext].
      * left. rewrite app_nil_r. simpl.
        destruct (decide (r = r)); [|congruence]. by destruct ps.
      * right. exists [], r, (x :: ext), ps. by repeat split.
    + change (join sep (r :: r' :: rs))
        with (r ++ sep :: join sep (r' :: rs)) in Hk.
      destruct ps as [|p' ps].
      * exfalso. simpl in Hk. apply Hp. rewrite Hk.
        rewrite <- app_assoc. set_solver.
      * change (join sep (p :: p' :: ps))
          with (p ++ sep :: join sep (p' :: ps)) in Hk.
        rewrite <- app_assoc in Hk. simpl in Hk. symmetry in Hk.
        apply first_separator in Hk as [-> Hk]; [|assumption..].
        assert (startswith (join sep (p' :: ps)) (join sep (r' :: rs)) = true)
          as Hrest by (apply startswith_prefix; eauto).
        destruct (IH (p' :: ps) Hps Hrs Hrest)
          as [Hin | (pre & r0 & ext & rest & Hrs' & Hps' & Hext)].
        -- left. simpl. destruct (decide (p = p)); [|congruence].
           exact Hin.
        -- right. exists (p :: pre), r0, ext, rest.
           rewrite Hrs', Hps'. by repeat split.
Qed.

(** ** Path validation *)

Lemma unchars_chars (s : string) : unchars (chars s) = s.
Proof. apply string_of_list_ascii_of_string. Qed.

Lemma chars_append (s t : string) : chars (s +:+ t) = chars s ++ chars t.
Proof. induction s as [|c s IH]; simpl; [reflexivity | by rewrite <- IH]. Qed.

Lemma unchars_app (a b : list ascii) : unchars (a ++ b) = unchars a +:+ unchars b.
Proof. induction a as [|c a IH]; simpl; [reflexivity | by rewrite IH]. Qed.

Lemma fmap_unchars_chars (l : list string) : unchars <$> (chars <$> l) = l.
Proof.
  rewrite <- list_fmap_compose. rewrite <- (list_fmap_id l) at 2.
  apply list_fmap_ext. intros _ s _. apply unchars_chars.
Qed.

Lemma forallb_true {A} (f : A -> bool) (l : list A) :
  forallb f l = true <-> Forall (fun x => f x = true) l.
Proof.
  induction l as [|x l IH]; simpl.
  - split; [constructor | reflexivity].
  - rewrite andb_true_iff, IH, Forall_cons. reflexivity.
Qed.

Lemma clean_part_spec (c : string) :
  clean_part c = true <->
  c <> "" /\ c <> "." /\ c <> ".." /\ "/"%char ∉ chars c.
Proof.
  unfold clean_part. rewrite !andb_true_iff, !negb_true_iff.
  rewrite !bool_decide_eq_false. tauto.
Qed.

(** The components [Path(s)] keeps are clean, or are [..]. *)
Lemma of_str_parts (s : string) :
  Forall (fun c => c = ".." \/ clean_part c = true) (parts (of_str s)).
Proof.
  unfold of_str. simpl. apply Forall_forall. intros c Hc.
  apply list_elem_of_In, filter_In in Hc as [Hc Hkeep].
  apply list_elem_of_In in Hc. unfold str_split in Hc.
  apply list_elem_of_fmap in Hc as (w & -> & Hw).
  pose proof (split_pieces "/"%char (chars s)) as Hpieces.
  rewrite Forall_forall in Hpieces. specialize (Hpieces w Hw).
  destruct (decide (unchars w = "..")) as [|Hdots]; [by left|right].
  unfold keep_part in Hkeep.
  apply andb_true_iff in Hkeep as [Hne Hdot].
  apply negb_true_iff, bool_decide_eq_false in Hne, Hdot.
  apply clean_part_spec. rewrite chars_unchars. tauto.
Qed.

(** Resolution removes every [..]. *)
Lemma normalize_clean (acc rest : list string) :
  Forall (fun c => clean_part c = true) acc ->
  Forall (fun c => c = ".." \/ clean_part c = true) rest ->
  Forall (fun c => clean_part c = true) (normalize acc rest).
Proof.
  revert acc. induction rest as [|c rest IH]; intros acc Hacc Hrest; simpl.
  - by apply Forall_rev.
  - apply Forall_cons in Hrest as [Hc Hrest].
    case_bool_decide as Hdots.
    + apply IH; [|exact Hrest]. destruct acc; [constructor|].
      by apply Forall_cons in Hacc as [_ Hacc].
    + apply IH; [|exact Hrest]. constructor; [|exact Hacc].
      destruct Hc; [contradiction | assumption].
Qed.

(** Without [..] there is nothing to resolve. *)
Lemma normalize_plain (acc rest : list string) :
  Forall (fun c => clean_part c = true) rest ->
  normalize acc rest = rev acc ++ rest.
Proof.
  revert acc. induction rest as [|c rest IH]; intros acc Hrest; simpl.
  - by rewrite app_nil_r.
  - apply Forall_cons in Hrest as [Hc Hrest].
    apply clean_part_spec in Hc as (_ & _ & Hdots & _).
    rewrite bool_decide_false by assumption.
    rewrite IH by assumption. simpl. by rewrite <- app_assoc.
Qed.

(** What [_validate_path] resolves: the root's components followed by the
    input's, or the input's alone when it is absolute. *)
Lemma validate_path_resolved (root pcwd : rpath) (path : string) :
  parts (resolve pcwd (truediv (abs_path root) (of_str path)))
  = normalize [] (if absolute (of_str path) then parts (of_str path)
                  else root ++ parts (of_str path)).
Proof.
  unfold resolve, truediv.
  destruct (absolute (of_str path)) eqn:Habs; simpl.
  - by rewrite Habs.
  - reflexivity.
Qed.

(** An accepted input: the path returned and the test it passed. *)
Lemma validate_path_accepted (root pcwd : rpath) (path : string) (rp : rpath) :
  FileOperations._validate_path root pcwd path = inr rp ->
  rp = normalize [] (if absolute (of_str path) then parts (of_str path)
                     else root ++ parts (of_str path))
  /\ str_startswith (rpath_str rp) (rpath_str root) = true.
Proof.
  unfold FileOperations._validate_path. cbv zeta.
  set (resolved :=
         parts (resolve pcwd (truediv (abs_path root) (of_str path)))).
  change (str (resolve pcwd (truediv (abs_path root) (of_str path))))
    with (rpath_str resolved).
  destruct (str_startswith (rpath_str resolved) (rpath_str root)) eqn:Hpre;
    simpl; [|discriminate].
  intros [= <-]. split; [apply validate_path_resolved | exact Hpre].
Qed.

(** The components of an accepted path are clean. *)
Lemma validate_path_clean (root pcwd : rpath) (path : string) (rp : rpath) :
  Forall (fun c => clean_part c = true) root ->
  FileOperations._validate_path root pcwd path = inr rp ->
  Forall (fun c => clean_part c = true) rp.
Proof.
  intros Hroot Hvalid.
  apply validate_path_accepted in Hvalid as [-> _].
  apply normalize_clean; [constructor|].
  pose proof (of_str_parts path) as Hparts.
  destruct (absolute (of_str path)); [exact Hparts|].
  apply Forall_app. split; [|exact Hparts].
  eapply Forall_impl; [exact Hroot|]. intros c Hc. by right.
Qed.

(** X1. Over a root whose components are clean (not empty, not [.] or
    [..], without a slash), every path [_validate_path] returns has clean
    components: no [..] survives the validation. *)
Theorem validate_path_normalized
    (root pcwd : rpath) (path : string) (rp : rpath) :
  forallb clean_part root = true ->
  FileOperations._validate_path root pcwd path = inr rp ->
  forallb clean_part rp = true.
Proof.
  rewrite !forallb_true. apply validate_path_clean.
Qed.

(** A traversal that stays inside the root comes back normalized. *)
Lemma validate_path_normalized_witness :
  FileOperations._validate_path ["ws"] [] "a/../b/./c//d/.." = inr ["ws"; "b"; "c"]
  /\ forallb clean_part ["ws"; "b"; "c"] = true.
Proof.
  split; [reflexivity|].
  exact (validate_path_normalized ["ws"] [] "a/../b/./c//d/.."
           ["ws"; "b"; "c"] eq_refl eq_refl).
Defined.

Lemma filter_all {A} (f : A -> bool) (l : list A) :
  Forall (fun x => f x = true) l -> List.filter f l = l.
Proof.
  induction 1 as [|x l Hx _ IH]; simpl; [reflexivity|].
  by rewrite Hx, IH.
Qed.

(** Parsing the text of a clean absolute path gives the path back. *)
Lemma of_str_rpath_str (rp : rpath) :
  Forall (fun c => clean_part c = true) rp ->
  of_str (rpath_str rp) = abs_path rp.
Proof.
  intros Hclean. unfold of_str, abs_path, str_startswith, str_split.
  rewrite rpath_str_chars.
  assert (Forall (fun w => "/"%char ∉ w) (chars <$> rp)) as Hpieces.
  { apply Forall_fmap. eapply Forall_impl; [exact Hclean|].
    intros c Hc. by apply clean_part_spec in Hc as (_ & _ & _ & Hc). }
  f_equal.
  - destruct rp as [|c rp]; [reflexivity|].
    apply Forall_cons in Hclean as [Hc _].
    apply clean_part_spec in Hc as (Hne & _ & _ & Hslash).
    assert (exists a k, join "/"%char (chars <$> c :: rp) = a :: k
                        /\ a <> "/"%char) as (a & k & -> & Ha).
    { destruct c as [|a c]; [congruence|].
      exists a. simpl in Hslash. apply not_elem_of_cons in Hslash as [Ha _].
      destruct rp; simpl; eauto. }
    simpl. destruct (decide (a = "/"%char)); [congruence|]. reflexivity.
  - change (split "/"%char ("/"%char :: join "/"%char (chars <$> rp)))
      with ([] :: split "/"%char (join "/"%char (chars <$> rp))).
    destruct rp as [|c rp]; [reflexivity|].
    rewrite split_join by (assumption || discriminate).
    rewrite fmap_cons, fmap_unchars_chars.
    change (List.filter keep_part (unchars [] :: c :: rp))
      with (List.filter keep_part (c :: rp)).
    apply filter_all. eapply Forall_impl; [exact Hclean|].
    intros c' Hc'. apply clean_part_spec in Hc' as (Hne & Hdot & _).
    unfold keep_part. by rewrite !bool_decide_false.
Qed.

(** X2. Validation is idempotent: the text of a path [_validate_path]
    returned is accepted again, whatever the current directory, and gives
    the same path. *)
Theorem validate_path_idempotent
    (root pcwd pcwd' : rpath) (path : string) (rp : rpath) :
  forallb clean_part root = true ->
  FileOperations._validate_path root pcwd path = inr rp ->
  FileOperations._validate_path root pcwd' (rpath_str rp) = inr rp.
Proof.
  intros Hroot Hvalid. apply forallb_true in Hroot.
  pose proof (validate_path_clean root pcwd path rp Hroot Hvalid) as Hclean.
  apply validate_path_accepted in Hvalid as [_ Hpre].
  unfold FileOperations._validate_path. cbv zeta.
  assert (parts (resolve pcwd' (truediv (abs_path root) (of_str (rpath_str rp))))
          = rp) as Hsame.
  { rewrite validate_path_resolved, of_str_rpath_str by assumption.
    simpl. by rewrite normalize_plain. }
  change (str (resolve pcwd' (truediv (abs_path root) (of_str (rpath_str rp)))))
    with (rpath_str
            (parts (resolve pcwd'
                      (truediv (abs_path root) (of_str (rpath_str rp)))))).
  rewrite Hsame, Hpre. reflexivity.
Qed.

(** Validating the text of a validated path. *)
Lemma validate_path_idempotent_witness :
  FileOperations._validate_path ["ws"] ["tmp"] "/ws/b/c" = inr ["ws"; "b"; "c"].
Proof.
  exact (validate_path_idempotent ["ws"] [] ["tmp"] "a/../b/./c"
           ["ws"; "b"; "c"] eq_refl eq_refl).
Defined.

Lemma startswith_cons {A} `{EqDecision A} (a : A) (s t : list A) :
  startswith (a :: s) (a :: t) = startswith s t.
Proof. simpl. destruct (decide (a = a)); [reflexivity | congruence]. Qed.

Lemma startswith_fmap_inj {A B} `{EqDecision A} `{EqDecision B}
    (f : A -> B) (ps rs : list A) :
  (forall x y, f x = f y -> x = y) ->
  startswith (f <$> ps) (f <$> rs) = true -> startswith ps rs = true.
Proof.
  intros Hinj. revert ps. induction rs as [|r rs IH]; intros [|p ps] Hpre;
    try reflexivity; try discriminate.
  simpl in *. destruct (decide (f p = f r)) as [Heq|]; [|discriminate].
  apply Hinj in Heq as ->.
  destruct (decide (r = r)); [auto | congruence].
Qed.

(** X3. A path [_validate_path] accepts lies inside the root, or inside a
    sibling of the root whose name is the root's name extended: with the
    root [/a/ws], only directories [/a/ws...] can be reached, never
    another part of the file system. *)
Theorem validate_path_escape_extent
    (root pcwd : rpath) (path : string) (rp : rpath) :
  forallb clean_part root = true ->
  FileOperations._validate_path root pcwd path = inr rp ->
  inside root rp = true
  \/ exists pre name ext rest,
      root = pre ++ [name]
      /\ rp = pre ++ [name +:+ ext] ++ rest
      /\ ext <> "".
Proof.
  intros Hroot Hvalid. apply forallb_true in Hroot.
  pose proof (validate_path_clean root pcwd path rp Hroot Hvalid) as Hclean.
  apply validate_path_accepted in Hvalid as [_ Hpre].
  unfold str_startswith in Hpre. rewrite !rpath_str_chars in Hpre.
  rewrite startswith_cons in Hpre.
  apply startswith_join_pieces in Hpre
    as [Hin | (pre & r & ext & rest & Hroot' & Hrp' & Hext)].
  - left. unfold inside. apply (startswith_fmap_inj chars); [|exact Hin].
    intros x y Hxy. rewrite <- (unchars_chars x), <- (unchars_chars y).
    by rewrite Hxy.
  - right. exists (unchars <$> pre), (unchars r), (unchars ext),
      (unchars <$> rest).
    apply (f_equal (fmap unchars)) in Hroot', Hrp'.
    rewrite fmap_unchars_chars in Hroot', Hrp'.
    rewrite Hroot', Hrp', !fmap_app. simpl. rewrite unchars_app.
    repeat split. destruct ext; [congruence | discriminate].
  - apply Forall_fmap. eapply Forall_impl; [exact Hclean|].
    intros c Hc. by apply clean_part_spec in Hc as (_ & _ & _ & Hc).
  - apply Forall_fmap. eapply Forall_impl; [exact Hroot|].
    intros c Hc. apply clean_part_spec in Hc as (Hne & _ & _ & Hc).
    split; [exact Hc|]. destruct c; [congruence | discriminate].
Qed.

(** An input that leaves the root's parent is rejected. *)
Lemma validate_path_escape_extent_witness :
  inside ["srv"; "ws"] ["srv"; "ws2"; "secret"] = true
  \/ exists pre name ext rest,
      ["srv"; "ws"] = pre ++ [name]
      /\ ["srv"; "ws2"; "secret"] = pre ++ [name +:+ ext] ++ rest
      /\ ext <> "".
Proof.
  exact (validate_path_escape_extent ["srv"; "ws"] [] "../ws2/secret"
           ["srv"; "ws2"; "secret"] eq_refl eq_refl).
Defined.

(** ** Reading *)

Lemma concat_lines_from (cur s : pystr) :
  concat (lines_from cur s) = rev cur ++ s.
Proof.
  revert cur. induction s as [|c s IH]; intros cur; simpl.
  - destruct cur; simpl; by rewrite ?app_nil_r.
  - destruct (c =? LF)%N; simpl; rewrite IH; simpl;
      by rewrite <- ?app_assoc.
Qed.

(** The lines of a file, put together, are the text read. *)
Lemma concat_readlines (content : pystr) :
  concat (readlines content) = universal_newlines content.
Proof. unfold readlines. by rewrite concat_lines_from. Qed.

Lemma slice_bound_nat (n a : nat) : slice_bound n (Z.of_nat a) = min a n.
Proof.
  unfold slice_bound.
  replace (Z.of_nat a <? 0)%Z with false by (symmetry; apply Z.ltb_ge; lia).
  lia.
Qed.

(** A slice between two natural bounds. *)
Lemma py_slice_nat {A} (l : list A) (a b : nat) :
  py_slice l (Z.of_nat a) (Z.of_nat b) = drop a (take b l).
Proof.
  unfold py_slice. rewrite !slice_bound_nat.
  destruct (decide (length l <= a)) as [Hge|Hlt].
  - rewrite (drop_ge l) by lia. rewrite take_nil.
    symmetry. apply drop_ge. rewrite length_take. lia.
  - replace (a `min` length l) with a by lia.
    destruct (decide (b <= a)) as [Hba|Hab].
    + replace (b `min` length l - a) with 0 by lia.
      symmetry. apply drop_ge. rewrite length_take. lia.
    + rewrite take_drop_commute.
      replace (a + (b `min` length l - a)) with (b `min` length l) by lia.
      f_equal. destruct (decide (b <= length l)) as [Hb|Hb].
      * by replace (b `min` length l) with b by lia.
      * replace (b `min` length l) with (length l) by lia.
        by rewrite !take_ge by lia.
Qed.

Lemma py_slice_all {A} (l : list A) :
  py_slice l 0 (Z.of_nat (length l)) = l.
Proof.
  change 0%Z with (Z.of_nat 0).
  rewrite (py_slice_nat l 0 (length l)). by rewrite take_ge, drop_0.
Qed.

Section ReadFacts.
Variables (root pcwd : rpath).

(** [read_file], run on a validated path that holds a regular file of
    UTF-8 text. *)
Lemma read_file_run (path : string) (start_line end_line : option Z)
    (w : world) (rp : rpath) (content : pystr) :
  FileOperations._validate_path root pcwd path = inr rp ->
  fs w !! rp = Some (File content) ->
  forallb utf8_encodable content = true ->
  FileOps.read_file root pcwd path start_line end_line w
  = (w, inr match start_line, end_line with
            | None, None => universal_newlines content
            | _, _ =>
                concat (py_slice (readlines content)
                          match start_line with
                          | Some s => if (s =? 0)%Z then 0%Z else (s - 1)%Z
                          | None => 0%Z
                          end
                          match end_line with
                          | Some e => if (e =? 0)%Z
                                      then Z.of_nat (length (readlines content))
                                      else e
                          | None => Z.of_nat (length (readlines content))
                          end)
            end).
Proof.
  intros Hvalid Hfile Htext.
  unfold FileOps.read_file, read_text, bind, lift, get_fs, raise, ret,
    is_file.
  rewrite Hvalid. simpl. rewrite Hfile. simpl. rewrite Hfile, Htext.
  destruct start_line, end_line; reflexivity.
Qed.

(** [read_file] on a regular file that is not UTF-8 text. *)
Lemma read_file_undecodable (path : string) (start_line end_line : option Z)
    (w : world) (rp : rpath) (content : pystr) :
  FileOperations._validate_path root pcwd path = inr rp ->
  fs w !! rp = Some (File content) ->
  forallb utf8_encodable content = false ->
  FileOps.read_file root pcwd path start_line end_line w
  = (w, inl (Library Open UNDECODABLE)).
Proof.
  intros Hvalid Hfile Htext.
  unfold FileOps.read_file, read_text, bind, lift, get_fs, raise, ret,
    is_file.
  rewrite Hvalid. simpl. rewrite Hfile. simpl. by rewrite Hfile, Htext.
Qed.

(** X4. On a regular file of UTF-8 text, [read_file(path, s, e)] with
    line numbers [1 <= s] and [1 <= e] returns lines [s] to [e] of the
    file, both included and counted from 1, clipped to the lines there
    are: nothing when [s] is past the last line or [e < s], and no error
    for a line number out of range. With no line numbers it returns the
    text of the file, which is also all its lines put together. The world
    is left as it was. On a regular file that is not UTF-8 text, the call
    raises [UnicodeDecodeError] whatever the line numbers. *)
Theorem read_file_line_range (path : string) (w : world) (rp : rpath)
    (content : pystr) :
  FileOperations._validate_path root pcwd path = inr rp ->
  fs w !! rp = Some (File content) ->
  (forallb utf8_encodable content = true ->
   (forall s e : nat,
       1 <= s -> 1 <= e ->
       FileOps.read_file root pcwd path
         (Some (Z.of_nat s)) (Some (Z.of_nat e)) w
       = (w, inr (concat (drop (s - 1) (take e (readlines content))))))
   /\ FileOps.read_file root pcwd path None None w
      = (w, inr (concat (readlines content))))
  /\ (forallb utf8_encodable content = false ->
      forall start_line end_line,
        FileOps.read_file root pcwd path start_line end_line w
        = (w, inl (Library Open UNDECODABLE))).
Proof.
  intros Hvalid Hfile. split; [intros Htext; split|].
  - intros s e Hs He.
    rewrite (read_file_run path _ _ w rp content Hvalid Hfile Htext).
    replace (Z.of_nat s =? 0)%Z with false by (symmetry; apply Z.eqb_neq; lia).
    replace (Z.of_nat e =? 0)%Z with false by (symmetry; apply Z.eqb_neq; lia).
    replace (Z.of_nat s - 1)%Z with (Z.of_nat (s - 1)) by lia.
    by rewrite py_slice_nat.
  - rewrite (read_file_run path _ _ w rp content Hvalid Hfile Htext).
    by rewrite concat_readlines.
  - intros Htext start_line end_line.
    exact (read_file_undecodable path start_line end_line w rp content
             Hvalid Hfile Htext).
Qed.

(** X5. A line number 0 is read as no line number: [start_line=0] starts
    at the first line and [end_line=0] ends at the last line (it does not
    give the empty text). *)
Theorem read_file_zero_line_numbers (path : string) (w : world) (rp : rpath)
    (content : pystr) (start_line end_line : option Z) :
  FileOperations._validate_path root pcwd path = inr rp ->
  fs w !! rp = Some (File content) ->
  FileOps.read_file root pcwd path (Some 0%Z) end_line w
  = FileOps.read_file root pcwd path None end_line w
  /\ FileOps.read_file root pcwd path start_line (Some 0%Z) w
     = FileOps.read_file root pcwd path start_line None w.
Proof.
  intros Hvalid Hfile.
  destruct (forallb utf8_encodable content) eqn:Htext;
    [|by rewrite !(read_file_undecodable path _ _ w rp content
                     Hvalid Hfile Htext)].
  rewrite !(read_file_run path _ _ w rp content Hvalid Hfile Htext). simpl.
  split.
  - destruct end_line as [e|]; [reflexivity|].
    by rewrite py_slice_all, concat_readlines.
  - destruct start_line as [s|]; [reflexivity|].
    by rewrite py_slice_all, concat_readlines.
Qed.

End ReadFacts.

(** Lines 2 to 3 of the sample file, a range past its end, and a file
    holding a byte that is not UTF-8. *)
Lemma read_file_line_range_witness :
  FileOps.read_file ["ws"] [] "log.txt" (Some 2%Z) (Some 3%Z) log_world
  = (log_world, inr (u "cd" ++ [LF] ++ u "ef"))
  /\ FileOps.read_file ["ws"] [] "log.txt" (Some 4%Z) (Some 9%Z) log_world
     = (log_world, inr [])
  /\ FileOps.read_file ["ws"] [] "raw.bin" (Some 1%Z) None
       (mkWorld (<[ ["ws"; "raw.bin"] := File [0xDC80%N] ]> (fs tree_world))
          [])
     = (mkWorld (<[ ["ws"; "raw.bin"] := File [0xDC80%N] ]> (fs tree_world))
          [],
        inl (Library Open UNDECODABLE)).
Proof.
  assert (fs log_world !! ["ws"; "log.txt"] = Some (File log_text)) as Hfile
    by (vm_compute; reflexivity).
  destruct (read_file_line_range ["ws"] [] "log.txt" log_world
              ["ws"; "log.txt"] log_text eq_refl Hfile) as [Htext _].
  destruct (Htext eq_refl) as [Hrange _].
  split; [apply (Hrange 2 3); lia|].
  split; [apply (Hrange 4 9); lia|].
  apply (read_file_line_range ["ws"] [] "raw.bin" _ ["ws"; "raw.bin"]
           [0xDC80%N] eq_refl (lookup_insert_eq _ _ _)).
  reflexivity.
Defined.

(** [end_line=0] on the sample file gives the whole file from line 2. *)
Lemma read_file_zero_line_numbers_witness :
  FileOps.read_file ["ws"] [] "log.txt" (Some 2%Z) (Some 0%Z) log_world
  = FileOps.read_file ["ws"] [] "log.txt" (Some 2%Z) None log_world.
Proof.
  assert (fs log_world !! ["ws"; "log.txt"] = Some (File log_text)) as Hfile
    by (vm_compute; reflexivity).
  exact (proj2 (read_file_zero_line_numbers ["ws"] [] "log.txt" log_world
                  ["ws"; "log.txt"] log_text (Some 2%Z) None eq_refl Hfile)).
Defined.

(** ** Directories *)

Lemma parent_snoc (p : rpath) (c : string) : parent (p ++ [c]) = p.
Proof. apply removelast_last. Qed.

Lemma node_at_insert_ne (f : filesystem) (p q : rpath) (x : node) :
  p <> q -> node_at (<[p := x]> f) q = node_at f q.
Proof.
  intros Hne. destruct q; [reflexivity|]. simpl. by rewrite lookup_insert_ne.
Qed.

(** The three outcomes of the last step of [makedirs]: the directory is
    made, was there, or cannot be made. *)
Lemma mkdir_exist_ok_cases (p : rpath) (f f1 : filesystem) (o : option N) :
  mkdir_exist_ok p f = (f1, o) ->
  (o = None /\ f1 = <[p := Dir]> f /\ f !! p = None /\ p <> []
   /\ is_dir f (parent p) = true)
  \/ (o = None /\ f1 = f /\ is_dir f p = true)
  \/ (exists e, o = Some e /\ f1 = f /\ is_dir f p = false
                /\ os_mkdir p f = inl e).
Proof.
  unfold mkdir_exist_ok.
  destruct (os_mkdir p f) as [e|f'] eqn:Hmk.
  - destruct (is_dir f p) eqn:Hdir; intros [= <- <-]; eauto 10.
  - intros [= <- <-]. left. unfold os_mkdir in Hmk.
    destruct p as [|c p]; [discriminate|].
    unfold is_dir. destruct (node_at f (parent (c :: p))) as [[| |]|];
      try discriminate.
    destruct (f !! (c :: p)) eqn:Hp; [discriminate|].
    injection Hmk as <-. by repeat split.
Qed.

Lemma os_mkdir_exists (p : rpath) (f : filesystem) :
  os_mkdir p f = inl EEXIST -> is_Some (node_at f p).
Proof.
  unfold os_mkdir. destruct p as [|c p]; [by eexists|].
  destruct (node_at f (parent (c :: p))) as [[| |]|]; try discriminate.
  simpl. destruct (f !! (c :: p)); [eauto | discriminate].
Qed.

(** [makedirs] adds directories on the way to its target and changes
    nothing else. *)
Lemma makedirs_rev_adds (rp : list string) (f f1 : filesystem)
    (o : option N) :
  makedirs_rev rp f = (f1, o) ->
  forall q,
    f1 !! q = f !! q
    \/ (f !! q = None /\ f1 !! q = Some Dir /\ exists k, rev rp = q ++ k).
Proof.
  revert f f1 o. induction rp as [|t rhead IH]; intros f f1 o Hrun q.
  - simpl in Hrun. apply mkdir_exist_ok_cases in Hrun
      as [(_ & _ & _ & Hne & _) | [(_ & -> & _) | (e & _ & -> & _)]];
      [congruence | by left..].
  - assert (forall g : filesystem,
               (forall q, g !! q = f !! q
                          \/ (f !! q = None /\ g !! q = Some Dir
                              /\ exists k, rev rhead = q ++ k)) ->
               mkdir_exist_ok (rev (t :: rhead)) g = (f1, o) ->
               f1 !! q = f !! q
               \/ (f !! q = None /\ f1 !! q = Some Dir
                   /\ exists k, rev (t :: rhead) = q ++ k)) as Hlast.
    { intros g Hg Hstep. simpl rev in *.
      apply mkdir_exist_ok_cases in Hstep
        as [(_ & -> & Hfree & _ & _) | [(_ & -> & _) | (e & _ & -> & _)]].
      - destruct (decide (q = rev rhead ++ [t])) as [->|Hq].
        + right. rewrite lookup_insert_eq.
          destruct (Hg (rev rhead ++ [t])) as [Heq | (Hnone & _)];
            [rewrite <- Heq|]; repeat split; try assumption;
            exists []; by rewrite app_nil_r.
        + rewrite lookup_insert_ne by congruence.
          destruct (Hg q) as [Heq | (Hnone & Hdir & k & Hk)]; [by left|].
          right. repeat split; try assumption.
          exists (k ++ [t]). by rewrite Hk, <- app_assoc.
      - destruct (Hg q) as [Heq | (Hnone & Hdir & k & Hk)]; [by left|].
        right. repeat split; try assumption.
        exists (k ++ [t]). by rewrite Hk, <- app_assoc.
      - destruct (Hg q) as [Heq | (Hnone & Hdir & k & Hk)]; [by left|].
        right. repeat split; try assumption.
        exists (k ++ [t]). by rewrite Hk, <- app_assoc. }
    simpl in Hrun.
    destruct (negb _).
    + destruct (makedirs_rev rhead f) as [g [errno|]] eqn:Hhead.
      * destruct (errno =? EEXIST)%N.
        -- apply (Hlast g); [|exact Hrun]. intros q'. by eapply IH.
        -- injection Hrun as <- <-.
           destruct (IH _ _ _ Hhead q) as [Heq | (Hnone & Hdir & k & Hk)];
             [by left|].
           right. repeat split; try assumption.
           exists (k ++ [t]). simpl. by rewrite Hk, <- app_assoc.
      * apply (Hlast g); [|exact Hrun]. intros q'. by eapply IH.
    + apply (Hlast f); [|exact Hrun]. intros q'. by left.
Qed.

Lemma is_dir_exists (f : filesystem) (p : rpath) :
  is_dir f p = true -> is_Some (node_at f p).
Proof. unfold is_dir. destruct (node_at f p); [eauto | discriminate]. Qed.

Lemma node_at_insert_eq (f : filesystem) (p : rpath) :
  p <> [] -> node_at (<[p := Dir]> f) p = Some Dir.
Proof. destruct p; [congruence|]. intros _. simpl. apply lookup_insert_eq. Qed.

(** After [makedirs] returned, or raised [FileExistsError], something
    stands at its target. *)
Lemma makedirs_rev_target (rp : list string) (f f1 : filesystem)
    (o : option N) :
  makedirs_rev rp f = (f1, o) -> o = None \/ o = Some EEXIST ->
  is_Some (node_at f1 (rev rp)).
Proof.
  intros Hrun Ho. destruct rp as [|t rhead]; [by eexists|].
  simpl in Hrun. simpl rev.
  assert (exists g, mkdir_exist_ok (rev rhead ++ [t]) g = (f1, o))
    as [g Hstep].
  { destruct (negb _); [|eauto].
    destruct (makedirs_rev rhead f) as [g [errno|]]; [|eauto].
    destruct (errno =? EEXIST)%N eqn:He; [eauto|].
    injection Hrun as <- <-. apply N.eqb_neq in He.
    destruct Ho as [|[= ->]]; [discriminate | congruence]. }
  apply mkdir_exist_ok_cases in Hstep
    as [(_ & -> & _ & Hne & _) | [(_ & -> & Hdir) | (e & -> & -> & _ & Hmk)]].
  - rewrite node_at_insert_eq by assumption. by eexists.
  - by apply is_dir_exists.
  - destruct Ho as [|[= ->]]; [discriminate|]. by apply os_mkdir_exists.
Qed.

(** [makedirs] returns through its last step, run where the parent of
    the target exists. *)
Lemma makedirs_rev_last (rp : list string) (f f1 : filesystem) :
  makedirs_rev rp f = (f1, None) ->
  exists g,
    mkdir_exist_ok (rev rp) g = (f1, None)
    /\ is_Some (node_at g (parent (rev rp))).
Proof.
  destruct rp as [|t rhead]; simpl; intros Hrun.
  - exists f. split; [exact Hrun | by eexists].
  - rewrite parent_snoc.
    destruct (negb _) eqn:Hmissing.
    + destruct (makedirs_rev rhead f) as [g o'] eqn:Hhead.
      assert (o' = None \/ o' = Some EEXIST) as Ho'.
      { destruct o' as [errno|]; [|by left].
        destruct (errno =? EEXIST)%N eqn:He; [|discriminate].
        apply N.eqb_eq in He as ->. by right. }
      exists g. split.
      * destruct o' as [errno|]; [|exact Hrun].
        destruct (errno =? EEXIST)%N; [exact Hrun | discriminate].
      * by eapply makedirs_rev_target.
    + exists f. split; [exact Hrun|].
      apply negb_false_iff, bool_decide_eq_true in Hmissing. exact Hmissing.
Qed.

(** A successful [makedirs] leaves a directory at its target, under a
    parent that exists. *)
Lemma makedirs_success (p : rpath) (f f1 : filesystem) :
  makedirs p f = (f1, None) ->
  is_dir f1 p = true /\ is_Some (node_at f1 (parent p)).
Proof.
  unfold makedirs. intros Hrun.
  apply makedirs_rev_last in Hrun as (g & Hstep & Hparent).
  rewrite rev_involutive in Hstep, Hparent.
  apply mkdir_exist_ok_cases in Hstep
    as [(_ & -> & _ & Hne & Hpdir) | [(_ & -> & Hdir) | (e & ? & _)]];
    [| |discriminate].
  - split.
    + unfold is_dir. destruct p; [congruence|]. simpl.
      by rewrite lookup_insert_eq.
    + destruct (decide (p = parent p)) as [Heq|Hneq].
      * rewrite <- Heq. destruct p; [by eexists|]. simpl.
        rewrite lookup_insert_eq. by eexists.
      * by rewrite node_at_insert_ne.
  - by split.
Qed.

(** Where the target is a directory under an existing parent, [makedirs]
    does nothing. *)
Lemma makedirs_existing (p : rpath) (g : filesystem) :
  is_dir g p = true -> is_Some (node_at g (parent p)) ->
  makedirs p g = (g, None).
Proof.
  intros Hdir Hparent. unfold makedirs.
  assert (mkdir_exist_ok p g = (g, None)) as Hstep.
  { unfold mkdir_exist_ok. destruct (os_mkdir p g) as [e|g'] eqn:Hmk.
    - by rewrite Hdir.
    - exfalso. unfold os_mkdir in Hmk. destruct p as [|c p]; [discriminate|].
      destruct (node_at g (parent (c :: p))) as [[| |]|]; try discriminate.
      unfold is_dir in Hdir. simpl in Hdir.
      destruct (g !! (c :: p)); discriminate. }
  destruct (rev p) as [|t rhead] eqn:Hrev.
  - apply (f_equal (@rev _)) in Hrev. rewrite rev_involutive in Hrev.
    subst p. exact Hstep.
  - apply (f_equal (@rev _)) in Hrev. rewrite rev_involutive in Hrev.
    simpl in Hrev. subst p. simpl. rewrite parent_snoc in Hparent.
    rewrite bool_decide_true by assumption. exact Hstep.
Qed.

Lemma parent_ne (p : rpath) : p <> [] -> parent p <> p.
Proof.
  intros Hne Heq. destruct (exists_last Hne) as (p' & c & ->).
  rewrite parent_snoc in Heq. apply (f_equal length) in Heq.
  rewrite length_app in Heq. simpl in Heq. lia.
Qed.

(** A directory made inside a directory keeps the tree a tree. *)
Lemma insert_dir_tree (f : filesystem) (p : rpath) :
  is_tree f -> p <> [] -> is_dir f (parent p) = true ->
  is_tree (<[p := Dir]> f).
Proof.
  intros Htree Hne Hparent q x Hq.
  assert (forall r, is_dir f r = true -> is_dir (<[p := Dir]> f) r = true)
    as Hkeep.
  { intros r Hr. unfold is_dir in *.
    destruct (decide (p = r)) as [<-|Hpr]; [|by rewrite node_at_insert_ne].
    destruct p; [congruence|]. simpl. by rewrite lookup_insert_eq. }
  destruct (decide (p = q)) as [<-|Hpq].
  - split; [exact Hne | by apply Hkeep].
  - rewrite lookup_insert_ne in Hq by assumption.
    destruct (Htree q x Hq) as [Hqne Hqdir]. split; [exact Hqne|].
    by apply Hkeep.
Qed.

Lemma mkdir_exist_ok_tree (p : rpath) (f f1 : filesystem) (o : option N) :
  is_tree f -> mkdir_exist_ok p f = (f1, o) -> is_tree f1.
Proof.
  intros Htree Hstep. apply mkdir_exist_ok_cases in Hstep
    as [(_ & -> & _ & Hne & Hdir) | [(_ & -> & _) | (e & _ & -> & _)]];
    [by apply insert_dir_tree | assumption..].
Qed.

(** [makedirs] keeps a tree a tree, whether it returns or raises. *)
Lemma makedirs_rev_tree (rp : list string) (f f1 : filesystem)
    (o : option N) :
  is_tree f -> makedirs_rev rp f = (f1, o) -> is_tree f1.
Proof.
  revert f f1 o. induction rp as [|t rhead IH]; intros f f1 o Htree Hrun;
    simpl in Hrun.
  - by eapply mkdir_exist_ok_tree.
  - destruct (negb _); [|by eapply mkdir_exist_ok_tree].
    destruct (makedirs_rev rhead f) as [g [errno|]] eqn:Hhead.
    + destruct (errno =? EEXIST)%N.
      * eapply mkdir_exist_ok_tree; [|exact Hrun]. by eapply IH.
      * injection Hrun as <- <-. by eapply IH.
    + eapply mkdir_exist_ok_tree; [|exact Hrun]. by eapply IH.
Qed.

(** In a tree, the ancestors of a directory are directories. *)
Lemma tree_ancestors (f : filesystem) (k q : rpath) :
  is_tree f -> is_dir f (q ++ k) = true -> is_dir f q = true.
Proof.
  intros Htree. induction k as [|c k IH] using rev_ind; intros Hdir.
  - by rewrite app_nil_r in Hdir.
  - apply IH. rewrite app_assoc in Hdir. unfold is_dir in Hdir.
    destruct ((q ++ k) ++ [c]) as [|c' p'] eqn:Hp;
      [by destruct (q ++ k)|].
    simpl in Hdir. destruct (f !! (c' :: p')) as [x|] eqn:Hx; [|discriminate].
    destruct (Htree _ _ Hx) as [_ Hparent].
    by rewrite <- Hp, parent_snoc in Hparent.
Qed.

Lemma is_file_lookup (f : filesystem) (p : rpath) :
  is_file f p = true -> exists c, f !! p = Some (File c).
Proof.
  unfold is_file. destruct (f !! p) as [[c| |]|]; try discriminate. eauto.
Qed.

Lemma os_mkdir_snoc (head : rpath) (t : string) (f : filesystem) :
  os_mkdir (head ++ [t]) f
  = match node_at f head with
    | None => inl ENOENT
    | Some Dir =>
        match f !! (head ++ [t]) with
        | Some _ => inl EEXIST
        | None => inr (<[head ++ [t] := Dir]> f)
        end
    | Some _ => inl ENOTDIR
    end.
Proof.
  unfold os_mkdir. destruct (head ++ [t]) eqn:Hp; [by destruct head|].
  by rewrite <- Hp, parent_snoc.
Qed.

(** Where the parent exists and [mkdir] fails on something that is not a
    directory, [makedirs] raises that error and changes nothing. *)
Lemma makedirs_blocked (head : rpath) (t : string) (f : filesystem) (e : N) :
  is_Some (node_at f head) ->
  is_dir f (head ++ [t]) = false ->
  os_mkdir (head ++ [t]) f = inl e ->
  makedirs (head ++ [t]) f = (f, Some e).
Proof.
  intros Hhead Hdir Hmk. unfold makedirs. rewrite rev_app_distr. simpl.
  rewrite rev_involutive. rewrite bool_decide_true by assumption. simpl.
  unfold mkdir_exist_ok. by rewrite Hmk, Hdir.
Qed.

Section DirectoryFacts.
Variables (root pcwd : rpath).

Lemma create_directory_run (path : string) (w : world) (rp : rpath) :
  FileOperations._validate_path root pcwd path = inr rp ->
  FileOps.create_directory root pcwd path w
  = match makedirs rp (fs w) with
    | (f1, Some errno) => (mkWorld f1 (spawned w), inl (MakedirsError errno))
    | (f1, None) => (mkWorld f1 (spawned w), inr tt)
    end.
Proof. intros Hvalid. unfold FileOps.create_directory. by rewrite Hvalid. Qed.

(** X6. When [create_directory] returns, the validated path is a
    directory; every entry that was there is still there, unchanged; and
    the only new entries are directories on the way from the root to the
    target. No child process is requested. *)
Theorem create_directory_postcondition
    (path : string) (w w1 : world) (rp : rpath) :
  FileOperations._validate_path root pcwd path = inr rp ->
  FileOps.create_directory root pcwd path w = (w1, inr tt) ->
  is_dir (fs w1) rp = true
  /\ (forall q x, fs w !! q = Some x -> fs w1 !! q = Some x)
  /\ (forall q, fs w1 !! q <> fs w !! q ->
                fs w !! q = None /\ fs w1 !! q = Some Dir
                /\ exists k, rp = q ++ k)
  /\ spawned w1 = spawned w.
Proof.
  intros Hvalid Hrun. rewrite (create_directory_run path w rp Hvalid) in Hrun.
  destruct (makedirs rp (fs w)) as [f1 [errno|]] eqn:Hmk; [discriminate|].
  injection Hrun as <-. simpl.
  pose proof (makedirs_rev_adds _ _ _ _ Hmk) as Hadds.
  rewrite rev_involutive in Hadds.
  split; [by apply makedirs_success in Hmk as [Hdir _]|].
  split; [|split; [|reflexivity]].
  - intros q x Hq. destruct (Hadds q) as [Heq | (Hnone & _)]; congruence.
  - intros q Hq. destruct (Hadds q) as [Heq | Hnew]; [congruence | exact Hnew].
Qed.

(** X7. [create_directory] is idempotent: called again after it
    returned, it returns again and changes nothing. *)
Theorem create_directory_idempotent
    (path : string) (w w1 : world) (rp : rpath) :
  FileOperations._validate_path root pcwd path = inr rp ->
  FileOps.create_directory root pcwd path w = (w1, inr tt) ->
  FileOps.create_directory root pcwd path w1 = (w1, inr tt).
Proof.
  intros Hvalid Hrun. rewrite (create_directory_run path w rp Hvalid) in Hrun.
  destruct (makedirs rp (fs w)) as [f1 [errno|]] eqn:Hmk; [discriminate|].
  injection Hrun as <-.
  rewrite (create_directory_run path _ rp Hvalid). simpl.
  apply makedirs_success in Hmk as [Hdir Hparent].
  by rewrite makedirs_existing.
Qed.

(** X8. [create_directory] keeps the file system a tree (every entry lies
    in a directory), whether it returns or raises; and when it returns
    over a tree, every ancestor of the new directory is a directory. *)
Theorem create_directory_tree
    (path : string) (w w1 : world) (rp : rpath) (r : fexn + unit) :
  is_tree (fs w) ->
  FileOperations._validate_path root pcwd path = inr rp ->
  FileOps.create_directory root pcwd path w = (w1, r) ->
  is_tree (fs w1)
  /\ (r = inr tt -> forall q k, rp = q ++ k -> is_dir (fs w1) q = true).
Proof.
  intros Htree Hvalid Hrun.
  rewrite (create_directory_run path w rp Hvalid) in Hrun.
  destruct (makedirs rp (fs w)) as [f1 o] eqn:Hmk.
  assert (is_tree f1) as Htree1 by (by eapply makedirs_rev_tree).
  destruct o as [errno|]; injection Hrun as <- <-; simpl;
    (split; [exact Htree1|]); [discriminate|].
  intros _ q k ->. apply (tree_ancestors f1 k q Htree1).
  by apply makedirs_success in Hmk as [Hdir _].
Qed.

(** X9. Over a tree: where a regular file stands at the validated path,
    [create_directory] raises the [OSError] with errno [EEXIST]
    ([FileExistsError]); where the parent of the validated path is a
    regular file, it raises the one with errno [ENOTDIR]
    ([NotADirectoryError]). In both cases the world is unchanged. *)
Theorem create_directory_over_file
    (path : string) (w : world) (rp : rpath) :
  is_tree (fs w) ->
  FileOperations._validate_path root pcwd path = inr rp ->
  (is_file (fs w) rp = true ->
   FileOps.create_directory root pcwd path w
   = (w, inl (MakedirsError EEXIST)))
  /\ (is_file (fs w) (parent rp) = true -> fs w !! rp = None ->
      FileOps.create_directory root pcwd path w
      = (w, inl (MakedirsError ENOTDIR))).
Proof.
  intros Htree Hvalid. rewrite (create_directory_run path w rp Hvalid).
  destruct w as [f log]. simpl in *. split.
  - intros Hfile. apply is_file_lookup in Hfile as [c Hrp].
    destruct (Htree rp _ Hrp) as [Hne Hparent].
    destruct (exists_last Hne) as (head & t & ->).
    rewrite parent_snoc in Hparent.
    rewrite (makedirs_blocked head t f EEXIST); [reflexivity | | |].
    + by apply is_dir_exists.
    + unfold is_dir. destruct (head ++ [t]); [by destruct head|].
      simpl in *. by rewrite Hrp.
    + rewrite os_mkdir_snoc. unfold is_dir in Hparent.
      destruct (node_at f head) as [[| |]|]; try discriminate.
      by rewrite Hrp.
  - intros Hfile Hrp. apply is_file_lookup in Hfile as [c Hhead].
    destruct (Htree _ _ Hhead) as [Hne _].
    assert (rp <> []) as Hrpne by (intros ->; by apply Hne).
    destruct (exists_last Hrpne) as (head & t & ->).
    rewrite parent_snoc in Hhead, Hne.
    assert (node_at f head = Some (File c)) as Hnode
      by (destruct head; [congruence | exact Hhead]).
    rewrite (makedirs_blocked head t f ENOTDIR); [reflexivity | | |].
    + rewrite Hnode. by eexists.
    + unfold is_dir. destruct (head ++ [t]); [by destruct head|].
      simpl in *. by rewrite Hrp.
    + rewrite os_mkdir_snoc. by rewrite Hnode.
Qed.

End DirectoryFacts.

(** The sample tree is a tree. *)
Lemma tree_world_is_tree : is_tree (fs tree_world).
Proof.
  intros p x Hp. unfold tree_world, bare_world in Hp. simpl in Hp.
  repeat (apply lookup_insert_Some in Hp as [[<- <-] | [_ Hp]];
          [split; [discriminate | vm_compute; reflexivity]|]).
  by rewrite lookup_empty in Hp.
Qed.

(** [create_directory("a/b")] in the sample tree makes [a] and [a/b] and
    keeps the file that was there. *)
Lemma create_directory_postcondition_witness :
  is_dir (fs made_world) ["ws"; "a"; "b"] = true
  /\ fs made_world !! ["ws"; "notes.txt"] = Some (File (u "todo")).
Proof.
  assert (FileOps.create_directory ["ws"] [] "a/b" tree_world
          = (made_world, inr tt)) as Hrun by (vm_compute; reflexivity).
  destruct (create_directory_postcondition ["ws"] [] "a/b" tree_world
              made_world ["ws"; "a"; "b"] eq_refl Hrun)
    as (Hdir & Hkept & _).
  split; [exact Hdir|]. apply Hkept. vm_compute. reflexivity.
Defined.

Lemma create_directory_idempotent_witness :
  FileOps.create_directory ["ws"] [] "a/b" made_world = (made_world, inr tt).
Proof.
  assert (FileOps.create_directory ["ws"] [] "a/b" tree_world
          = (made_world, inr tt)) as Hrun by (vm_compute; reflexivity).
  exact (create_directory_idempotent ["ws"] [] "a/b" tree_world made_world
           ["ws"; "a"; "b"] eq_refl Hrun).
Defined.

Lemma create_directory_tree_witness :
  is_tree (fs made_world) /\ is_dir (fs made_world) ["ws"; "a"] = true.
Proof.
  assert (FileOps.create_directory ["ws"] [] "a/b" tree_world
          = (made_world, inr tt)) as Hrun by (vm_compute; reflexivity).
  destruct (create_directory_tree ["ws"] [] "a/b" tree_world made_world
              ["ws"; "a"; "b"] (inr tt) tree_world_is_tree eq_refl Hrun)
    as [Htree Hancestors].
  split; [exact Htree|].
  exact (Hancestors eq_refl ["ws"; "a"] ["b"] eq_refl).
Defined.

Lemma create_directory_over_file_witness :
  FileOps.create_directory ["ws"] [] "notes.txt" tree_world
  = (tree_world, inl (MakedirsError EEXIST))
  /\ FileOps.create_directory ["ws"] [] "notes.txt/x" tree_world
     = (tree_world, inl (MakedirsError ENOTDIR)).
Proof.
  split.
  - destruct (create_directory_over_file ["ws"] [] "notes.txt" tree_world
                ["ws"; "notes.txt"] tree_world_is_tree eq_refl)
      as [Hfile _].
    apply Hfile. vm_compute. reflexivity.
  - destruct (create_directory_over_file ["ws"] [] "notes.txt/x" tree_world
                ["ws"; "notes.txt"; "x"] tree_world_is_tree eq_refl)
      as [_ Hunder].
    apply Hunder; vm_compute; reflexivity.
Defined.

(** ** Writing *)

Lemma universal_newlines_plain (s : pystr) :
  CR ∉ s -> universal_newlines s = s.
Proof.
  induction s as [|c s IH]; intros Hs; [reflexivity|].
  apply not_elem_of_cons in Hs as [Hc Hs]. simpl.
  destruct (c =? CR)%N eqn:Heq; [apply N.eqb_eq in Heq; congruence|].
  by rewrite IH.
Qed.

Lemma node_at_insert_is_Some (f : filesystem) (p q : rpath) (x : node) :
  is_Some (node_at f q) -> is_Some (node_at (<[p := x]> f) q).
Proof.
  destruct q; [done|]. simpl. intros Hq.
  apply lookup_insert_is_Some'. by right.
Qed.

(** In a tree, a directory has a parent. *)
Lemma tree_parent_exists (f : filesystem) (p : rpath) :
  is_tree f -> is_dir f p = true -> is_Some (node_at f (parent p)).
Proof.
  intros Htree Hdir. destruct p as [|c p]; [by eexists|].
  unfold is_dir in Hdir. simpl in Hdir.
  destruct (f !! (c :: p)) as [x|] eqn:Hx; [|discriminate].
  destruct (Htree _ _ Hx) as [_ Hparent]. by apply is_dir_exists.
Qed.

Section WriteFacts.
Variables (root pcwd : rpath).
Variable open_other :
  string -> rpath -> pystr -> filesystem -> filesystem * (exn + unit).

Local Abbreviation write_file := (FileOps.write_file root pcwd open_other).
Local Abbreviation open_and_write := (FileOps.open_and_write open_other).

Lemma write_file_run (path : string) (content : pystr) (mode : string)
    (w : world) (rp : rpath) :
  FileOperations._validate_path root pcwd path = inr rp ->
  write_file path content mode w
  = match makedirs (parent rp) (fs w) with
    | (f1, Some errno) => (mkWorld f1 (spawned w), inl (MakedirsError errno))
    | (f1, None) =>
        match open_and_write rp content mode f1 with
        | (f2, inl e) => (mkWorld f2 (spawned w), inl (Exn e))
        | (f2, inr _) => (mkWorld f2 (spawned w), inr tt)
        end
    end.
Proof. intros Hvalid. unfold FileOps.write_file. by rewrite Hvalid. Qed.

(** Mode ['w'] where no directory and no special file stands. *)
Lemma open_and_write_w (rp : rpath) (content : pystr) (f : filesystem) :
  node_at f rp <> Some Dir -> node_at f rp <> Some Special ->
  open_and_write rp content "w" f
  = if forallb utf8_encodable content
    then (<[rp := File content]> f, inr tt)
    else (<[rp := File []]> f, inl UnicodeEncodeError).
Proof.
  intros Hdir Hspecial. unfold FileOps.open_and_write.
  destruct (node_at f rp) as [[c| |]|]; try congruence; reflexivity.
Qed.

(** Mode ['a'] on a regular file. *)
Lemma open_and_write_a (rp : rpath) (old content : pystr) (f : filesystem) :
  node_at f rp = Some (File old) ->
  open_and_write rp content "a" f
  = if forallb utf8_encodable content
    then (<[rp := File (old ++ content)]> f, inr tt)
    else (<[rp := File old]> f, inl UnicodeEncodeError).
Proof. intros Hfile. unfold FileOps.open_and_write. by rewrite Hfile. Qed.

(** What a successful write in mode ['w'] did. *)
Lemma write_file_w_success (path : string) (content : pystr)
    (w w1 : world) (rp : rpath) :
  FileOperations._validate_path root pcwd path = inr rp ->
  fs w !! rp <> Some Special ->
  write_file path content "w" w = (w1, inr tt) ->
  exists f1,
    makedirs (parent rp) (fs w) = (f1, None)
    /\ forallb utf8_encodable content = true
    /\ w1 = mkWorld (<[rp := File content]> f1) (spawned w)
    /\ rp <> []
    /\ node_at f1 rp <> Some Dir /\ node_at f1 rp <> Some Special.
Proof.
  intros Hvalid Hspecial Hrun. rewrite (write_file_run _ _ _ _ rp Hvalid) in Hrun.
  destruct (makedirs (parent rp) (fs w)) as [f1 [errno|]] eqn:Hmk;
    [discriminate|].
  exists f1.
  assert (node_at f1 rp <> Some Dir) as Hdir.
  { intros Hdir. unfold FileOps.open_and_write in Hrun.
    rewrite Hdir in Hrun. discriminate. }
  assert (rp <> []) as Hne by (intros ->; by apply Hdir).
  assert (node_at f1 rp <> Some Special) as Hspecial1.
  { intros Hsp. destruct rp as [|c rp]; [congruence|]. simpl in Hsp.
    destruct (makedirs_rev_adds _ _ _ _ Hmk (c :: rp))
      as [Heq | (_ & Hnew & _)]; congruence. }
  rewrite open_and_write_w in Hrun by assumption.
  destruct (forallb utf8_encodable content); [|discriminate].
  injection Hrun as <-. by repeat split.
Qed.

(** X10. Write, then read. After [write_file(path, content, 'w')]
    returned (the target not being a special file), the file holds
    [content], and [read_file(path)] returns it with every carriage
    return, alone or before a line feed, turned into a line feed: the
    text itself when it holds no carriage return. *)
Theorem write_file_read_back (path : string) (content : pystr)
    (w w1 : world) (rp : rpath) :
  FileOperations._validate_path root pcwd path = inr rp ->
  fs w !! rp <> Some Special ->
  write_file path content "w" w = (w1, inr tt) ->
  fs w1 !! rp = Some (File content)
  /\ FileOps.read_file root pcwd path None None w1
     = (w1, inr (universal_newlines content))
  /\ (CR ∉ content ->
      FileOps.read_file root pcwd path None None w1 = (w1, inr content)).
Proof.
  intros Hvalid Hspecial Hrun.
  destruct (write_file_w_success path content w w1 rp Hvalid Hspecial Hrun)
    as (f1 & _ & Htext & -> & _).
  assert (<[rp := File content]> f1 !! rp = Some (File content)) as Hfile
    by apply lookup_insert_eq.
  split; [exact Hfile|].
  pose proof (read_file_run root pcwd path None None
                (mkWorld (<[rp := File content]> f1) (spawned w)) rp content
                Hvalid Hfile Htext) as Hread.
  split; [exact Hread|].
  intros Hcr. rewrite Hread. by rewrite universal_newlines_plain.
Qed.

(** X11. Write, then append. A write in mode ['w'] of [a] followed by a
    write in mode ['a'] of [b] to the same path leaves what one write in
    mode ['w'] of [a ++ b] leaves: the file holds [a ++ b]. *)
Theorem write_file_append (path : string) (a b : pystr)
    (w w1 w2 : world) (rp : rpath) :
  FileOperations._validate_path root pcwd path = inr rp ->
  fs w !! rp <> Some Special ->
  write_file path a "w" w = (w1, inr tt) ->
  write_file path b "a" w1 = (w2, inr tt) ->
  fs w2 !! rp = Some (File (a ++ b))
  /\ write_file path (a ++ b) "w" w = (w2, inr tt).
Proof.
  intros Hvalid Hspecial Hfirst Hsecond.
  destruct (write_file_w_success path a w w1 rp Hvalid Hspecial Hfirst)
    as (f1 & Hmk & Henc & -> & Hne & Hdir & Hsp).
  rewrite (write_file_run _ _ _ _ rp Hvalid) in Hsecond. simpl in Hsecond.
  pose proof (makedirs_success _ _ _ Hmk) as [Hpdir Hpp].
  rewrite makedirs_existing in Hsecond.
  - rewrite (open_and_write_a rp a b) in Hsecond
      by (destruct rp; [congruence | apply lookup_insert_eq]).
    destruct (forallb utf8_encodable b) eqn:Hencb; [|discriminate].
    injection Hsecond as <-. simpl. rewrite insert_insert_eq.
    split; [apply lookup_insert_eq|].
    rewrite (write_file_run _ _ _ _ rp Hvalid), Hmk.
    rewrite open_and_write_w by assumption.
    by rewrite forallb_app, Henc, Hencb.
  - unfold is_dir in *. rewrite node_at_insert_ne; [exact Hpdir|].
    intros Heq. by apply (parent_ne rp).
  - by apply node_at_insert_is_Some.
Qed.

(** X12. Text that UTF-8 cannot encode (a lone surrogate). Over a tree,
    where the validated path holds a regular file: [write_file] in mode
    ['w'] raises [UnicodeEncodeError] and leaves the file empty, its old
    content lost; in mode ['a'] it raises the same error and leaves the
    world as it was. *)
Theorem write_file_unencodable (path : string) (content old : pystr)
    (w : world) (rp : rpath) :
  is_tree (fs w) ->
  FileOperations._validate_path root pcwd path = inr rp ->
  fs w !! rp = Some (File old) ->
  forallb utf8_encodable content = false ->
  write_file path content "w" w
  = (mkWorld (<[rp := File []]> (fs w)) (spawned w),
     inl (Exn UnicodeEncodeError))
  /\ write_file path content "a" w = (w, inl (Exn UnicodeEncodeError)).
Proof.
  intros Htree Hvalid Hfile Henc.
  destruct (Htree _ _ Hfile) as [Hne Hpdir].
  assert (node_at (fs w) rp = Some (File old)) as Hnode
    by (destruct rp; [congruence | exact Hfile]).
  rewrite !(write_file_run _ _ _ _ rp Hvalid).
  rewrite makedirs_existing
    by (assumption || by apply tree_parent_exists).
  rewrite open_and_write_w by (rewrite Hnode; discriminate).
  rewrite (open_and_write_a rp old) by assumption.
  rewrite Henc. split; [reflexivity|].
  rewrite insert_id by assumption. by destruct w.
Qed.

(** X13. Write, then delete. After [write_file(path, content, 'w')]
    returned, [delete_file(path)] returns and removes that file; and
    where the file system was a tree, the file was not there and its
    directory was, the two calls together leave the world as it was. *)
Theorem write_file_then_delete (path : string) (content : pystr)
    (w w1 : world) (rp : rpath) :
  FileOperations._validate_path root pcwd path = inr rp ->
  fs w !! rp <> Some Special ->
  write_file path content "w" w = (w1, inr tt) ->
  FileOperations.delete_file root pcwd path w1
  = (mkWorld (delete rp (fs w1)) (spawned w1), inr tt)
  /\ (is_tree (fs w) -> fs w !! rp = None ->
      is_dir (fs w) (parent rp) = true ->
      FileOperations.delete_file root pcwd path w1 = (w, inr tt)).
Proof.
  intros Hvalid Hspecial Hrun.
  destruct (write_file_w_success path content w w1 rp Hvalid Hspecial Hrun)
    as (f1 & Hmk & _ & -> & _).
  rewrite delete_file_run, Hvalid. unfold is_file. simpl.
  rewrite lookup_insert_eq. split; [reflexivity|].
  intros Htree Hfree Hpdir.
  rewrite makedirs_existing in Hmk
    by (assumption || by apply tree_parent_exists).
  injection Hmk as <-. rewrite delete_insert_id by assumption.
  by destruct w.
Qed.

End WriteFacts.

(** [write_file("out/new.txt", "hi")] in the sample tree makes [out], and
    [read_file] returns ["hi"]. *)
Lemma write_file_read_back_witness :
  FileOps.read_file ["ws"] [] "out/new.txt" None None written_world
  = (written_world, inr (u "hi")).
Proof.
  assert (fs tree_world !! ["ws"; "out"; "new.txt"] <> Some Special)
    as Hspecial by (vm_compute; discriminate).
  assert (FileOps.write_file ["ws"] [] no_other_mode "out/new.txt" (u "hi")
            "w" tree_world = (written_world, inr tt))
    as Hrun by (vm_compute; reflexivity).
  destruct (write_file_read_back ["ws"] [] no_other_mode "out/new.txt"
              (u "hi") tree_world written_world ["ws"; "out"; "new.txt"]
              eq_refl Hspecial Hrun) as (_ & _ & Hplain).
  apply Hplain. by_computation.
Defined.

(** Writing ["hi"] and appending ["!"] is writing ["hi!"]. *)
Lemma write_file_append_witness :
  fs appended_world !! ["ws"; "out"; "new.txt"] = Some (File (u "hi!"))
  /\ FileOps.write_file ["ws"] [] no_other_mode "out/new.txt" (u "hi!") "w"
       tree_world
     = (appended_world, inr tt).
Proof.
  assert (fs tree_world !! ["ws"; "out"; "new.txt"] <> Some Special)
    as Hspecial by (vm_compute; discriminate).
  assert (FileOps.write_file ["ws"] [] no_other_mode "out/new.txt" (u "hi")
            "w" tree_world = (written_world, inr tt))
    as Hfirst by (vm_compute; reflexivity).
  assert (FileOps.write_file ["ws"] [] no_other_mode "out/new.txt" (u "!")
            "a" written_world = (appended_world, inr tt))
    as Hsecond by (vm_compute; reflexivity).
  exact (write_file_append ["ws"] [] no_other_mode "out/new.txt"
           (u "hi") (u "!") tree_world written_world appended_world
           ["ws"; "out"; "new.txt"] eq_refl Hspecial Hfirst Hsecond).
Defined.

(** Writing the lone surrogate U+D800 over [notes.txt] empties the file;
    appending it changes nothing. *)
Lemma write_file_unencodable_witness :
  FileOps.write_file ["ws"] [] no_other_mode "notes.txt" [0xD800%N] "w"
    tree_world
  = (mkWorld (<[ ["ws"; "notes.txt"] := File [] ]> (fs tree_world)) [],
     inl (Exn UnicodeEncodeError))
  /\ FileOps.write_file ["ws"] [] no_other_mode "notes.txt" [0xD800%N] "a"
       tree_world
     = (tree_world, inl (Exn UnicodeEncodeError)).
Proof.
  exact (write_file_unencodable ["ws"] [] no_other_mode "notes.txt"
           [0xD800%N] (u "todo") tree_world ["ws"; "notes.txt"]
           tree_world_is_tree eq_refl eq_refl eq_refl).
Defined.

(** Writing [new.txt] in the sample tree and deleting it gives the
    sample tree back. *)
Lemma write_file_then_delete_witness :
  FileOperations.delete_file ["ws"] [] "new.txt"
    (mkWorld (<[ ["ws"; "new.txt"] := File (u "hi") ]> (fs tree_world)) [])
  = (tree_world, inr tt).
Proof.
  assert (fs tree_world !! ["ws"; "new.txt"] <> Some Special)
    as Hspecial by (vm_compute; discriminate).
  assert (FileOps.write_file ["ws"] [] no_other_mode "new.txt" (u "hi") "w"
            tree_world
          = (mkWorld (<[ ["ws"; "new.txt"] := File (u "hi") ]>
                        (fs tree_world)) [], inr tt))
    as Hrun by (vm_compute; reflexivity).
  destruct (write_file_then_delete ["ws"] [] no_other_mode "new.txt"
              (u "hi") tree_world _ ["ws"; "new.txt"]
              eq_refl Hspecial Hrun) as [_ Hback].
  apply Hback; [exact tree_world_is_tree | reflexivity | reflexivity].
Defined.

(** ** Running code: the file system afterwards *)

(** X14. [execute_code] cleans up after itself. When the temporary name
    is fresh, the code can be encoded and the child leaves the file
    system as it found it, the file system after the call is the one
    before it, whether the interpreter was missing, the child could not
    be started, or it ran to any exit status; and the clean-up itself
    never raises. *)
Theorem execute_code_restores_file_system
    (h : host) (root : rpath) (code : pystr) (wd : option string)
    (w : world) (p : rpath) :
  tmp_name h (fs w) = inr p ->
  fs w !! p = None ->
  forallb (encodable h) code = true ->
  fst (child h (child_command h root p) (Some (effective_cwd root wd))
         (<[p := File code]> (fs w)))
  = <[p := File code]> (fs w) ->
  fs (fst (CodeExecutor.execute_code h root code wd w)) = fs w
  /\ forall errno,
      snd (CodeExecutor.execute_code h root code wd w)
      <> inl (Library OsUnlink errno).
Proof.
  intros Htmp Hfresh Henc Hchild.
  unfold CodeExecutor.execute_code, bind.
  rewrite (stage_ok h code w p Htmp Henc).
  unfold try_finally, CodeExecutor._get_python_path, subprocess_run,
    os_unlink, bind, get_fs, put_fs, raise, ret. simpl.
  fold (CodeExecutor.venv_path root). fold (python_location h root).
  destruct (exists_ (<[p := File code]> (fs w)) (python_location h root));
    simpl.
  - fold (child_command h root p). fold (effective_cwd root wd).
    destruct (child h (child_command h root p) (Some (effective_cwd root wd))
                (<[p := File code]> (fs w))) as [f2 r] eqn:Hrun.
    simpl in Hchild. subst f2. simpl.
    destruct r as [d|c]; simpl; rewrite lookup_insert_eq; simpl;
      (split; [by apply delete_insert_id | discriminate]).
  - rewrite lookup_insert_eq. simpl.
    split; [by apply delete_insert_id | discriminate].
Qed.

(** In the sample workspace with a virtual environment, a script that
    exits with status 3 leaves the file system as it was. *)
Lemma execute_code_restores_file_system_witness :
  fs (fst (CodeExecutor.execute_code (posix_host 3) ["ws"]
             (u "import sys; sys.exit(3)") None venv_world))
  = fs venv_world.
Proof.
  exact (proj1 (execute_code_restores_file_system (posix_host 3) ["ws"]
                  (u "import sys; sys.exit(3)") None venv_world sample_tmp
                  eq_refl eq_refl eq_refl eq_refl)).
Defined.

(** ** Packages *)

Section PackageFacts.
Variables (h : host) (root : rpath).

Lemma get_python_path_run (w : world) :
  ProjectManager._get_python_path h root w
  = if exists_ (fs w) (python_location h root)
    then (w, inr (python_location h root))
    else (w, inl (FileNotFoundError
                    ("Python executable not found in virtual environment: "
                     +:+ rpath_str (python_location h root)))).
Proof.
  unfold ProjectManager._get_python_path, bind, get_fs, raise, ret.
  fold (ProjectManager.venv_path root).
  change (ProjectManager.venv_path root) with (CodeExecutor.venv_path root).
  unfold python_location.
  destruct (bool_decide (os_name h = "nt"));
    match goal with |- context [exists_ ?f ?p] => destruct (exists_ f p) end;
    reflexivity.
Qed.

(** X15. [update_package], when the interpreter of the virtual
    environment exists, runs one child, [python -m pip install --upgrade
    TARGET] in the server's own working directory, where [TARGET] is
    [name==version], or [name] alone when the version is [None] or the
    empty string. It returns when the child exits with 0 and raises
    [CalledProcessError] with the exit status and the command otherwise;
    the name is one argument of the command whatever it holds. *)
Theorem update_package_outcome (package_name : string)
    (version : option string) (w : world) (f2 : filesystem) (c : completed) :
  let cmd := [rpath_str (python_location h root); "-m"; "pip"; "install";
              "--upgrade"; upgrade_target package_name version] in
  exists_ (fs w) (python_location h root) = true ->
  child h cmd None (fs w) = (f2, inr c) ->
  ProjectOps.update_package h root package_name version w
  = (mkWorld f2 (spawned w ++ [mkSpawn cmd None]),
     if (returncode c =? 0)%Z then inr tt
     else inl (CalledProcessError (returncode c) cmd)).
Proof.
  intros cmd Hex Hrun. unfold ProjectOps.update_package, bind.
  rewrite get_python_path_run, Hex.
  assert ((match truthy version with
           | Some v =>
               [rpath_str (python_location h root); "-m"; "pip"; "install";
                "--upgrade"] ++ [package_name +:+ "==" +:+ v]
           | None =>
               [rpath_str (python_location h root); "-m"; "pip"; "install";
                "--upgrade"] ++ [package_name]
           end) = cmd) as ->
    by (unfold cmd, upgrade_target; destruct (truthy version); reflexivity).
  unfold subprocess_run. rewrite Hrun. simpl.
  destruct (returncode c =? 0)%Z; reflexivity.
Qed.

(** X16. The interpreter is looked up first. Without the interpreter of
    the virtual environment, [install_dependencies] and [update_package]
    raise the [FileNotFoundError] of [_get_python_path] whatever their
    arguments and whatever requirement files exist; no file is read, no
    child is started and the world is left as it was. *)
Theorem pip_operations_need_interpreter
    (toml_load : pystr -> N + list (string * toml))
    (requirements_file : option string) (package_name : string)
    (version : option string) (w : world) :
  exists_ (fs w) (python_location h root) = false ->
  let missing :=
    FileNotFoundError ("Python executable not found in virtual environment: "
                       +:+ rpath_str (python_location h root)) in
  ProjectManager.install_dependencies h toml_load root requirements_file w
  = (w, inl missing)
  /\ ProjectOps.update_package h root package_name version w
     = (w, inl missing).
Proof.
  intros Hex missing.
  unfold ProjectManager.install_dependencies, ProjectOps.update_package, bind.
  by rewrite get_python_path_run, Hex.
Qed.

End PackageFacts.

(** Upgrading [requests] to 2.31.0 with a [pip] that exits with 1. *)
Lemma update_package_outcome_witness :
  ProjectOps.update_package (posix_host 1) ["ws"] "requests" (Some "2.31.0")
    venv_world
  = (mkWorld (fs venv_world)
       [mkSpawn ["/ws/.venv/bin/python"; "-m"; "pip"; "install"; "--upgrade";
                 "requests==2.31.0"] None],
     inl (CalledProcessError 1
            ["/ws/.venv/bin/python"; "-m"; "pip"; "install"; "--upgrade";
             "requests==2.31.0"])).
Proof.
  exact (update_package_outcome (posix_host 1) ["ws"] "requests"
           (Some "2.31.0") venv_world (fs venv_world) (mkCompleted [] [] 1)
           eq_refl eq_refl).
Defined.

(** In the sample workspace without a virtual environment. *)
Lemma pip_operations_need_interpreter_witness :
  ProjectManager.install_dependencies (posix_host 0) toml_of_empty ["ws"]
    (Some "requirements.txt") bare_world
  = (bare_world,
     inl (FileNotFoundError
            "Python executable not found in virtual environment: /ws/.venv/bin/python"))
  /\ ProjectOps.update_package (posix_host 0) ["ws"] "requests" None
       bare_world
     = (bare_world,
        inl (FileNotFoundError
               "Python executable not found in virtual environment: /ws/.venv/bin/python")).
Proof.
  exact (pip_operations_need_interpreter (posix_host 0) ["ws"] toml_of_empty
           (Some "requirements.txt") "requests" None bare_world eq_refl).
Defined.

(** ** Installed packages and their conflicts *)

Lemma dict_get_set {V} (k k' : string) (v : V) (d : list (string * V)) :
  dict_get k' (dict_set k v d)
  = if bool_decide (k' = k) then Some v else dict_get k' d.
Proof.
  induction d as [|[k0 v0] d IH]; simpl; [reflexivity|].
  destruct (bool_decide_reflect (k = k0)) as [->|Hk]; simpl.
  - by destruct (bool_decide (k' = k0)).
  - rewrite IH.
    destruct (bool_decide_reflect (k' = k0)) as [->|Hk'];
      [by rewrite bool_decide_false by congruence | reflexivity].
Qed.

Lemma dict_get_elem {V} (k : string) (v : V) (d : list (string * V)) :
  dict_get k d = Some v -> (k, v) ∈ d.
Proof.
  induction d as [|[k0 v0] d IH]; simpl; [discriminate|].
  destruct (bool_decide_reflect (k = k0)) as [->|Hk].
  - intros [= ->]. left.
  - intros Hget. right. by apply IH.
Qed.

Lemma dict_set_elem {V} (k k' : string) (v v' : V) (d : list (string * V)) :
  (k', v') ∈ dict_set k v d -> (k', v') = (k, v) \/ (k', v') ∈ d.
Proof.
  induction d as [|[k0 v0] d IH]; simpl.
  - intros Hin. apply list_elem_of_singleton in Hin. by left.
  - destruct (bool_decide (k = k0)); intros Hin;
      apply elem_of_cons in Hin as [Hin|Hin].
    + by left.
    + right. by right.
    + right. rewrite Hin. left.
    + destruct (IH Hin) as [?|?]; [by left | right; by right].
Qed.

Lemma dict_set_keys {V} (k : string) (v : V) (d : list (string * V)) :
  NoDup d.*1 -> NoDup (dict_set k v d).*1.
Proof.
  induction d as [|[k0 v0] d IH]; simpl; intros Hnd.
  - apply NoDup_singleton.
  - apply NoDup_cons in Hnd as [Hk0 Hnd].
    destruct (bool_decide_reflect (k = k0)) as [->|Hk]; simpl.
    + by apply NoDup_cons.
    + apply NoDup_cons. split; [|by apply IH].
      intros Hin. apply list_elem_of_fmap in Hin as ([k1 v1] & Heq & Hin).
      simpl in Heq. subst k1.
      apply dict_set_elem in Hin as [[= -> _] | Hin]; [done|].
      apply Hk0. apply list_elem_of_fmap. by exists (k0, v1).
Qed.

Lemma installed_dict_snoc (dists : list ProjectManager.distribution)
    (dist : ProjectManager.distribution) :
  ProjectManager.installed_dict (dists ++ [dist])
  = dict_set (ProjectManager.d_name dist) dist
      (ProjectManager.installed_dict dists).
Proof. unfold ProjectManager.installed_dict. by rewrite fold_left_app. Qed.

(** An entry of the dictionary of installed distributions is a
    distribution under its own name. *)
Lemma installed_dict_elem (dists : list ProjectManager.distribution)
    (k : string) (dist : ProjectManager.distribution) :
  (k, dist) ∈ ProjectManager.installed_dict dists ->
  dist ∈ dists /\ ProjectManager.d_name dist = k.
Proof.
  induction dists as [|d dists IH] using rev_ind.
  - intros Hin. by apply elem_of_nil in Hin.
  - rewrite installed_dict_snoc. intros Hin.
    apply dict_set_elem in Hin as [[= -> ->] | Hin].
    + split; [|reflexivity]. apply elem_of_app. right. left.
    + destruct (IH Hin) as [Hd Hk]. split; [|exact Hk].
      apply elem_of_app. by left.
Qed.

(** X17. Two installed distributions of one name. The dictionary the
    conflict check builds holds every name once, with the distribution
    listed last under that name: the requirements of an earlier one are
    not checked, and requirements on that name are tested against the
    version of the last one. *)
Theorem installed_dict_last_wins
    (dists : list ProjectManager.distribution) (n : string) :
  dict_get n (ProjectManager.installed_dict dists)
  = last (filter (fun d => ProjectManager.d_name d = n) dists)
  /\ NoDup (ProjectManager.installed_dict dists).*1.
Proof.
  induction dists as [|d dists [IHget IHnd]] using rev_ind.
  - split; [reflexivity | apply NoDup_nil_2].
  - rewrite installed_dict_snoc. split; [|by apply dict_set_keys].
    rewrite dict_get_set, filter_app, IHget.
    destruct (bool_decide_reflect (n = ProjectManager.d_name d)) as [->|Hn].
    + rewrite filter_cons_True by reflexivity.
      rewrite filter_nil. by rewrite last_snoc.
    + rewrite filter_cons_False by congruence.
      rewrite filter_nil. by rewrite app_nil_r.
Qed.

Section ConflictOutcomes.
Variables (specifier pversion : Type)
          (Requirement : string -> option (ProjectManager.requirement specifier))
          (version_parse : string -> option pversion)
          (version_str : pversion -> string)
          (contains : specifier -> pversion -> bool).

Local Abbreviation check_requirement :=
  (ProjectManager.check_requirement specifier pversion Requirement
     version_parse version_str contains).
Local Abbreviation check_dependency_conflicts :=
  (ProjectManager.check_dependency_conflicts specifier pversion Requirement
     version_parse version_str contains).

(** A loop that ran to its end ran its body to the end on every item. *)
Lemma collect_returned {X} (body : X -> exn + list ProjectManager.conflict)
    (xs : list X) (cs : list ProjectManager.conflict) :
  ProjectManager.collect body xs = inr cs ->
  forall x, x ∈ xs -> exists cs', body x = inr cs'.
Proof.
  revert cs. induction xs as [|y xs IH]; simpl; intros cs Hrun x Hx.
  - by apply elem_of_nil in Hx.
  - destruct (body y) as [e|cs1] eqn:Hy; [discriminate|].
    destruct (ProjectManager.collect body xs) as [e|cs2] eqn:Hxs;
      [discriminate|].
    apply elem_of_cons in Hx as [->|Hx]; [eauto | by apply (IH cs2)].
Qed.

(** A loop that raised passes on what its body raised on some item. *)
Lemma collect_raised {X} (body : X -> exn + list ProjectManager.conflict)
    (xs : list X) (e : exn) :
  ProjectManager.collect body xs = inl e ->
  exists x, x ∈ xs /\ body x = inl e.
Proof.
  induction xs as [|y xs IH]; simpl; [discriminate|].
  destruct (body y) as [e1|cs1] eqn:Hy.
  - intros [= <-]. exists y. split; [left | exact Hy].
  - destruct (ProjectManager.collect body xs) as [e2|cs2]; [|discriminate].
    intros [= <-]. destruct (IH eq_refl) as (x & Hx & Hbody).
    exists x. split; [by right | exact Hbody].
Qed.

(** X18. When the conflict check returns and when it raises.
    [check_dependency_conflicts] returns a list exactly when the metadata
    it reads is well formed: every requirement string of the checked
    distributions parses and so does the version of every installed
    distribution a requirement names. Otherwise it raises, and the
    exception is the one of the [packaging] parser: no partial list is
    returned. *)
Theorem check_dependency_conflicts_returns_iff
    (dists : list ProjectManager.distribution) :
  ((exists cs, check_dependency_conflicts dists = inr cs)
   <-> metadata_well_formed Requirement version_parse dists)
  /\ (forall e,
        check_dependency_conflicts dists = inl e ->
        exists detail, e = Library Packaging detail).
Proof.
  split; [split|].
  - intros [cs Hrun] pkg_name dist req_str Hdist Hreq_str.
    unfold ProjectManager.check_dependency_conflicts in Hrun.
    destruct (collect_returned _ _ _ Hrun (pkg_name, dist) Hdist)
      as [cs1 Hinner].
    destruct (collect_returned _ _ _ Hinner req_str Hreq_str)
      as [cs2 Hreq].
    unfold ProjectManager.check_requirement in Hreq.
    destruct (Requirement req_str) as [req|]; [|discriminate].
    exists req. split; [reflexivity|]. intros target Htarget.
    rewrite Htarget in Hreq.
    destruct (version_parse (ProjectManager.d_version target));
      [by eexists | discriminate].
  - intros Hwf.
    unfold ProjectManager.check_dependency_conflicts.
    apply collect_returns. intros [pkg_name dist] Hdist.
    apply collect_returns. intros req_str Hreq_str.
    destruct (Hwf pkg_name dist req_str Hdist Hreq_str) as (req & Hreq & Hv).
    unfold ProjectManager.check_requirement. rewrite Hreq.
    destruct (dict_get _ _) as [target|] eqn:Htarget; [|eauto].
    destruct (Hv target eq_refl) as [v ->].
    destruct (negb _); eauto.
  - intros e Hrun.
    unfold ProjectManager.check_dependency_conflicts in Hrun.
    destruct (collect_raised _ _ _ Hrun) as ([pkg_name dist] & _ & Hinner).
    destruct (collect_raised _ _ _ Hinner) as (req_str & _ & Hreq).
    unfold ProjectManager.check_requirement in Hreq.
    destruct (Requirement req_str) as [req|]; [|injection Hreq as <-; eauto].
    destruct (dict_get _ _) as [target|]; [|discriminate].
    destruct (version_parse _); [|injection Hreq as <-; eauto].
    destruct (negb _); discriminate.
Qed.

(** X19. Conflicts speak of installed packages. Every conflict
    [check_dependency_conflicts] reports names, as [package], a package
    that [get_installed_packages] lists, and gives, as [installed], the
    parsed and printed version of a listed package whose name is the one
    the unmet requirement names. *)
Theorem check_dependency_conflicts_installed
    (dists : list ProjectManager.distribution)
    (cs : list ProjectManager.conflict) (c : ProjectManager.conflict) :
  check_dependency_conflicts dists = inr cs ->
  c ∈ cs ->
  ProjectManager.package c
    ∈ ProjectOps.name <$> ProjectOps.get_installed_packages dists
  /\ exists req_str req p v,
      Requirement req_str = Some req
      /\ ProjectManager.requires c = ProjectManager.r_str specifier req
      /\ p ∈ ProjectOps.get_installed_packages dists
      /\ ProjectOps.name p = ProjectManager.r_name specifier req
      /\ version_parse (ProjectOps.version p) = Some v
      /\ contains (ProjectManager.r_specifier specifier req) v = false
      /\ ProjectManager.installed c = version_str v.
Proof.
  intros Hrun Hc.
  apply (check_dependency_conflicts_elem _ _ _ _ _ _ dists cs Hrun) in Hc
    as (pkg_name & dist & req_str & req & target & v
        & Hdist & _ & Hreq & Htarget & Hv & Hcontains & ->).
  apply installed_dict_elem in Hdist as [Hdist Hname].
  apply dict_get_elem, installed_dict_elem in Htarget as [Htarget Htname].
  unfold ProjectOps.get_installed_packages. split.
  - simpl. rewrite <- list_fmap_compose. apply list_elem_of_fmap.
    exists dist. split; [by rewrite <- Hname | exact Hdist].
  - exists req_str, req,
      (ProjectOps.mkPackage (ProjectManager.d_name target)
         (ProjectManager.d_version target)), v.
    repeat split; try assumption.
    apply list_elem_of_fmap. by exists target.
Qed.

End ConflictOutcomes.

(** The example installed set: [B] requires [A>=2.0], and [A] is listed
    at 1.0. *)
Lemma check_dependency_conflicts_installed_witness :
  exists req_str req p v,
    MiniPackaging.Requirement req_str = Some req
    /\ "A>=2.0" = ProjectManager.r_str MiniPackaging.specifier req
    /\ p ∈ ProjectOps.get_installed_packages example_distributions
    /\ ProjectOps.name p = ProjectManager.r_name MiniPackaging.specifier req
    /\ MiniPackaging.version_parse (ProjectOps.version p) = Some v
    /\ MiniPackaging.contains
         (ProjectManager.r_specifier MiniPackaging.specifier req) v = false
    /\ "1.0" = MiniPackaging.version_str v.
Proof.
  assert (ProjectManager.mkConflict "B" "A>=2.0" "1.0"
            ∈ [ProjectManager.mkConflict "B" "A>=2.0" "1.0"]) as Hin by left.
  exact (proj2 (check_dependency_conflicts_installed MiniPackaging.specifier
                  (list N) MiniPackaging.Requirement
                  MiniPackaging.version_parse MiniPackaging.version_str
                  MiniPackaging.contains example_distributions
                  [ProjectManager.mkConflict "B" "A>=2.0" "1.0"]
                  (ProjectManager.mkConflict "B" "A>=2.0" "1.0")
                  eq_refl Hin)).
Defined.

(** ** The conflicts of a set of installed packages *)





Section ConflictsOfASet.
Variables (specifier pversion : Type)
          (Requirement : string -> option (ProjectManager.requirement specifier))
          (version_parse : string -> option pversion)
          (version_str : pversion -> string)
          (contains : specifier -> pversion -> bool).

Local Abbreviation check_dependency_conflicts :=
  (ProjectManager.check_dependency_conflicts specifier pversion Requirement
     version_parse version_str contains).





End ConflictsOfASet.




(** ** Lint reports *)

Section CountFacts.
Context {A : Type} `{EqDecision A}.

(** A split gives one piece more than there are separators. *)
Lemma split_length (sep : A) (l : list A) :
  length (split sep l) = S (length (filter (fun c => c = sep) l)).
Proof.
  induction l as [|c r IH]; [reflexivity|]. simpl.
  destruct (decide (c = sep)) as [->|Hne].
  - rewrite filter_cons_True by reflexivity. simpl. by rewrite IH.
  - rewrite filter_cons_False by assumption.
    pose proof (split_not_nil sep r) as Hnil.
    destruct (split sep r) as [|w ws]; [congruence|]. exact IH.
Qed.

(** The pieces of a split are made of elements of the text. *)
Lemma split_elements (sep : A) (l : list A) :
  Forall (fun w => forall c, c ∈ w -> c ∈ l) (split sep l).
Proof.
  induction l as [|c r IH]; simpl.
  - apply Forall_singleton. intros c Hc. by apply elem_of_nil in Hc.
  - assert (Forall (fun w => forall x, x ∈ w -> x ∈ c :: r) (split sep r))
      as IH'.
    { eapply Forall_impl; [exact IH|]. intros w Hw x Hx. right. by apply Hw. }
    destruct (decide (c = sep)) as [->|Hne].
    + constructor; [|exact IH']. intros x Hx. by apply elem_of_nil in Hx.
    + destruct (split sep r) as [|w ws].
      * apply Forall_singleton. intros x Hx.
        apply list_elem_of_singleton in Hx as ->. left.
      * apply Forall_cons in IH' as [Hw Hws]. constructor; [|exact Hws].
        intros x Hx. apply elem_of_cons in Hx as [->|Hx]; [left | by apply Hw].
Qed.

(** What was joined is made of the pieces and the separator. *)
Lemma join_elements (sep : A) (ws : list (list A)) (c : A) :
  c ∈ join sep ws -> c = sep \/ exists w, w ∈ ws /\ c ∈ w.
Proof.
  induction ws as [|w ws IH]; [intros Hc; by apply elem_of_nil in Hc|].
  destruct ws as [|w' ws].
  - simpl. intros Hc. right. exists w. split; [left | exact Hc].
  - change (join sep (w :: w' :: ws)) with (w ++ sep :: join sep (w' :: ws)).
    intros Hc. apply elem_of_app in Hc as [Hc|Hc].
    + right. exists w. split; [left | exact Hc].
    + apply elem_of_cons in Hc as [->|Hc]; [by left|].
      destruct (IH Hc) as [?|(x & Hx & Hcx)]; [by left|].
      right. exists x. split; [by right | exact Hcx].
Qed.

End CountFacts.

Lemma colons_none (l : pystr) : COLON ∉ l -> colons l = 0.
Proof.
  intros Hl. unfold colons. induction l as [|c r IH]; [reflexivity|].
  apply not_elem_of_cons in Hl as [Hc Hr].
  rewrite filter_cons_False by (intros Heq; by apply Hc). by apply IH.
Qed.

Lemma colons_some (l : pystr) : COLON ∈ l -> 1 <= colons l.
Proof.
  intros Hl. unfold colons. induction l as [|c r IH];
    [by apply elem_of_nil in Hl|].
  destruct (decide (c = COLON)) as [->|Hne].
  - rewrite filter_cons_True by reflexivity. simpl. lia.
  - rewrite filter_cons_False by assumption.
    apply elem_of_cons in Hl as [Heq|Hl]; [by destruct Hne | by apply IH].
Qed.

(** A line gives an issue when it holds two colons or more. *)
Lemma parse_line_length (l : pystr) :
  length (CodeAnalyzer.parse_line l) = if decide (2 <= colons l) then 1 else 0.
Proof.
  unfold CodeAnalyzer.parse_line.
  destruct (bool_decide_reflect (COLON ∈ l)) as [Hin|Hout].
  - rewrite split_length. fold (colons l).
    destruct (bool_decide_reflect (3 <= S (colons l))) as [H3|H3];
      destruct (decide (2 <= colons l)); (reflexivity || lia).
  - rewrite colons_none by assumption. reflexivity.
Qed.

(** X20. How many issues a report gives. A line of the report gives one
    issue when it holds at least two colons and none otherwise (a line
    with one colon gives none), so [lint_code] returns as many issues as
    the report has lines with two colons or more. *)
Theorem lint_code_issue_count (pylint_report : string -> pystr)
    (file_path : string) :
  (forall l, length (CodeAnalyzer.parse_line l)
             = if decide (2 <= colons l) then 1 else 0)
  /\ length (CodeAnalyzer.lint_code pylint_report file_path)
     = length (filter (fun l => 2 <= colons l)
                 (splitlines (pylint_report (str (of_str file_path))))).
Proof.
  split; [exact parse_line_length|].
  unfold CodeAnalyzer.lint_code.
  induction (splitlines (pylint_report (str (of_str file_path))))
    as [|l ls IH]; [reflexivity|].
  rewrite fmap_cons. simpl concat. rewrite length_app, IH, parse_line_length.
  destruct (decide (2 <= colons l)).
  - by rewrite filter_cons_True by assumption.
  - by rewrite filter_cons_False by assumption.
Qed.

(** The lines [splitlines] gives hold no line boundary. *)
Lemma splitlines_from_clean (n : nat) (s cur : pystr) :
  length s <= n ->
  Forall (fun c => is_linebreak c = false) cur ->
  Forall (Forall (fun c => is_linebreak c = false)) (splitlines_from cur s).
Proof.
  revert s cur. induction n as [|n IH]; intros s cur Hlen Hcur.
  - destruct s; [|simpl in Hlen; lia]. simpl.
    destruct cur; [constructor|].
    apply Forall_singleton. by apply Forall_rev.
  - destruct s as [|c r]; simpl.
    + destruct cur; [constructor|].
      apply Forall_singleton. by apply Forall_rev.
    + simpl in Hlen. destruct (is_linebreak c) eqn:Hc.
      * constructor; [by apply Forall_rev|].
        destruct r as [|c' r']; [constructor|].
        destruct ((c =? 13) && (c' =? 10))%N.
        -- apply IH; [simpl in Hlen; lia | constructor].
        -- apply IH; [lia | constructor].
      * apply IH; [lia|]. by constructor.
Qed.

Lemma lstrip_suffix (s : pystr) : exists k, s = k ++ lstrip s.
Proof.
  induction s as [|c r [k Hk]]; [by exists []|]. simpl.
  destruct (is_space c); [|by exists []].
  exists (c :: k). simpl. by rewrite <- Hk.
Qed.

Lemma lstrip_head (s : pystr) (c : N) (r : pystr) :
  lstrip s = c :: r -> is_space c = false.
Proof.
  induction s as [|d s IH]; simpl; [discriminate|].
  destruct (is_space d) eqn:Hd; [exact IH|]. by intros [= <- _].
Qed.

Lemma lstrip_idem (s : pystr) : lstrip (lstrip s) = lstrip s.
Proof.
  destruct (lstrip s) as [|c r] eqn:Hs; [reflexivity|].
  simpl. by rewrite (lstrip_head s c r Hs).
Qed.

Lemma elem_of_rev {A} (l : list A) (x : A) : x ∈ rev l <-> x ∈ l.
Proof. rewrite !list_elem_of_In. symmetry. apply in_rev. Qed.

Lemma strip_elements (s : pystr) (c : N) : c ∈ strip s -> c ∈ s.
Proof.
  unfold strip. intros Hc. rewrite elem_of_rev in Hc.
  destruct (lstrip_suffix (rev (lstrip s))) as [k Hk].
  assert (c ∈ rev (lstrip s)) as Hc'.
  { rewrite Hk. apply elem_of_app. by right. }
  rewrite elem_of_rev in Hc'.
  destruct (lstrip_suffix s) as [k' Hk'].
  rewrite Hk'. apply elem_of_app. by right.
Qed.

(** A stripped text has no white space left at either end. *)
Lemma strip_idem (s : pystr) : strip (strip s) = strip s.
Proof.
  unfold strip. set (t := lstrip s). set (r := lstrip (rev t)).
  assert (lstrip (rev r) = rev r) as Hfront.
  { destruct (rev r) as [|x y] eqn:Hr; [reflexivity|].
    destruct (lstrip_suffix (rev t)) as [k Hk]. fold r in Hk.
    assert (t = x :: (y ++ rev k)) as Ht.
    { rewrite <- (rev_involutive t), Hk, rev_app_distr, Hr. reflexivity. }
    simpl. by rewrite (lstrip_head s x (y ++ rev k) Ht). }
  rewrite Hfront, rev_involutive. unfold r. by rewrite lstrip_idem.
Qed.

(** X21. The fields of an issue. In every issue [lint_code] returns, the
    path, the line and the type hold no colon, no field holds a line
    boundary, and the message has no white space at its ends. *)
Theorem lint_code_fields_clean (pylint_report : string -> pystr)
    (file_path : string) (i : CodeAnalyzer.issue) :
  i ∈ CodeAnalyzer.lint_code pylint_report file_path ->
  (COLON ∉ CodeAnalyzer.path i)
  /\ (COLON ∉ CodeAnalyzer.line i)
  /\ (COLON ∉ CodeAnalyzer.type i)
  /\ Forall (fun c => is_linebreak c = false)
       (CodeAnalyzer.path i ++ CodeAnalyzer.line i ++ CodeAnalyzer.type i
        ++ CodeAnalyzer.message i)
  /\ strip (CodeAnalyzer.message i) = CodeAnalyzer.message i.
Proof.
  unfold CodeAnalyzer.lint_code. intros Hi.
  apply list_elem_of_In, in_concat in Hi as (issues & Hissues & Hi).
  apply list_elem_of_In, list_elem_of_fmap in Hissues as (l & -> & Hl).
  apply list_elem_of_In in Hi.
  assert (Forall (fun c => is_linebreak c = false) l) as Hclean.
  { pose proof (splitlines_from_clean
                  (length (pylint_report (str (of_str file_path))))
                  (pylint_report (str (of_str file_path))) []
                  (Nat.le_refl _) (Forall_nil_2 _)) as Hall.
    rewrite Forall_forall in Hall. by apply Hall. }
  unfold CodeAnalyzer.parse_line in Hi.
  destruct (bool_decide (COLON ∈ l)); [|by apply elem_of_nil in Hi].
  pose proof (split_pieces COLON l) as Hpieces.
  pose proof (split_elements COLON l) as Helems.
  destruct (split COLON l) as [|p0 [|p1 [|p2 rest]]];
    try (simpl in Hi; by apply elem_of_nil in Hi).
  rewrite bool_decide_true in Hi by (simpl; lia).
  apply list_elem_of_singleton in Hi as ->. simpl.
  apply Forall_cons in Hpieces as [H0 Hpieces].
  apply Forall_cons in Hpieces as [H1 Hpieces].
  apply Forall_cons in Hpieces as [H2 _].
  apply Forall_cons in Helems as [E0 Helems].
  apply Forall_cons in Helems as [E1 Helems].
  apply Forall_cons in Helems as [E2 Erest].
  rewrite Forall_forall in Hclean. rewrite Forall_forall in Erest.
  repeat split; try assumption; [|apply strip_idem].
  rewrite !Forall_app. repeat split; apply Forall_forall; intros c Hc;
    try (apply Hclean; auto; fail).
  apply strip_elements, join_elements in Hc as [->|(w & Hw & Hc)];
    [reflexivity|].
  apply Hclean. by apply (Erest w).
Qed.

(** A report of one line. *)
Lemma lint_code_fields_clean_witness :
  (COLON ∉ u "m.py")
  /\ (COLON ∉ u "1")
  /\ (COLON ∉ u "0")
  /\ Forall (fun c => is_linebreak c = false)
       (u "m.py" ++ u "1" ++ u "0" ++ u "C0114: Missing docstring")
  /\ strip (u "C0114: Missing docstring") = u "C0114: Missing docstring".
Proof.
  apply (lint_code_fields_clean
           (fun _ => u "m.py:1:0: C0114: Missing docstring") "m.py"
           {| CodeAnalyzer.path := u "m.py";
              CodeAnalyzer.line := u "1";
              CodeAnalyzer.type := u "0";
              CodeAnalyzer.message := u "C0114: Missing docstring" |}).
  vm_compute. left.
Defined.

(** ** The syntax tree *)

Lemma join_snoc {A} (sep : A) (ws : list (list A)) (w : list A) :
  ws <> [] -> join sep (ws ++ [w]) = join sep ws ++ sep :: w.
Proof.
  induction ws as [|v ws IH]; intros Hne; [congruence|].
  destruct ws as [|v' ws]; [reflexivity|].
  change (join sep ((v :: v' :: ws) ++ [w]))
    with (v ++ sep :: join sep ((v' :: ws) ++ [w])).
  rewrite IH by discriminate.
  change (join sep (v :: v' :: ws)) with (v ++ sep :: join sep (v' :: ws)).
  by rewrite <- app_assoc.
Qed.

Lemma str_join_snoc (ws : list string) (w : string) :
  ws <> [] ->
  str_join "." (ws ++ [w]) = str_join "." ws +:+ "." +:+ w.
Proof.
  intros Hne. unfold str_join. rewrite fmap_app. simpl.
  rewrite join_snoc by (destruct ws; [congruence | discriminate]).
  rewrite unchars_app. simpl. by rewrite unchars_chars.
Qed.

Section NameFacts.
Variable expr_str : AnalyzerOps.expr -> string.

Local Abbreviation _get_decorator_name :=
  (AnalyzerOps._get_decorator_name expr_str).
Local Abbreviation _get_base_name := (AnalyzerOps._get_base_name expr_str).

(** X22. Dotted names. On a name followed by attribute accesses
    ([pkg.mod.Base]), [_get_base_name] and [_get_decorator_name] both
    return the identifiers joined by dots, and do not depend on the text
    of node objects. *)
Theorem get_name_dotted (id : string) (attrs : list string) :
  _get_base_name (dotted id attrs) = str_join "." (id :: attrs)
  /\ _get_decorator_name (dotted id attrs) = str_join "." (id :: attrs).
Proof.
  unfold dotted. induction attrs as [|a attrs [IHb IHd]] using rev_ind.
  - split; simpl; unfold str_join; simpl; by rewrite unchars_chars.
  - rewrite fold_left_app. simpl. rewrite IHb, IHd.
    change (id :: attrs ++ [a]) with ((id :: attrs) ++ [a]).
    by rewrite str_join_snoc by discriminate.
Qed.

(** X23. Decorators with arguments. For a decorator made of names,
    attribute accesses and calls of those ([@app.route(path).cached]),
    [_get_decorator_name] returns the dotted name that is left when the
    argument lists are dropped: the name [_get_base_name] gives for the
    decorator without its calls. *)
Theorem get_decorator_name_erases_calls (e : AnalyzerOps.expr) :
  named_decorator e = true ->
  _get_decorator_name e = _get_base_name (erase_calls e).
Proof.
  induction e as [id|value IH attr|func IH args|tag]; simpl; intros Hnamed.
  - reflexivity.
  - by rewrite IH.
  - destruct func as [id|value attr|func' args'|tag]; simpl in *;
      try discriminate; [reflexivity|].
    specialize (IH Hnamed). simpl in IH. exact IH.
  - discriminate.
Qed.

End NameFacts.

(** The decorator [@app.route(1).cached]. *)
Lemma get_decorator_name_erases_calls_witness :
  AnalyzerOps._get_decorator_name (fun _ => "<ast object>")
    (AnalyzerOps.Attribute
       (AnalyzerOps.Call (dotted "app" ["route"]) [AnalyzerOps.OtherExpr 1])
       "cached")
  = "app.route.cached".
Proof.
  exact (get_decorator_name_erases_calls (fun _ => "<ast object>")
           (AnalyzerOps.Attribute
              (AnalyzerOps.Call (dotted "app" ["route"])
                 [AnalyzerOps.OtherExpr 1])
              "cached")
           eq_refl).
Defined.

(** *** Walking the tree *)

Lemma size_children (n : AnalyzerOps.ast_node) :
  AnalyzerOps.size n = S (sizes (AnalyzerOps.iter_child_nodes n)).
Proof. by destruct n. Qed.

Lemma all_nodes_children (n : AnalyzerOps.ast_node) :
  all_nodes n = n :: flat_map all_nodes (AnalyzerOps.iter_child_nodes n).
Proof. by destruct n. Qed.

Lemma sizes_app (l k : list AnalyzerOps.ast_node) :
  sizes (l ++ k) = sizes l + sizes k.
Proof. unfold sizes. induction l as [|x l IH]; simpl; [reflexivity | lia]. Qed.

(** With enough fuel, the queue is emptied: every node of the trees in
    the queue is yielded once. *)
Lemma walk_from_all_nodes (fuel : nat) (todo : list AnalyzerOps.ast_node) :
  sizes todo <= fuel ->
  AnalyzerOps.walk_from fuel todo ≡ₚ flat_map all_nodes todo.
Proof.
  revert todo. induction fuel as [|fuel IH]; intros todo Hfuel.
  - destruct todo as [|n rest]; [reflexivity|].
    simpl in Hfuel. rewrite size_children in Hfuel. lia.
  - destruct todo as [|n rest]; [reflexivity|].
    simpl in Hfuel. rewrite size_children in Hfuel.
    simpl AnalyzerOps.walk_from. simpl flat_map.
    rewrite all_nodes_children. simpl. constructor.
    rewrite IH by (rewrite sizes_app; fold (sizes rest) in Hfuel; lia).
    rewrite flat_map_app. apply Permutation_app_comm.
Qed.

(** The walk starts with the children of the root, in their order. *)
Lemma walk_from_front (rest todo : list AnalyzerOps.ast_node) (fuel : nat) :
  length todo <= fuel ->
  exists fuel' later,
    AnalyzerOps.walk_from fuel (todo ++ rest)
    = todo ++ AnalyzerOps.walk_from fuel' (rest ++ later)
    /\ fuel = length todo + fuel'.
Proof.
  revert rest fuel. induction todo as [|n todo IH]; intros rest fuel Hfuel.
  - exists fuel, []. by rewrite app_nil_r.
  - destruct fuel as [|fuel]; [simpl in Hfuel; lia|]. simpl in Hfuel.
    simpl. rewrite <- app_assoc.
    destruct (IH (rest ++ AnalyzerOps.iter_child_nodes n) fuel)
      as (fuel' & later & Heq & Hfuel'); [lia|].
    exists fuel', (AnalyzerOps.iter_child_nodes n ++ later).
    rewrite Heq, <- app_assoc. split; [reflexivity | lia].
Qed.

Lemma sizes_length (l : list AnalyzerOps.ast_node) : length l <= sizes l.
Proof.
  induction l as [|x l IH]; simpl; [lia|]. rewrite size_children. lia.
Qed.

Section AnalysisFacts.
Variables (expr_str : AnalyzerOps.expr -> string)
          (get_docstring : AnalyzerOps.ast_node -> option pystr).

Local Abbreviation visit := (AnalyzerOps.visit expr_str get_docstring).
Local Abbreviation _analyze_ast :=
  (AnalyzerOps._analyze_ast expr_str get_docstring).

(** One step of the loop, list by list. *)
Lemma visit_lists (a : AnalyzerOps.analysis) (n : AnalyzerOps.ast_node) :
  visit a n
  = AnalyzerOps.mkAnalysis
      (AnalyzerOps.imports a ++ imports_of n)
      (AnalyzerOps.functions a ++ functions_of expr_str get_docstring n)
      (AnalyzerOps.classes a ++ classes_of expr_str get_docstring n)
      (AnalyzerOps.global_variables a ++ variables_of n).
Proof.
  destruct a, n; simpl; rewrite ?app_nil_r; try reflexivity.
  destruct (forallb AnalyzerOps.is_name targets);
    by rewrite ?app_nil_r.
Qed.

Lemma fold_visit (ns : list AnalyzerOps.ast_node) (a : AnalyzerOps.analysis) :
  fold_left visit ns a
  = AnalyzerOps.mkAnalysis
      (AnalyzerOps.imports a ++ flat_map imports_of ns)
      (AnalyzerOps.functions a
       ++ flat_map (functions_of expr_str get_docstring) ns)
      (AnalyzerOps.classes a
       ++ flat_map (classes_of expr_str get_docstring) ns)
      (AnalyzerOps.global_variables a ++ flat_map variables_of ns).
Proof.
  revert a. induction ns as [|n ns IH]; intros a.
  - destruct a. simpl. by rewrite !app_nil_r.
  - simpl fold_left. rewrite IH, visit_lists. simpl.
    by rewrite <- !app_assoc.
Qed.

(** X24. The analysis covers the whole tree. The four lists
    [_analyze_ast] returns hold what every node of the tree contributes,
    each node once, whatever its depth: methods and nested functions are
    among [functions], and the names assigned inside functions and
    classes are among [global_variables]; nothing is left out and nothing
    is listed twice. *)
Theorem analyze_ast_covers_tree (tree : AnalyzerOps.ast_node) :
  AnalyzerOps.imports (_analyze_ast tree)
    ≡ₚ flat_map imports_of (all_nodes tree)
  /\ AnalyzerOps.functions (_analyze_ast tree)
       ≡ₚ flat_map (functions_of expr_str get_docstring) (all_nodes tree)
  /\ AnalyzerOps.classes (_analyze_ast tree)
       ≡ₚ flat_map (classes_of expr_str get_docstring) (all_nodes tree)
  /\ AnalyzerOps.global_variables (_analyze_ast tree)
       ≡ₚ flat_map variables_of (all_nodes tree).
Proof.
  assert (AnalyzerOps.walk tree ≡ₚ all_nodes tree) as Hwalk.
  { unfold AnalyzerOps.walk. rewrite walk_from_all_nodes by (simpl; lia).
    simpl. by rewrite app_nil_r. }
  unfold AnalyzerOps._analyze_ast. rewrite fold_visit. simpl.
  repeat split; by apply Permutation_flat_map.
Qed.

(** X25. Breadth first. In the analysis of a node that is none of the
    five kinds the analyzer reads (a module, say), what the children of
    the node contribute comes first and in their order, before anything
    nested deeper: the functions of the top level are listed before any
    method. *)
Theorem analyze_ast_top_level_first (tag : N)
    (children : list AnalyzerOps.ast_node) :
  let a := _analyze_ast (AnalyzerOps.OtherNode tag children) in
  exists deeper,
    AnalyzerOps.walk (AnalyzerOps.OtherNode tag children)
    = AnalyzerOps.OtherNode tag children :: children ++ deeper
    /\ AnalyzerOps.imports a
       = flat_map imports_of children ++ flat_map imports_of deeper
    /\ AnalyzerOps.functions a
       = flat_map (functions_of expr_str get_docstring) children
         ++ flat_map (functions_of expr_str get_docstring) deeper
    /\ AnalyzerOps.classes a
       = flat_map (classes_of expr_str get_docstring) children
         ++ flat_map (classes_of expr_str get_docstring) deeper
    /\ AnalyzerOps.global_variables a
       = flat_map variables_of children ++ flat_map variables_of deeper.
Proof.
  intros a. unfold a, AnalyzerOps._analyze_ast. rewrite fold_visit.
  unfold AnalyzerOps.walk. simpl AnalyzerOps.size.
  fold (sizes children). simpl AnalyzerOps.walk_from.
  destruct (walk_from_front [] children (sizes children) (sizes_length _))
    as (fuel' & later & Heq & _).
  rewrite app_nil_r in Heq. rewrite Heq.
  exists (AnalyzerOps.walk_from fuel' ([] ++ later)).
  simpl. rewrite !flat_map_app. repeat split.
Qed.

End AnalysisFacts.

(** ** Listing a directory *)

Lemma startswith_snoc {A} `{EqDecision A} (l t : list A) (x : A) :
  startswith (l ++ [x]) t = true -> startswith l t = true \/ t = l ++ [x].
Proof.
  rewrite !startswith_prefix. intros [k Hk].
  destruct k as [|y k _] using rev_ind.
  - right. by rewrite app_nil_r in Hk.
  - left. exists k. rewrite app_assoc in Hk.
    by apply app_inj_tail in Hk as [-> _].
Qed.

(** Below an accepted directory that is outside the root, every entry is
    outside the root. *)
Lemma outside_child (root rp : rpath) (c : string) :
  forallb clean_part root = true ->
  str_startswith (rpath_str rp) (rpath_str root) = true ->
  startswith rp root = false ->
  startswith (rp ++ [c]) root = false.
Proof.
  intros Hroot Hpre Hout.
  destruct (startswith (rp ++ [c]) root) eqn:Hin; [exfalso | reflexivity].
  apply startswith_snoc in Hin as [Hin | ->]; [congruence|].
  unfold str_startswith in Hpre. rewrite !rpath_str_chars in Hpre.
  rewrite startswith_cons in Hpre.
  apply startswith_prefix in Hpre as [k Hk].
  rewrite fmap_app in Hk. simpl in Hk.
  destruct rp as [|d rp].
  - simpl in Hk. destruct (chars c) eqn:Hc; [|discriminate].
    rewrite forallb_app in Hroot. simpl in Hroot.
    apply (f_equal unchars) in Hc. rewrite unchars_chars in Hc.
    subst c. discriminate.
  - rewrite join_snoc in Hk by discriminate.
    apply (f_equal length) in Hk. rewrite !length_app in Hk.
    simpl in Hk. lia.
Qed.

Section ListingFacts.
Variables (root pcwd : rpath) (mtime : Type)
          (os_listdir : filesystem -> rpath -> list string)
          (os_stat : filesystem -> rpath -> N + (N * mtime))
          (not_relative : rpath -> rpath -> string).

Local Abbreviation list_directory :=
  (FileOps.list_directory root pcwd mtime os_listdir os_stat not_relative).
Local Abbreviation describe :=
  (FileOps.describe root mtime os_stat not_relative).
Local Abbreviation describe_all :=
  (FileOps.describe_all root mtime os_stat not_relative).

Lemma list_directory_run (path : string) (w : world) (rp : rpath) :
  FileOperations._validate_path root pcwd path = inr rp ->
  list_directory path w
  = if is_dir (fs w) rp
    then (w, describe_all (fs w) rp (os_listdir (fs w) rp))
    else (w, inl (NotADirectoryError ("Not a directory: " +:+ path))).
Proof.
  intros Hvalid. unfold FileOps.list_directory. rewrite Hvalid.
  by destruct (is_dir (fs w) rp).
Qed.

(** The path of an entry relative to the root. *)
Lemma relative_to_inside (rp : rpath) (c : string) :
  startswith rp root = true ->
  FileOps.relative_to not_relative (rp ++ [c]) root
  = inr {| anchor := ""; parts := drop (length root) rp ++ [c] |}.
Proof.
  intros Hin. apply startswith_prefix in Hin as [k ->].
  unfold FileOps.relative_to.
  assert (startswith ((root ++ k) ++ [c]) root = true) as ->
    by (apply startswith_prefix; exists (k ++ [c]); by rewrite app_assoc).
  rewrite <- app_assoc, !drop_app_length. reflexivity.
Qed.

(** X26. Listing a directory inside the root. For a validated path
    inside the root: when it is not a directory, [list_directory] raises
    [NotADirectoryError] with the text of the argument; when it is one
    and [stat] succeeds on its entries, the call returns one item per
    entry, in the order of the listing, whose [path] is the path of the
    entry below the root, slash-separated, and whose [type] is ['file']
    for a regular file and ['directory'] for anything else. The world is
    left as it was. *)
Theorem list_directory_entries (path : string) (w : world) (rp : rpath)
    (st : string -> N * mtime) :
  FileOperations._validate_path root pcwd path = inr rp ->
  inside root rp = true ->
  (is_dir (fs w) rp = false ->
   list_directory path w
   = (w, inl (NotADirectoryError ("Not a directory: " +:+ path))))
  /\ (is_dir (fs w) rp = true ->
      (forall c, c ∈ os_listdir (fs w) rp ->
                 os_stat (fs w) (rp ++ [c]) = inr (st c)) ->
      list_directory path w
      = (w, inr ((fun c =>
                    {| FileOps.e_name := c;
                       FileOps.e_type :=
                         if is_file (fs w) (rp ++ [c]) then "file"
                         else "directory";
                       FileOps.e_size := fst (st c);
                       FileOps.e_modified := snd (st c);
                       FileOps.e_path :=
                         str_join "/" (drop (length root) rp ++ [c]) |})
                   <$> os_listdir (fs w) rp))).
Proof.
  intros Hvalid Hin. rewrite (list_directory_run path w rp Hvalid).
  split; intros Hdir; rewrite Hdir; [reflexivity|].
  intros Hstat. f_equal.
  induction (os_listdir (fs w) rp) as [|c names IH]; [reflexivity|].
  simpl. unfold FileOps.describe at 1.
  rewrite (Hstat c) by left. destruct (st c) as [size time] eqn:Hst.
  rewrite relative_to_inside by exact Hin.
  rewrite IH by (intros c' Hc'; apply Hstat; by right).
  simpl. do 3 f_equal. unfold str. simpl.
  by destruct (drop (length root) rp).
Qed.

(** X27. Listing an accepted directory outside the root. The validation
    accepts directories beside the root whose name extends the root's;
    for such a directory, [list_directory] returns the empty list when
    the directory is empty, and otherwise raises the [ValueError] of
    [relative_to] at its first entry: nothing of the directory's content
    is returned. *)
Theorem list_directory_outside_root (path : string) (w : world) (rp : rpath) :
  forallb clean_part root = true ->
  FileOperations._validate_path root pcwd path = inr rp ->
  inside root rp = false ->
  is_dir (fs w) rp = true ->
  (os_listdir (fs w) rp = [] -> list_directory path w = (w, inr []))
  /\ (forall c names st,
        os_listdir (fs w) rp = c :: names ->
        os_stat (fs w) (rp ++ [c]) = inr st ->
        list_directory path w
        = (w, inl (Exn (ValueError (not_relative (rp ++ [c]) root))))).
Proof.
  intros Hroot Hvalid Hout Hdir.
  rewrite (list_directory_run path w rp Hvalid), Hdir.
  split; [by intros ->|].
  intros c names [size time] -> Hstat. simpl.
  unfold FileOps.describe, FileOps.relative_to. rewrite Hstat.
  apply validate_path_accepted in Hvalid as [_ Hpre].
  by rewrite (outside_child root rp c Hroot Hpre Hout).
Qed.

End ListingFacts.

(** Listing the root of the sample tree. *)
Lemma list_directory_entries_witness :
  FileOps.list_directory ["ws"] [] N sample_listdir sample_stat
    sample_not_relative "." tree_world
  = (tree_world,
     inr [FileOps.mkEntry "notes.txt" "file" 4%N 1700000000%N "notes.txt";
          FileOps.mkEntry "src" "directory" 4096%N 1700000000%N "src"]).
Proof.
  destruct (list_directory_entries ["ws"] [] N sample_listdir sample_stat
              sample_not_relative "." tree_world ["ws"]
              (fun c => if bool_decide (c = "src")
                        then (4096%N, 1700000000%N)
                        else (4%N, 1700000000%N))
              eq_refl eq_refl) as [_ Hlist].
  rewrite Hlist; [reflexivity | reflexivity |].
  intros c Hc. vm_compute in Hc.
  apply elem_of_cons in Hc as [->|Hc]; [reflexivity|].
  apply list_elem_of_singleton in Hc as ->. reflexivity.
Defined.

(** Listing the sibling [/ws2] of the root [/ws], reached as [../ws2]. *)
Lemma list_directory_outside_root_witness :
  FileOps.list_directory ["ws"] [] N sample_listdir sample_stat
    sample_not_relative "../ws2" sibling_world
  = (sibling_world,
     inl (Exn (ValueError "/ws2/secret is not in the subpath of /ws"))).
Proof.
  destruct (list_directory_outside_root ["ws"] [] N sample_listdir
              sample_stat sample_not_relative "../ws2" sibling_world ["ws2"]
              eq_refl eq_refl eq_refl eq_refl) as [_ Hraise].
  exact (Hraise "secret" [] (3%N, 1700000000%N) eq_refl eq_refl).
Defined.

(** ** The root of a workspace *)

(** X28. What the constructor establishes. When [FileOperations(text)]
    returns in a process whose current directory is a clean path, the
    root it keeps exists, has only clean components (no [.], no [..], no
    empty name), and is itself a path the validation accepts: ["."]
    validates to the root. The world is left as it was. *)
Theorem init_workspace_root (pcwd pcwd' : rpath) (text : string)
    (w w1 : world) (root : rpath) :
  forallb clean_part pcwd = true ->
  FileOps.__init__ pcwd text w = (w1, inr root) ->
  w1 = w
  /\ is_Some (node_at (fs w) root)
  /\ forallb clean_part root = true
  /\ FileOperations._validate_path root pcwd' "." = inr root.
Proof.
  intros Hcwd Hinit.
  unfold FileOps.__init__, bind, get_fs, raise, ret in Hinit.
  cbv beta zeta in Hinit.
  remember (parts (resolve pcwd (of_str text))) as r eqn:Hr.
  destruct (bool_decide (is_Some (node_at (fs w) r))) eqn:Hex;
    simpl in Hinit; [|discriminate].
  apply bool_decide_eq_true in Hex.
  injection Hinit as <- <-.
  assert (Forall (fun c => clean_part c = true) r) as Hclean.
  { rewrite Hr. unfold resolve. simpl.
    apply normalize_clean; [|apply of_str_parts].
    destruct (absolute (of_str text)); [constructor|].
    apply Forall_rev. by apply forallb_true. }
  clear Hr. repeat split; [exact Hex | by apply forallb_true |].
  unfold FileOperations._validate_path. cbv zeta.
  assert (parts (resolve pcwd' (truediv (abs_path r) (of_str "."))) = r)
    as Hsame.
  { rewrite validate_path_resolved. simpl. rewrite app_nil_r.
    by rewrite normalize_plain. }
  change (str (resolve pcwd' (truediv (abs_path r) (of_str "."))))
    with (rpath_str
            (parts (resolve pcwd' (truediv (abs_path r) (of_str "."))))).
  rewrite Hsame. unfold str_startswith. by rewrite startswith_refl.
Qed.

(** The workspace [ws], named relative to the current directory [/]. *)
Lemma init_workspace_root_witness :
  forallb clean_part ["ws"] = true
  /\ FileOperations._validate_path ["ws"] ["tmp"] "." = inr ["ws"].
Proof.
  destruct (init_workspace_root [] ["tmp"] "./ws/src/.." tree_world
              tree_world ["ws"] eq_refl eq_refl)
    as (_ & _ & Hclean & Hvalid).
  split; [exact Hclean | exact Hvalid].
Defined.
